(** * wallpaper-scraper: a shallow embedding of the download core

    The development follows the Python sources of the repository:
    - [src/utils/download.py]: [sanitize_filename],
      [get_file_extension_from_url], [download_file];
    - [src/scrapers/base_scraper.py]: the rate limiter
      [_respect_rate_limit], the permit pool and [download_all];
    - [src/scrapers/unsplash_scraper.py], [pixabay_scraper.py],
      [wallhaven_scraper.py]: listing loops and [download_wallpaper];
    - [main.py]: the page loop of the orchestrator.

    Python [str] values are Rocq strings whose characters are the code
    points below 256; event-loop time is a rational number of seconds,
    with the arithmetic exact in [RateLimiter] and rounded as binary64
    rounds it in [RateLimiter64]; dictionaries are finite maps; the file
    system and the network are explicit state and explicit oracles. *)

From Stdlib Require Import QArith Qround Qpower Lqa.
From Stdlib Require PrimFloat FloatOps SpecFloat.
From Stdlib Require Import Ascii String.
From stdpp Require Import base option list strings pretty gmap sets.
Close Scope Q_scope.
Local Open Scope string_scope.

(** ** Python string primitives *)

Module PyStr.

(** [len(s)] *)
Definition len (s : string) : nat := String.length s.

(** Every character of [s] satisfies [P]. *)
Fixpoint all_chars (P : ascii → bool) (s : string) : bool :=
  match s with
  | EmptyString => true
  | String a s' => P a && all_chars P s'
  end.

(** [c in s] *)
Fixpoint mem (c : ascii) (s : string) : bool :=
  match s with
  | EmptyString => false
  | String a s' => bool_decide (a = c) || mem c s'
  end.

(** [s.replace(c, d)] for one-character [c] and [d]. *)
Fixpoint replace (c d : ascii) (s : string) : string :=
  match s with
  | EmptyString => EmptyString
  | String a s' =>
      String (if bool_decide (a = c) then d else a) (replace c d s')
  end.

(** [str.isspace] on the code points below 256:
    TAB LF VT FF CR, FS GS RS US, SPACE, NEL and NBSP. *)
Definition isspace (a : ascii) : bool :=
  let n := nat_of_ascii a in
  bool_decide (9 ≤ n ≤ 13)%nat || bool_decide (28 ≤ n ≤ 32)%nat
  || bool_decide (n = 133%nat) || bool_decide (n = 160%nat).

Definition isdot (a : ascii) : bool := bool_decide (a = "."%char).

(** [s.lstrip(...)] / [s.rstrip(...)], the stripped set given as a test. *)
Fixpoint lstrip (P : ascii → bool) (s : string) : string :=
  match s with
  | EmptyString => EmptyString
  | String a s' => if P a then lstrip P s' else s
  end.

Fixpoint rstrip (P : ascii → bool) (s : string) : string :=
  match s with
  | EmptyString => EmptyString
  | String a s' =>
      match rstrip P s' with
      | EmptyString => if P a then EmptyString else String a EmptyString
      | r => String a r
      end
  end.

(** [s.strip(...)] *)
Definition strip (P : ascii → bool) (s : string) : string :=
  rstrip P (lstrip P s).

(** [s[:n]] and [s[n:]] for a natural [n]. *)
Fixpoint take (n : nat) (s : string) : string :=
  match n, s with
  | S n', String a s' => String a (take n' s')
  | _, _ => EmptyString
  end.

Fixpoint drop (n : nat) (s : string) : string :=
  match n, s with
  | S n', String _ s' => drop n' s'
  | _, _ => s
  end.

(** [s[:k]] for an arbitrary integer [k]: a negative bound counts from the
    end of the string, and the slice is empty when it reaches past the
    start. *)
Definition slice_to (k : Z) (s : string) : string :=
  if bool_decide (0 ≤ k)%Z then take (Z.to_nat k) s
  else take (Z.to_nat (Z.of_nat (len s) + k)) s.

(** [s.rfind(c)]: the last index of [c], [None] for Python's [-1]. *)
Fixpoint rfind (c : ascii) (s : string) : option nat :=
  match s with
  | EmptyString => None
  | String a s' =>
      match rfind c s' with
      | Some i => Some (S i)
      | None => if bool_decide (a = c) then Some 0 else None
      end
  end.

(** [s.split(c)[0]]: the text before the first [c]. *)
Fixpoint before (c : ascii) (s : string) : string :=
  match s with
  | EmptyString => EmptyString
  | String a s' =>
      if bool_decide (a = c) then EmptyString else String a (before c s')
  end.

(** [c * n]: the character [c] repeated [n] times. *)
Fixpoint times (c : ascii) (n : nat) : string :=
  match n with
  | O => EmptyString
  | S n' => String c (times c n')
  end.

(** [t in s] for strings. *)
Definition contains (s t : string) : Prop :=
  ∃ pre post, s = pre ++ t ++ post.

(** [os.path.splitext] (genericpath._splitext with the POSIX separator and
    no alternative separator): the extension starts at the last dot,
    provided that dot comes after the last separator and some character
    between the separator and the dot is not a dot. *)
Definition splitext (p : string) : string * string :=
  let file_start :=
    match rfind "/"%char p with Some i => S i | None => 0 end in
  match rfind "."%char p with
  | Some dot =>
      if bool_decide (file_start ≤ dot)%nat
         && negb (all_chars isdot (take (dot - file_start) (drop file_start p)))
      then (take dot p, drop dot p)
      else (p, EmptyString)
  | None => (p, EmptyString)
  end.

End PyStr.

(** ** [src/utils/download.py]: file names *)

(** The double quote character, written by its code. *)
Definition dquote : ascii := ascii_of_nat 34.

(** The nine characters of [invalid_chars], in the order of the source. *)
Definition invalid_chars : list ascii :=
  ["<"; ">"; ":"; dquote; "/"; "\"; "|"; "?"; "*"]%char.

Definition is_invalid (a : ascii) : bool := bool_decide (a ∈ invalid_chars).

Definition sanitize_filename (filename : string) : string :=
  (* for char in invalid_chars: filename = filename.replace(char, '_') *)
  let filename :=
    fold_left (λ f c, PyStr.replace c "_"%char f) invalid_chars filename in
  (* filename = filename.strip().strip('.') *)
  let filename := PyStr.strip PyStr.isdot (PyStr.strip PyStr.isspace filename) in
  (* if len(filename) > 255: keep the extension, cut the base *)
  let filename :=
    if bool_decide (255 < PyStr.len filename)%nat then
      let '(base, ext) := PyStr.splitext filename in
      PyStr.slice_to (255 - Z.of_nat (PyStr.len ext)) base ++ ext
    else filename in
  (* if not filename: use the default name *)
  if bool_decide (filename = EmptyString) then "wallpaper" else filename.

Definition get_file_extension_from_url (url : string) : string :=
  let path := PyStr.before "?"%char url in
  snd (PyStr.splitext path).


(** [os.path.dirname] for POSIX paths: everything up to the last slash,
    without trailing slashes unless the head consists of slashes only. *)
Definition dirname (p : string) : string :=
  let head :=
    match PyStr.rfind "/"%char p with
    | Some i => PyStr.take (S i) p
    | None => EmptyString
    end in
  if PyStr.all_chars (λ a, bool_decide (a = "/"%char)) head then head
  else PyStr.rstrip (λ a, bool_decide (a = "/"%char)) head.

(** ** Python values

    The values that reach the scrapers come out of decoded JSON: [None],
    booleans, integers, strings, lists and dictionaries with string keys.
    Floating-point numbers are left out. *)

Set Warnings "-register-all".

Inductive pyval :=
| PNone
| PBool (b : bool)
| PInt (z : Z)
| PStr (s : string)
| PList (l : list pyval)
| PDict (d : gmap string pyval).

(** Truth value of a Python object, as tested by [if], [not], [and], [or]. *)
Definition truthy (v : pyval) : bool :=
  match v with
  | PNone => false
  | PBool b => b
  | PInt z => negb (z =? 0)%Z
  | PStr s => negb (bool_decide (s = EmptyString))
  | PList l => match l with [] => false | _ :: _ => true end
  | PDict d => match size d with O => false | S _ => true end
  end.

(** [a or b] *)
Definition py_or (a b : pyval) : pyval := if truthy a then a else b.

(** [d.get(k, dflt)]; [d.get(k)] is [dict_get d k PNone]. *)
Definition dict_get (d : gmap string pyval) (k : string) (dflt : pyval) : pyval :=
  default dflt (d !! k).

Definition type_name (v : pyval) : string :=
  match v with
  | PNone => "NoneType"
  | PBool _ => "bool"
  | PInt _ => "int"
  | PStr _ => "str"
  | PList _ => "list"
  | PDict _ => "dict"
  end.

(** What the development takes from the Python runtime without modelling
    it: the text of a list or dictionary, and path concatenation. *)
Class PyRuntime := {
  (** [str(v)] when [v] is a list or a dictionary *)
  container_str : pyval → string;
  (** [pathlib]: [directory / name] *)
  path_join : string → string → string;
}.

(** [str(v)], the text an f-string inserts for [v]. *)
Definition py_str `{PyRuntime} (v : pyval) : string :=
  match v with
  | PNone => "None"
  | PBool true => "True"
  | PBool false => "False"
  | PInt z => pretty z
  | PStr s => s
  | PList _ | PDict _ => container_str v
  end.

(** Exceptions, by the handler of [download_file] that catches them. Only
    exceptions of class [Exception] are modelled: what derives from
    [BaseException] alone, such as [asyncio.CancelledError], passes every
    handler of the repository and is outside the model. *)
Inductive exn :=
| ClientError (msg : string)        (* aiohttp.ClientError *)
| TimeoutError                      (* asyncio.TimeoutError *)
| OtherError (cls msg : string).    (* any other Exception *)

Inductive result (A : Type) :=
| Ok (a : A)
| Raise (e : exn).
Arguments Ok {A} a.
Arguments Raise {A} e.

(** [AttributeError] for a missing method. *)
Definition no_attribute (v : pyval) (attr : string) : exn :=
  OtherError "AttributeError"
    ("'" ++ type_name v ++ "' object has no attribute '" ++ attr ++ "'").

(** [v.get(k, dflt)] on an arbitrary object: only dictionaries have [get]. *)
Definition py_get (v : pyval) (k : string) (dflt : pyval) : result pyval :=
  match v with
  | PDict d => Ok (dict_get d k dflt)
  | _ => Raise (no_attribute v "get")
  end.

(** ** The world: file system, network log, logger *)

Inductive level := INFO | WARNING | ERROR.

Record world := World {
  files : gmap string string;      (* regular files and their contents *)
  dirs : gset string;              (* directories created so far *)
  requests : list string;          (* URLs fetched, oldest first *)
  log : list (level * string);     (* log records, oldest first *)
}.

(** [Path.exists] *)
Definition path_exists (p : string) (w : world) : bool :=
  bool_decide (is_Some (files w !! p)) || bool_decide (p ∈ dirs w).

(** An HTTP response as [download_file] reads it. *)
Record response := Response {
  status : Z;
  reason : string;
  (* int(response.headers.get('content-length', 0)), or what it raises *)
  content_length : result Z;
  (* the chunks yielded by iter_chunked *)
  chunks : list string;
  (* the exception that ends the stream after the chunks, if any *)
  stream_error : option exn;
}.

(** The environment: what the network and the operating system answer.
    The network answer may depend on how many requests were made before. *)
Record env := Env {
  net : nat → string → result response;
  makedirs_error : string → option exn;
  open_error : string → option exn;
}.

(** Computations over the world that may raise. *)
Definition io (A : Type) : Type := world → result A * world.

#[global] Instance io_ret : MRet io := λ A a w, (Ok a, w).
#[global] Instance io_bind : MBind io := λ A B f m w,
  match m w with
  | (Ok a, w') => f a w'
  | (Raise e, w') => (Raise e, w')
  end.

Definition raise {A} (e : exn) : io A := λ w, (Raise e, w).
Definition lift {A} (r : result A) : io A := λ w, (r, w).

Definition logger (l : level) (msg : string) : io unit := λ w,
  (Ok tt, World (files w) (dirs w) (requests w) (log w ++ [(l, msg)])).

(** [os.makedirs(d, exist_ok=True)] *)
Definition makedirs (E : env) (d : string) : io unit := λ w,
  match makedirs_error E d with
  | Some e => (Raise e, w)
  | None => (Ok tt, World (files w) ({[d]} ∪ dirs w) (requests w) (log w))
  end.

(** [session.get(url, ...)]: the request is recorded, then answered. *)
Definition session_get (E : env) (url : string) : io response := λ w,
  (net E (length (requests w)) url,
   World (files w) (dirs w) (requests w ++ [url]) (log w)).

(** [aiofiles.open(destination, 'wb')]: creates or truncates the file. *)
Definition open_wb (E : env) (p : string) : io unit := λ w,
  match open_error E p with
  | Some e => (Raise e, w)
  | None => (Ok tt, World (<[p := EmptyString]> (files w)) (dirs w) (requests w) (log w))
  end.

(** [f.write(chunk)] *)
Definition write (p chunk : string) : io unit := λ w,
  (Ok tt, World (<[p := default EmptyString (files w !! p) ++ chunk]> (files w))
                (dirs w) (requests w) (log w)).

(** ** [src/utils/download.py]: [download_file] *)

(** The body of the [try] block. *)
Definition download_file_try (E : env) (url destination : string)
  : io (bool * option string) :=
  makedirs E (dirname destination) ;;
  response ← session_get E url ;
  if negb (status response =? 200)%Z then
    mret (false, Some ("HTTP error " ++ pretty (status response) ++ ": "
                         ++ reason response))
  else
    total_size ← lift (content_length response) ;
    open_wb E destination ;;
    mapM (write destination) (chunks response) ;;
    from_option raise (mret tt) (stream_error response) ;;
    logger INFO ("Successfully downloaded " ++ url ++ " to " ++ destination) ;;
    mret (true, None).

(** The three [except] clauses turn every exception into a failure outcome
    with a logged message. *)
Definition download_file (E : env) (url destination : string) (timeout : Z)
  : world → (bool * option string) * world := λ w,
  match download_file_try E url destination w with
  | (Ok outcome, w') => (outcome, w')
  | (Raise e, w') =>
      let error_msg :=
        match e with
        | ClientError m => "Network error downloading " ++ url ++ ": " ++ m
        | TimeoutError =>
            "Timeout downloading " ++ url ++ " after " ++ pretty timeout
              ++ " seconds"
        | OtherError _ m => "Error downloading " ++ url ++ ": " ++ m
        end in
      ((false, Some error_msg), snd (logger ERROR error_msg w'))
  end.

(** ** Shared steps of the [download_wallpaper] methods *)

#[global] Instance result_ret : MRet result := λ A a, Ok a.
#[global] Instance result_bind : MBind result := λ A B f m,
  match m with
  | Ok a => f a
  | Raise e => Raise e
  end.

Definition get_world : io world := λ w, (Ok w, w).

(** [str(e)] for a caught exception. *)
Definition exn_str (e : exn) : string :=
  match e with
  | ClientError m => m
  | TimeoutError => EmptyString
  | OtherError _ m => m
  end.

Definition as_str_opt (v : pyval) : option string :=
  match v with PStr s => Some s | _ => None end.

(** A method of [str] called on [v]: fails unless [v] is a string. *)
Definition as_str (v : pyval) (method : string) : result string :=
  match v with
  | PStr s => Ok s
  | _ => Raise (no_attribute v method)
  end.

(** [ext = get_file_extension_from_url(download_url) or '.jpg'] *)
Definition file_ext (download_url : pyval) : result string :=
  url ← as_str download_url "split" ;
  let ext := get_file_extension_from_url url in
  mret (if bool_decide (ext = EmptyString) then ".jpg" else ext).

(** [output_dir = self.download_directory / category_dir] *)
Definition category_path `{PyRuntime} (download_directory : string)
    (category_dir : pyval) : result string :=
  match category_dir with
  | PStr c => Ok (path_join download_directory c)
  | _ => Raise (OtherError "TypeError"
           ("unsupported operand type(s) for /: 'PosixPath' and '"
              ++ type_name category_dir ++ "'"))
  end.

(** [if width and height: filename += f"_{width}x{height}"] *)
Definition add_resolution `{PyRuntime} (wallpaper_data : gmap string pyval)
    (filename : string) : string :=
  let width := dict_get wallpaper_data "width" PNone in
  let height := dict_get wallpaper_data "height" PNone in
  if truthy width && truthy height
  then filename ++ "_" ++ py_str width ++ "x" ++ py_str height
  else filename.

(** The tail shared by the scrapers: fetch with [download_file] (default
    timeout of 60 seconds) and turn its pair into the returned path. *)
Definition fetch_to (E : env) (download_url output_path : string)
  : io (option string) :=
  λ w,
  let '((success, error), w') := download_file E download_url output_path 60 w in
  if success then (Ok (Some output_path), w')
  else
    let '(_, w'') :=
      logger ERROR ("Failed to download wallpaper: " ++ default "None" error) w' in
    (Ok None, w'').

(** ** [src/scrapers/unsplash_scraper.py]: [download_wallpaper]

    The block under [async with self.semaphore], after the call of
    [_respect_rate_limit]; neither of those touches files or the network. *)

(** The URL the download step uses: the [regular] rendition only. *)
Definition unsplash_resolve (wallpaper_data : gmap string pyval) : pyval :=
  dict_get wallpaper_data "regular" PNone.

(** [filename = sanitize_filename(f"{title}_by_{user}" if user else title)] *)
Definition unsplash_filename `{PyRuntime} (wallpaper_data : gmap string pyval)
  : result string :=
  let title := dict_get wallpaper_data "title" (PStr "wallpaper") in
  let user := dict_get wallpaper_data "username" (PStr "") in
  name ← as_str (if truthy user
                 then PStr (py_str title ++ "_by_" ++ py_str user)
                 else title) "replace" ;
  mret (sanitize_filename name).

(** The request that registers the download with the API; every exception
    is caught and logged as a warning. *)
Definition unsplash_register_download (E : env) (download_url : pyval)
  : io unit := λ w,
  match download_url with
  | PStr u =>
      match session_get E u w with
      | (Ok _, w') => (Ok tt, w')
      | (Raise e, w') =>
          logger WARNING
            ("Failed to register download with Unsplash API: " ++ exn_str e) w'
      end
  | _ =>
      logger WARNING
        ("Failed to register download with Unsplash API: "
           ++ "Constructor parameter should be str") w
  end.

Definition api_key_set (api_key : option string) : bool :=
  match api_key with
  | Some k => negb (bool_decide (k = EmptyString))
  | None => false
  end.

Definition unsplash_download_wallpaper `{PyRuntime} (E : env)
    (download_directory : string) (api_key : option string)
    (wallpaper_data : gmap string pyval) : io (option string) :=
  let download_url := unsplash_resolve wallpaper_data in
  if negb (truthy download_url) then
    logger ERROR "No URL available for download" ;; mret None
  else
    filename ← lift (unsplash_filename wallpaper_data) ;
    ext ← lift (file_ext download_url) ;
    let category_dir := dict_get wallpaper_data "category" (PStr "unsplash") in
    output_dir ← lift (category_path download_directory category_dir) ;
    makedirs E output_dir ;;
    let filename := add_resolution wallpaper_data filename in
    let output_path := path_join output_dir (filename ++ ext) in
    w ← get_world ;
    if path_exists output_path w then
      logger INFO ("Wallpaper already exists: " ++ output_path) ;;
      mret (Some output_path)
    else
      (if truthy (dict_get wallpaper_data "download_url" PNone)
          && api_key_set api_key
       then unsplash_register_download E
              (dict_get wallpaper_data "download_url" PNone)
       else mret tt) ;;
      (* download_url is a string here, or file_ext had raised *)
      url ← lift (as_str download_url "split") ;
      fetch_to E url output_path.

(** The destination path as the method computes it, a function of the
    metadata alone: [Ok p] when the method gets as far as [output_path]. *)
Definition unsplash_output_path `{PyRuntime} (download_directory : string)
    (wallpaper_data : gmap string pyval) : result (string * string) :=
  filename ← unsplash_filename wallpaper_data ;
  ext ← file_ext (unsplash_resolve wallpaper_data) ;
  output_dir ← category_path download_directory
                 (dict_get wallpaper_data "category" (PStr "unsplash")) ;
  mret (output_dir,
        path_join output_dir (add_resolution wallpaper_data filename ++ ext)).

(** ** [src/scrapers/pixabay_scraper.py]: [download_wallpaper] *)

(** [wallpaper_data.get('original') or wallpaper_data.get('full')
     or wallpaper_data.get('small')] *)
Definition pixabay_resolve (wallpaper_data : gmap string pyval) : pyval :=
  py_or (py_or (dict_get wallpaper_data "original" PNone)
               (dict_get wallpaper_data "full" PNone))
        (dict_get wallpaper_data "small" PNone).

Definition pixabay_download_wallpaper `{PyRuntime} (E : env)
    (download_directory : string)
    (wallpaper_data : gmap string pyval) : io (option string) :=
  let download_url := pixabay_resolve wallpaper_data in
  if negb (truthy download_url) then
    logger ERROR "No URL available for download" ;; mret None
  else
    let title := dict_get wallpaper_data "title" (PStr "pixabay") in
    let image_id := dict_get wallpaper_data "id" (PStr "") in
    let filename := sanitize_filename (py_str title ++ "_" ++ py_str image_id) in
    ext ← lift (file_ext download_url) ;
    let category_dir := dict_get wallpaper_data "category" (PStr "pixabay") in
    output_dir ← lift (category_path download_directory category_dir) ;
    makedirs E output_dir ;;
    let filename := add_resolution wallpaper_data filename in
    let output_path := path_join output_dir (filename ++ ext) in
    w ← get_world ;
    if path_exists output_path w then
      logger INFO ("Wallpaper already exists: " ++ output_path) ;;
      mret (Some output_path)
    else
      (* download_url is a string here, or file_ext had raised *)
      url ← lift (as_str download_url "split") ;
      fetch_to E url output_path.

(** ** Ranked URLs of a candidate

    The renditions a candidate carries, best first. For Pixabay this is
    the order the download step tries them in; an Unsplash candidate carries
    five renditions, of which the download step reads [regular] alone. *)

Definition pixabay_ranked (wallpaper_data : gmap string pyval) : list pyval :=
  [dict_get wallpaper_data "original" PNone;
   dict_get wallpaper_data "full" PNone;
   dict_get wallpaper_data "small" PNone].

Definition unsplash_ranked (wallpaper_data : gmap string pyval) : list pyval :=
  [dict_get wallpaper_data "raw" PNone;
   dict_get wallpaper_data "full" PNone;
   dict_get wallpaper_data "regular" PNone;
   dict_get wallpaper_data "small" PNone;
   dict_get wallpaper_data "thumbnail" PNone].

(** The highest-ranked entry that is present (neither [None] nor empty). *)
Definition first_present (ranked : list pyval) : option pyval :=
  find truthy ranked.

(** The resolution rule as the specification words it: when the best entry
    is [None] and some lower entry is present, the step resolves to the
    highest-ranked entry that is present. *)
Definition resolves_to_best_present
    (ranked : gmap string pyval → list pyval)
    (resolve : gmap string pyval → pyval) : Prop :=
  ∀ wallpaper_data,
    head (ranked wallpaper_data) = Some PNone →
    (∃ v, v ∈ tail (ranked wallpaper_data) ∧ truthy v = true) →
    first_present (ranked wallpaper_data) = Some (resolve wallpaper_data).

(** ** Listing: the parsing loops of [get_wallpaper_list] *)

(** [for item in results: try: ... wallpapers.append(wallpaper)
     except Exception as e: logger.warning(...)].
    The extraction of one entry either yields a candidate, or asks for the
    next entry ([continue]), or raises. *)
Fixpoint parse_entries {A} (extract : A → result (option (gmap string pyval)))
    (results : list A) (wallpapers : list (gmap string pyval))
  : io (list (gmap string pyval)) :=
  match results with
  | [] => mret wallpapers
  | item :: rest =>
      match extract item with
      | Ok (Some wallpaper) => parse_entries extract rest (wallpapers ++ [wallpaper])
      | Ok None => parse_entries extract rest wallpapers
      | Raise e =>
          logger WARNING ("Error parsing wallpaper item: " ++ exn_str e) ;;
          parse_entries extract rest wallpapers
      end
  end.

(** What one entry contributes to the loop: a candidate, or a warning. *)
Definition extracted {A} (extract : A → result (option (gmap string pyval)))
    (item : A) : option (gmap string pyval) :=
  match extract item with Ok (Some wallpaper) => Some wallpaper | _ => None end.

Definition warned {A} (extract : A → result (option (gmap string pyval)))
    (item : A) : option (level * string) :=
  match extract item with
  | Raise e => Some (WARNING, "Error parsing wallpaper item: " ++ exn_str e)
  | _ => None
  end.

(** [for item in v]: lists yield their elements, strings their characters,
    dictionaries their keys; nothing else can be iterated. *)
Definition py_iter (v : pyval) : result (list pyval) :=
  match v with
  | PList l => Ok l
  | PStr s => Ok ((λ a, PStr (String a EmptyString)) <$> list_ascii_of_string s)
  | PDict d => Ok ((λ kv, PStr kv.1) <$> map_to_list d)
  | _ => Raise (OtherError "TypeError"
                  ("'" ++ type_name v ++ "' object is not iterable"))
  end.

(** *** Unsplash (API) *)

(** The dictionary built for one entry of the response, fields evaluated in
    the order of the source. *)
Definition unsplash_extract `{PyRuntime} (query orientation : string)
    (item : pyval) : result (option (gmap string pyval)) :=
  id ← py_get item "id" PNone ;
  description ← py_get item "description" PNone ;
  alt_description ← py_get item "alt_description" PNone ;
  let title := py_or (py_or description alt_description)
                     (PStr ("unsplash_" ++ py_str id)) in
  urls ← py_get item "urls" (PDict ∅) ;
  thumbnail ← py_get urls "thumb" PNone ;
  small ← py_get urls "small" PNone ;
  regular ← py_get urls "regular" PNone ;
  full ← py_get urls "full" PNone ;
  raw ← py_get urls "raw" PNone ;
  links ← py_get item "links" (PDict ∅) ;
  download_url ← py_get links "download" PNone ;
  user ← py_get item "user" (PDict ∅) ;
  name ← py_get user "name" PNone ;
  username ← py_get user "username" PNone ;
  width ← py_get item "width" PNone ;
  height ← py_get item "height" PNone ;
  mret (Some (list_to_map
    [("id", id); ("title", title); ("thumbnail", thumbnail); ("small", small);
     ("regular", regular); ("full", full); ("raw", raw);
     ("download_url", download_url); ("user", name); ("username", username);
     ("width", width); ("height", height);
     ("category", py_or (PStr query) (PStr "unsplash"));
     ("orientation", PStr orientation)])).

(** The part of [get_wallpaper_list] that follows [data = await
    response.json()]: pick the list of results for the endpoint and run the
    loop over it. *)
Definition unsplash_parse_response `{PyRuntime} (query orientation : string)
    (data : pyval) : io (list (gmap string pyval)) :=
  results ← lift (if bool_decide (query = EmptyString)
                  then mret (match data with PList _ => data | _ => PList [] end)
                  else py_get data "results" (PList [])) ;
  items ← lift (py_iter results) ;
  parse_entries (unsplash_extract query orientation) items [].

(** An entry the Unsplash loop can extract: a dictionary whose [urls],
    [links] and [user] fields, when present, are dictionaries. *)
Definition is_dict (v : pyval) : bool :=
  match v with PDict _ => true | _ => false end.

Definition unsplash_well_formed (item : pyval) : bool :=
  match item with
  | PDict d =>
      is_dict (dict_get d "urls" (PDict ∅))
      && is_dict (dict_get d "links" (PDict ∅))
      && is_dict (dict_get d "user" (PDict ∅))
  | _ => false
  end.

(** *** Wallhaven (HTML) *)

(** What the loop reads from one [figure] element. *)
Record figure := Figure {
  (* figure.get('data-wallpaper-id') *)
  data_wallpaper_id : option string;
  (* the text of the first span.wall-res below the figure, if there is one *)
  wall_res : option string;
  (* the first img below the figure, if any, and its data-src attribute *)
  img_data_src : option (option string);
}.

Definition isdigit (a : ascii) : bool :=
  let n := nat_of_ascii a in bool_decide (48 ≤ n ≤ 57)%nat.

(** [sys.get_int_max_str_digits()], at its default. *)
Definition max_str_digits : Z := 4300.

(** [int(s)] for a string of decimal digits: a string of more than
    [max_str_digits] digits, leading zeros counted, is refused with a
    [ValueError]. *)
Definition int_of_digits (s : string) : result Z :=
  if bool_decide (max_str_digits < Z.of_nat (PyStr.len s))%Z
  then Raise (OtherError "ValueError"
         ("Exceeds the limit (4300 digits) for integer string conversion: "
            ++ "value has " ++ pretty (PyStr.len s)
            ++ " digits; use sys.set_int_max_str_digits() to increase the limit"))
  else Ok (fold_left (λ acc a, 10 * acc + Z.of_nat (nat_of_ascii a - 48))%Z
                     (list_ascii_of_string s) 0%Z).

(** The longest prefix of characters that satisfy [P], and the rest. *)
Fixpoint span (P : ascii → bool) (s : string) : string * string :=
  match s with
  | EmptyString => (EmptyString, EmptyString)
  | String a s' =>
      if P a then let '(pre, post) := span P s' in (String a pre, post)
      else (EmptyString, s)
  end.

(** [re.match(r'(\d+)\s*x\s*(\d+)', text)] and the two groups of the
    match. The character classes are disjoint from one another and from the
    letter x, so greedy matching never backtracks. *)
Definition match_groups (text : string) : option (string * string) :=
  let '(w, rest) := span isdigit text in
  if bool_decide (w = EmptyString) then None else
  match PyStr.lstrip PyStr.isspace rest with
  | String "x"%char rest =>
      let '(h, _) := span isdigit (PyStr.lstrip PyStr.isspace rest) in
      if bool_decide (h = EmptyString) then None
      else Some (w, h)
  | _ => None
  end.

(** [width, height = map(int, match.groups())] when there is a match: the
    first number is converted before the second. *)
Definition match_resolution (text : string) : result (option (Z * Z)) :=
  match match_groups text with
  | Some (w, h) =>
      width ← int_of_digits w ;
      height ← int_of_digits h ;
      mret (Some (width, height))
  | None => mret None
  end.

Definition wallhaven_base_url : string := "https://wallhaven.cc".

Definition wallhaven_extract (query : string) (f : figure)
  : result (option (gmap string pyval)) :=
  match data_wallpaper_id f with
  | None | Some EmptyString => mret None         (* continue *)
  | Some wallpaper_id =>
      let resolution_text :=
        match wall_res f with
        | Some text => PyStr.strip PyStr.isspace text
        | None => EmptyString
        end in
      '(width, height) ←
        (if bool_decide (resolution_text = EmptyString) then mret (0, 0)%Z
         else found ← match_resolution resolution_text ;
              mret (default (0, 0)%Z found)) ;
      let thumb_url :=
        match img_data_src f with
        | Some (Some src) => PStr src
        | Some None => PNone
        | None => PStr EmptyString
        end in
      let detail_url := wallhaven_base_url ++ "/w/" ++ wallpaper_id in
      mret (Some (list_to_map
        [("id", PStr wallpaper_id); ("title", PStr ("wallhaven_" ++ wallpaper_id));
         ("thumbnail", thumb_url); ("url", PStr detail_url);
         ("category", py_or (PStr query) (PStr "wallhaven"));
         ("width", PInt width); ("height", PInt height);
         ("resolution", PStr resolution_text)]))
  end.

(** The loop over [soup.select('figure')]. *)
Definition wallhaven_parse_figures (query : string) (figures : list figure)
  : io (list (gmap string pyval)) :=
  parse_entries (wallhaven_extract query) figures [].

(** A figure with its identifier. *)
Definition figure_well_formed (f : figure) : bool :=
  match data_wallpaper_id f with
  | None | Some EmptyString => false
  | Some _ => true
  end.

(** The text the loop takes for the resolution of a figure. *)
Definition figure_resolution (f : figure) : string :=
  match wall_res f with
  | Some text => PyStr.strip PyStr.isspace text
  | None => EmptyString
  end.

(** Neither number that the pattern finds in the resolution of a figure is
    too long for [int]. *)
Definition resolution_readable (f : figure) : bool :=
  match match_groups (figure_resolution f) with
  | Some (w, h) =>
      bool_decide (Z.of_nat (PyStr.len w) ≤ max_str_digits)%Z
      && bool_decide (Z.of_nat (PyStr.len h) ≤ max_str_digits)%Z
  | None => true
  end.

(** The warnings among log records. *)
Definition warnings (l : list (level * string)) : list string :=
  omap (λ r, match r.1 with WARNING => Some r.2 | _ => None end) l.

(** Tolerance of malformed entries as the specification words it: the
    listing does not raise, returns one candidate per well-formed entry and
    logs one warning per malformed entry. *)
Definition skips_with_warning {A} (well_formed : A → bool)
    (listing : list A → io (list (gmap string pyval))) : Prop :=
  ∀ entries w,
    ∃ wallpapers w',
      listing entries w = (Ok wallpapers, w')
      ∧ length wallpapers = length (List.filter well_formed entries)
      ∧ ∃ new : list (level * string), log w' = (log w ++ new)%list
          ∧ length (warnings new)
            = length (List.filter (λ e, negb (well_formed e)) entries).

(** ** [src/scrapers/base_scraper.py]: [download_all] *)

(** What a finished [download_wallpaper] task hands to [asyncio.gather]
    called with [return_exceptions=True]: the value it returned (a path or
    [None]) or the exception it raised. *)
Inductive task_result :=
| Returned (r : option string)
| Raised (e : exn).

(** The keyword arguments [main] passes to a listing call. *)
Record list_args := ListArgs {
  arg_query : string;
  arg_category : string;
  arg_page : Z;
  arg_orientation : string;
  arg_resolution : option string;
}.

(** The two abstract methods of [BaseScraper], as the orchestration code
    sees them. A listing call is told how many listing calls came before it
    and its keyword arguments ([None]: called without arguments, so that the
    scraper's defaults apply); a download task is told the batch and its
    position in the batch. *)
Record scraper := Scraper {
  get_wallpaper_list : nat → option list_args → result (list (gmap string pyval));
  download_wallpaper : nat → nat → gmap string pyval → task_result;
}.

(** [isinstance(r, Path)] *)
Definition is_path (r : task_result) : option string :=
  match r with
  | Returned (Some p) => Some p
  | Returned None | Raised _ => None
  end.

(** [download_all] with its keyword arguments: list, start one task per
    candidate, gather
    all results in submission order, keep the paths. [batch] counts the
    listing calls made before this one. *)
Definition gather_downloads (sc : scraper) (batch : nat)
    (kwargs : option list_args) : result (list task_result) :=
  wallpapers ← get_wallpaper_list sc batch kwargs ;
  mret (imap (download_wallpaper sc batch) wallpapers).

Definition download_all (sc : scraper) (batch : nat) (kwargs : option list_args)
  : result (list string) :=
  results ← gather_downloads sc batch kwargs ;
  mret (omap is_path (results : list task_result)).

(** ** [main.py]: the page loop *)

(** [l[:k]] on a list, for an arbitrary integer [k]. *)
Definition list_slice_to {A} (k : Z) (l : list A) : list A :=
  if bool_decide (0 ≤ k)%Z then take (Z.to_nat k) l
  else take (Z.to_nat (Z.of_nat (length l) + k)) l.

(** The variables of the loop, with two counters added for the proofs:
    the number of listing calls made and the number of download tasks
    started. *)
Record run_state := RunState {
  all_wallpapers : list (gmap string pyval);
  total_downloaded : list string;
  listing_calls : nat;
  downloads_started : nat;
}.

(** The command-line arguments the loop reads. *)
Record cli_args := CliArgs {
  cli_query : option string;
  cli_category : option string;
  cli_limit : option Z;
  cli_pages : Z;
  cli_orientation : string;
  cli_resolution : option string;
}.

(** [args.limit and len(all_wallpapers) > args.limit] *)
Definition over_limit (limit : option Z) (n : nat) : bool :=
  match limit with
  | Some l => negb (l =? 0)%Z && bool_decide (l < Z.of_nat n)%Z
  | None => false
  end.

(** One iteration of [for page in range(1, args.pages + 1)]; the boolean
    tells whether the loop goes on ([false] after [break]). *)
Definition page_step (sc : scraper) (args : cli_args) (page : Z) (st : run_state)
  : result (bool * run_state) :=
  wallpapers ← get_wallpaper_list sc (listing_calls st)
    (Some (ListArgs (default EmptyString (cli_query args))
                    (default EmptyString (cli_category args))
                    page (cli_orientation args) (cli_resolution args))) ;
  let all := (all_wallpapers st ++ wallpapers)%list in
  let calls := S (listing_calls st) in
  if over_limit (cli_limit args) (length all) then
    mret (false,
          RunState (list_slice_to (default 0%Z (cli_limit args)) all)
                   (total_downloaded st) calls (downloads_started st))
  else
    match wallpapers with
    | [] => mret (true, RunState all (total_downloaded st) calls (downloads_started st))
    | _ :: _ =>
        (* downloaded = await scraper.download_all(), without arguments;
           the tasks it gathers are counted *)
        results ← gather_downloads sc calls None ;
        let downloaded := omap is_path (results : list task_result) in
        mret (true,
              RunState all (total_downloaded st ++ downloaded)%list (S calls)
                       (downloads_started st + length results))
    end.

Fixpoint page_loop (sc : scraper) (args : cli_args) (pages : list Z)
    (st : run_state) : result run_state :=
  match pages with
  | [] => mret st
  | page :: rest =>
      '(continue, st') ← page_step sc args page st ;
      if continue : bool then page_loop sc args rest st' else mret st'
  end.

(** The [try] block of [main]: [Ok] with the final variables when it ends
    normally (exit code 0), [Raise] when an exception sends it to the
    handler (exit code 1). *)
Definition main_loop (sc : scraper) (args : cli_args) : result run_state :=
  page_loop sc args (seqZ 1 (cli_pages args)) (RunState [] [] 0 0).

(** ** [src/scrapers/base_scraper.py]: the rate limiter

    Time is the clock of the event loop, in seconds, as an exact rational.
    The arithmetic of this module is exact; [RateLimiter64] below rounds the
    two differences as the source does. *)

Module RateLimiter.

Record limiter := Limiter {
  rate_limit : Q;
  last_request_time : Q;
}.

(** [__init__]: [self.last_request_time = 0] *)
Definition init (rate_limit : Q) : limiter := Limiter rate_limit 0.

Definition Qltb (a b : Q) : bool := negb (Qle_bool b a).

(** The statements before the [await]: read the clock and decide whether
    to sleep, and for how long. *)
Definition sleep_needed (l : limiter) (now : Q) : option Q :=
  let time_since_last := (now - last_request_time l)%Q in
  if Qltb time_since_last (rate_limit l)
  then Some (rate_limit l - time_since_last)%Q
  else None.

(** The last statement: [self.last_request_time = loop.time()]. *)
Definition record (l : limiter) (now : Q) : limiter :=
  Limiter (rate_limit l) now.

(** One call of [_respect_rate_limit] with no other task in between. The
    call starts at clock [now]; [late] is the time that passes on top of the
    requested sleep before the clock is read again ([asyncio.sleep] returns
    no earlier than asked). The result is the limiter after the call and the
    clock at which the call returns. *)
Definition _respect_rate_limit (l : limiter) (now late : Q) : limiter * Q :=
  let resumed :=
    match sleep_needed l now with
    | Some delay => (now + delay + late)%Q
    | None => (now + late)%Q
    end in
  (record l resumed, resumed).

(** *** Several callers on one event loop

    A call is a coroutine with a single suspension point, the [await] of
    the sleep. The loop runs one caller at a time up to its next suspension
    or its end; the clock moves between such runs. *)

Inductive caller :=
| Fresh                   (* not started *)
| Sleeping (wake : Q)     (* suspended in asyncio.sleep until [wake] *)
| Done (dispatch : Q).    (* returned, having recorded [dispatch] *)

Record loop := Loop {
  clock : Q;
  lim : limiter;
  callers : list caller;
}.

Inductive action :=
| Run (i : nat)     (* the loop resumes caller [i] *)
| Tick (d : Q).     (* [d] seconds pass *)

Definition run_caller (i : nat) (s : loop) : loop :=
  match callers s !! i with
  | Some Fresh =>
      match sleep_needed (lim s) (clock s) with
      | Some delay =>
          Loop (clock s) (lim s) (<[i := Sleeping (clock s + delay)%Q]> (callers s))
      | None =>
          Loop (clock s) (record (lim s) (clock s))
               (<[i := Done (clock s)]> (callers s))
      end
  | Some (Sleeping wake) =>
      if Qle_bool wake (clock s)
      then Loop (clock s) (record (lim s) (clock s))
                (<[i := Done (clock s)]> (callers s))
      else s
  | Some (Done _) | None => s
  end.

Definition perform (s : loop) (a : action) : loop :=
  match a with
  | Run i => run_caller i s
  | Tick d => if Qle_bool 0 d then Loop (clock s + d)%Q (lim s) (callers s) else s
  end.

Definition exec (schedule : list action) (s : loop) : loop :=
  fold_left perform schedule s.

(** The dispatch times recorded so far. *)
Definition dispatches (s : loop) : list Q :=
  omap (λ c, match c with Done t => Some t | _ => None end) (callers s).

End RateLimiter.

(** ** Binary64 arithmetic

    The clock of the event loop and [rate_limit] are Python floats. A finite
    float is taken as the rational number it denotes, and an operation
    rounds its exact result to 53 significant bits, ties to the even
    significand. Infinities, NaN and the subnormal range are outside the
    model; sums and differences of floats that fall into the subnormal range
    are exact in both. *)

Module Binary64.

(** The binary exponent of a positive rational [x]: the integer [e] with
    [2^e ≤ x < 2^(e+1)]. The difference of the bit lengths of numerator and
    denominator is that exponent or one more. *)
Definition exponent (x : Q) : Z :=
  let k := (Z.log2 (Qnum x) - Z.log2 (Zpos (Qden x)))%Z in
  if RateLimiter.Qltb x (2 ^ k)%Q then (k - 1)%Z else k.

(** The integer nearest to [y], the even one of two that are equally
    near. *)
Definition round_half_even (y : Q) : Z :=
  let below := Qfloor y in
  let rest := (y - inject_Z below)%Q in
  if RateLimiter.Qltb rest (1 # 2) then below
  else if RateLimiter.Qltb (1 # 2) rest then (below + 1)%Z
  else if Z.even below then below else (below + 1)%Z.

(** A positive rational rounded to a significand of 53 bits. *)
Definition round_pos (x : Q) : Q :=
  let e := (exponent x - 52)%Z in
  Qred (inject_Z (round_half_even (x / 2 ^ e)) * 2 ^ e)%Q.

Definition round (x : Q) : Q :=
  match Qnum x with
  | Z0 => 0%Q
  | Zpos _ => round_pos x
  | Zneg _ => (- round_pos (- x))%Q
  end.

(** [a + b] and [a - b] on floats. *)
Definition add (a b : Q) : Q := round (a + b)%Q.
Definition sub (a b : Q) : Q := round (a - b)%Q.

(** Half a unit in the last place, relative to the number rounded:
    [2^-53]. *)
Definition unit_roundoff : Q := 1 # 9007199254740992.

(** The rational a float of the kernel denotes, for comparing the model
    with the machine's arithmetic; nothing for infinities and NaN. *)
Definition float_value (x : PrimFloat.float) : option Q :=
  match FloatOps.Prim2SF x with
  | SpecFloat.S754_zero _ => Some 0%Q
  | SpecFloat.S754_finite negative m e =>
      let magnitude := (inject_Z (Z.pos m) * 2 ^ e)%Q in
      Some (Qred (if negative then - magnitude else magnitude)%Q)
  | _ => None
  end.

(** The float with significand [m] and exponent [e]. *)
Definition float_of (m : positive) (e : Z) : PrimFloat.float :=
  FloatOps.SF2Prim (SpecFloat.S754_finite false m e).

End Binary64.

(** ** [src/scrapers/base_scraper.py]: the rate limiter in binary64

    The same statements as in [RateLimiter], with the arithmetic of the
    source: both differences are rounded. *)

Module RateLimiter64.
Import RateLimiter.

Definition sleep_needed (l : limiter) (now : Q) : option Q :=
  let time_since_last := Binary64.sub now (last_request_time l) in
  if Qltb time_since_last (rate_limit l)
  then Some (Binary64.sub (rate_limit l) time_since_last)
  else None.

(** One call of [_respect_rate_limit] with no other task in between. The
    call starts at clock [now]; the clock is read again [late] seconds after
    the end of the requested sleep, or after [now] when the call does not
    sleep. A timer of the event loop may run before it is due, so [late] can
    be negative. The result is the limiter after the call and the clock at
    which the call returns. *)
Definition _respect_rate_limit (l : limiter) (now late : Q) : limiter * Q :=
  let resumed :=
    match sleep_needed l now with
    | Some delay => (now + delay + late)%Q
    | None => (now + late)%Q
    end in
  (record l resumed, resumed).

(** The clock reading for which the event loop sets the timer of
    [asyncio.sleep(delay)] called at clock [now]: [loop.call_later] computes
    [loop.time() + delay] in binary64. *)
Definition timer_due (now delay : Q) : Q := Binary64.add now delay.

(** The float that the literal [0.1] denotes, the interval of the
    repository's test. *)
Definition tenth : Q := Binary64.round (1 # 10).

End RateLimiter64.

(** ** [src/scrapers/base_scraper.py]: the permit pool

    [self.semaphore = asyncio.Semaphore(max_concurrent_downloads)], and
    every [download_wallpaper] runs its body under
    [async with self.semaphore]. *)

Module Pool.

(** [Semaphore.acquire]: takes a permit when one is free; with none free the
    caller stays suspended. *)
Definition acquire (value : nat) : option nat :=
  match value with
  | O => None
  | S v => Some v
  end.

(** [Semaphore.release] *)
Definition release (value : nat) : nat := S value.

(** Where a [download_wallpaper] task stands: before [__aenter__] has
    returned, inside the body, or after [__aexit__]. *)
Inductive task :=
| Waiting
| Active
| Finished (r : task_result).

Record pool := Pool {
  value : nat;
  tasks : list task;
}.

Definition init (max_concurrent_downloads : nat) : pool :=
  Pool max_concurrent_downloads [].

Inductive step : pool → pool → Prop :=
| step_call p :
    (* download_wallpaper is called: a new task *)
    step p (Pool (value p) (tasks p ++ [Waiting]))
| step_enter p i v :
    (* __aenter__: the task gets a permit *)
    tasks p !! i = Some Waiting →
    acquire (value p) = Some v →
    step p (Pool v (<[i := Active]> (tasks p)))
| step_exit p i r :
    (* __aexit__: the body ended with [r], the permit goes back *)
    tasks p !! i = Some Active →
    step p (Pool (release (value p)) (<[i := Finished r]> (tasks p))).

Definition is_active (t : task) : bool :=
  match t with Active => true | _ => false end.

(** The number of tasks between acquisition and release. *)
Definition active (p : pool) : nat := length (List.filter is_active (tasks p)).

(** What one task adds to that number. *)
Definition weight (t : task) : nat := if is_active t then 1 else 0.

End Pool.

(** A server that answers every request with 404. *)
Definition not_found_env : env :=
  Env (λ _ _, Ok (Response 404 "Not Found" (Ok 0%Z) [] None)) (λ _, None) (λ _, None).

(** A runtime for running the model on concrete inputs: names are joined
    to directories with a slash, containers print as an ellipsis. *)
Definition posix_runtime : PyRuntime :=
  {| container_str := λ _, "..."; path_join := λ dir name, dir ++ "/" ++ name |}.

(** A server that answers every request with a two-chunk body. *)
Definition serving_env : env :=
  Env (λ _ _, Ok (Response 200 "OK" (Ok 8%Z) ["JFIF"; "data"] None))
      (λ _, None) (λ _, None).

(** One Unsplash candidate with every rendition present. *)
Definition sunset : gmap string pyval :=
  list_to_map
    [("id", PStr "Xq1"); ("title", PStr "sunset: over the bay");
     ("thumbnail", PStr "https://images.example/Xq1?w=200");
     ("small", PStr "https://images.example/Xq1?w=400");
     ("regular", PStr "https://images.example/Xq1.jpg?w=1080");
     ("full", PStr "https://images.example/Xq1.jpg?q=max");
     ("raw", PStr "https://images.example/Xq1.jpg");
     ("download_url", PStr "https://api.example/photos/Xq1/download");
     ("user", PStr "Ann"); ("username", PStr "ann");
     ("width", PInt 1920); ("height", PInt 1080);
     ("category", PStr "nature"); ("orientation", PStr "landscape")].

Definition pictures : string := "/home/u/Pictures".
Definition sunset_dir : string := "/home/u/Pictures/nature".
Definition sunset_path : string :=
  "/home/u/Pictures/nature/sunset_ over the bay_by_ann_1920x1080.jpg".

(** A world where the file of [sunset] is already on disk. *)
Definition sunset_on_disk : world :=
  World {[sunset_path := "JFIFdata"]} {[sunset_dir]} [] [].

Definition empty_world : world := World ∅ ∅ [] [].

(** An Unsplash candidate whose [regular] rendition is missing while the
    smaller renditions are there. *)
Definition no_regular : gmap string pyval :=
  list_to_map
    [("id", PStr "Zr7"); ("title", PStr "dunes");
     ("thumbnail", PStr "https://images.example/Zr7?w=200");
     ("small", PStr "https://images.example/Zr7?w=400");
     ("regular", PNone); ("full", PNone); ("raw", PNone);
     ("username", PStr "bo"); ("category", PStr "desert")].

(** The candidate of the specification's scenario: ranked URLs
    [None, good_url]. *)
Definition none_then_good : gmap string pyval :=
  list_to_map
    [("id", PInt 42); ("title", PStr "lake");
     ("original", PNone); ("full", PStr "https://cdn.example/42_1920.jpg")].

(** A page of six figures: five thumbnails and one figure without
    identifier. *)
Definition thumb (wallpaper_id : string) : figure :=
  Figure (Some wallpaper_id) (Some " 1920 x 1080 ")
         (Some (Some ("https://th.wallhaven.cc/small/" ++ wallpaper_id ++ ".jpg"))).

Definition six_figures : list figure :=
  [thumb "w8x7y1"; thumb "w8x7y2"; Figure None (Some "1920 x 1080") None;
   thumb "w8x7y3"; thumb "w8x7y4"; thumb "w8x7y5"].

(** The same page with a seventh figure, whose resolution gives a width of
    4301 digits. *)
Definition seven_figures : list figure :=
  (six_figures
     ++ [Figure (Some "w8x7y6")
                (Some (PyStr.times "9" 4301 ++ " x 1080")%string) None])%list.

(** A response of six entries: five photos and one entry whose [urls] field
    is [null]. *)
Definition photo (id : string) : pyval :=
  PDict (list_to_map
    [("id", PStr id); ("description", PNone); ("alt_description", PStr "a photo");
     ("urls", PDict (list_to_map
        [("regular", PStr ("https://images.example/" ++ id ++ ".jpg"))]));
     ("width", PInt 4000); ("height", PInt 3000)]).

Definition six_entries : list pyval :=
  [photo "p1"; photo "p2"; PDict (list_to_map [("id", PStr "p3"); ("urls", PNone)]);
   photo "p4"; photo "p5"; photo "p6"].

(** A source that knows three candidates for the query of the user and
    six for a listing without arguments; every download succeeds. *)
Definition candidate (id : string) : gmap string pyval :=
  list_to_map [("id", PStr id); ("title", PStr ("wallhaven_" ++ id));
               ("url", PStr ("https://wallhaven.cc/w/" ++ id))].

Definition rare_query_source : scraper :=
  Scraper
    (λ _ kwargs,
       match kwargs with
       | Some _ => Ok (candidate <$> ["q1"; "q2"; "q3"])
       | None => Ok (candidate <$> ["n1"; "n2"; "n3"; "n4"; "n5"; "n6"])
       end)
    (λ _ _ wallpaper,
       Returned (Some ("/walls/" ++ default "" (as_str_opt (dict_get wallpaper "id" PNone))))).

Definition rare_query_args : cli_args :=
  CliArgs (Some "rare") None (Some 5%Z) 1 "landscape" None.

(** A source whose second and fourth downloads fail, one by returning
    [None] and one by raising. *)
Definition flaky_source : scraper :=
  Scraper
    (λ _ _, Ok (candidate <$> ["a"; "b"; "c"; "d"; "e"]))
    (λ _ i wallpaper,
       match i with
       | 1%nat => Returned None
       | 3%nat => Raised (ClientError "Connection reset by peer")
       | _ => Returned (Some ("/walls/" ++ pretty i ++ ".jpg"))
       end).

(** A pool of two permits after three calls: the first and the third task
    are in the body, the second has left it with an exception. *)
Definition busy_pool : Pool.pool :=
  Pool.Pool 0
    [Pool.Active;
     Pool.Finished (Raised (ClientError "Connection reset by peer"));
     Pool.Active].

(** * Further definitions *)

(** The first and the last character of a string. *)
Definition str_first (s : string) : option ascii :=
  match s with
  | EmptyString => None
  | String a _ => Some a
  end.

Fixpoint str_last (s : string) : option ascii :=
  match s with
  | EmptyString => None
  | String a EmptyString => Some a
  | String _ s' => str_last s'
  end.

(** A name that [sanitize_filename] has nothing to do on: between 1 and 255
    characters, none of them invalid, no whitespace and no dot at either
    end. *)
Definition tidy_name (s : string) : bool :=
  PyStr.all_chars (λ a, negb (is_invalid a)) s
  && bool_decide (PyStr.len s ≤ 255)%nat
  && match str_first s, str_last s with
     | Some a, Some b =>
         negb (PyStr.isspace a) && negb (PyStr.isdot a)
         && negb (PyStr.isspace b) && negb (PyStr.isdot b)
     | _, _ => false
     end.

(** The characters that cannot occur after the dot of an extension. *)
Definition ext_stop (a : ascii) : bool :=
  bool_decide (a = "."%char) || bool_decide (a = "/"%char)
  || bool_decide (a = "?"%char).

(** The name after the replacement loop and the two [strip] calls of
    [sanitize_filename], before its length is looked at. *)
Definition cleaned_name (filename : string) : string :=
  PyStr.strip PyStr.isdot (PyStr.strip PyStr.isspace
    (fold_left (λ f c, PyStr.replace c "_"%char f) invalid_chars filename)).

(** The text a file holds after the given chunks were written to it. *)
Definition body_text (chunks : list string) : string :=
  fold_left (λ acc chunk, acc ++ chunk) chunks EmptyString.

(** A response without fault on the client side: the length header can be
    read and the stream ends normally. *)
Definition sound_response (r : response) : Prop :=
  (∃ n, content_length r = Ok n) ∧ stream_error r = None.

(** What a call on [url] and [destination] may change between two worlds:
    at most one request, to [url]; no file other than [destination]; no
    directory removed. Log records are only appended. *)
Definition touches_only (url destination : string) (w w' : world) : Prop :=
  (requests w' = requests w ∨ requests w' = (requests w ++ [url])%list)
  ∧ (∀ q, q ≠ destination → files w' !! q = files w !! q)
  ∧ dirs w ⊆ dirs w'
  ∧ ∃ new : list (level * string), log w' = (log w ++ new)%list.

(** A server whose answers break off after the first chunk. *)
Definition cut_off_env : env :=
  Env (λ _ _, Ok (Response 200 "OK" (Ok 4096%Z) ["JFIF"]
                    (Some (ClientError "Response payload is not completed"))))
      (λ _, None) (λ _, None).

(** A server that answers every request with 206. *)
Definition partial_content_env : env :=
  Env (λ _ _, Ok (Response 206 "Partial Content" (Ok 4%Z) ["JFIF"] None))
      (λ _, None) (λ _, None).

(** One world extends another: every file is still there with the same
    text, every directory is still there, and requests and log records were
    only appended. *)
Definition extends_world (w w' : world) : Prop :=
  (∀ q c, files w !! q = Some c → files w' !! q = Some c)
  ∧ dirs w ⊆ dirs w'
  ∧ requests w `prefix_of` requests w'
  ∧ log w `prefix_of` log w'.

(** ** The download loop of the example scripts

    [for wallpaper in wallpapers: path = await
    scraper.download_wallpaper(wallpaper); if path:
    downloaded.append(path)]. Nothing catches an exception of a step, so it
    ends the loop. *)
Fixpoint download_each (step : gmap string pyval → io (option string))
    (wallpapers : list (gmap string pyval)) (downloaded : list string)
  : io (list string) :=
  match wallpapers with
  | [] => mret downloaded
  | wallpaper :: rest =>
      path ← step wallpaper ;
      download_each step rest
        (match path with
         | Some p => (downloaded ++ [p])%list
         | None => downloaded
         end)
  end.

(** A candidate of the Unsplash scraper whose file is on disk in world [w]
    at path [p]. *)
Definition on_disk `{PyRuntime} (E : env) (download_directory : string)
    (w : world) (wallpaper_data : gmap string pyval) (p : string) : Prop :=
  truthy (unsplash_resolve wallpaper_data) = true
  ∧ ∃ d, unsplash_output_path download_directory wallpaper_data = Ok (d, p)
         ∧ makedirs_error E d = None
         ∧ path_exists p w = true.

(** The world after a first pass over [sunset] on an empty disk. *)
Definition after_first_pass : world :=
  (download_each
     (@unsplash_download_wallpaper posix_runtime serving_env pictures (Some "key"))
     [sunset] [] empty_world).2.

(** The destination path as the Pixabay download step computes it. *)
Definition pixabay_output_path `{PyRuntime} (download_directory : string)
    (wallpaper_data : gmap string pyval) : result (string * string) :=
  let title := dict_get wallpaper_data "title" (PStr "pixabay") in
  let image_id := dict_get wallpaper_data "id" (PStr "") in
  let filename := sanitize_filename (py_str title ++ "_" ++ py_str image_id) in
  ext ← file_ext (pixabay_resolve wallpaper_data) ;
  output_dir ← category_path download_directory
                 (dict_get wallpaper_data "category" (PStr "pixabay")) ;
  mret (output_dir,
        path_join output_dir (add_resolution wallpaper_data filename ++ ext)).

(** One Pixabay candidate, without original rendition. *)
Definition lake : gmap string pyval :=
  list_to_map
    [("id", PInt 42); ("title", PStr "lake mountain");
     ("original", PNone); ("full", PStr "https://cdn.example/42_1920.jpg");
     ("small", PStr "https://cdn.example/42_1280.jpg");
     ("width", PInt 6000); ("height", PInt 4000);
     ("category", PStr "nature")].

Definition lake_path : string :=
  "/home/u/Pictures/nature/lake mountain_42_6000x4000.jpg".

Definition lake_on_disk : world :=
  World {[lake_path := "JFIFdata"]} {[sunset_dir]} [] [].

(** The keyword arguments of the listing call that [main] makes for a
    page. *)
Definition page_args (args : cli_args) (page : Z) : list_args :=
  ListArgs (default EmptyString (cli_query args))
           (default EmptyString (cli_category args))
           page (cli_orientation args) (cli_resolution args).

(** A source with thirty candidates for every listing call. *)
Definition plentiful_source : scraper :=
  Scraper
    (λ _ _, Ok ((λ i : nat, candidate (pretty i)) <$> seq 0 30))
    (λ _ i _, Returned (Some ("/walls/" ++ pretty i ++ ".jpg"))).

(** ** A series of calls on one limiter, in binary64

    The calls run one after the other. Each is given the time that passes
    between the return of the call before it and its own start, and its own
    lateness; the result lists the dispatch times the calls record, oldest
    first. *)
Fixpoint run_calls (l : RateLimiter.limiter) (now : Q) (calls : list (Q * Q))
  : list Q :=
  match calls with
  | [] => []
  | (gap, late) :: rest =>
      let after := RateLimiter64._respect_rate_limit l (now + gap)%Q late in
      after.2 :: run_calls after.1 after.2 rest
  end.

(** Every time of the list is at least [r] after the one before it, the
    first one at least [r] after [t0]. *)
Fixpoint spaced_from (r t0 : Q) (times : list Q) : Prop :=
  match times with
  | [] => True
  | t :: rest => (r <= t - t0)%Q ∧ spaced_from r t rest
  end.

(** ** More listing loops *)

(** [s.split(c)] for a one-character separator. *)
Fixpoint str_split (c : ascii) (s : string) : list string :=
  match s with
  | EmptyString => [EmptyString]
  | String a s' =>
      if bool_decide (a = c) then EmptyString :: str_split c s'
      else match str_split c s' with
           | head :: tail => String a head :: tail
           | [] => [String a EmptyString]
           end
  end.

(** *** Pixabay (API): the dictionary built for one hit *)
Definition pixabay_extract `{PyRuntime} (category orientation : string)
    (item : pyval) : result (option (gmap string pyval)) :=
  id ← py_get item "id" PNone ;
  tags ← py_get item "tags" (PStr "") ;
  tags_text ← as_str tags "replace" ;
  let title :=
    py_or (PStr (PyStr.strip PyStr.isspace (PyStr.replace "," " " tags_text)))
          (PStr ("pixabay_" ++ py_str id)) in
  thumbnail ← py_get item "previewURL" PNone ;
  preview ← py_get item "webformatURL" PNone ;
  small ← py_get item "largeImageURL" PNone ;
  full_hd ← py_get item "fullHDURL" PNone ;
  original ← py_get item "imageURL" PNone ;
  user ← py_get item "user" PNone ;
  user_id ← py_get item "user_id" PNone ;
  width ← py_get item "imageWidth" PNone ;
  height ← py_get item "imageHeight" PNone ;
  downloads ← py_get item "downloads" PNone ;
  likes ← py_get item "likes" PNone ;
  views ← py_get item "views" PNone ;
  mret (Some (list_to_map
    [("id", id); ("title", title); ("thumbnail", thumbnail);
     ("preview", preview); ("small", small); ("full", py_or full_hd small);
     ("original", original); ("user", user); ("user_id", user_id);
     ("width", width); ("height", height); ("downloads", downloads);
     ("likes", likes); ("views", views);
     ("category", py_or (PStr category) (PStr "pixabay"));
     ("tags", PList (PStr <$> str_split "," tags_text));
     ("orientation", PStr orientation)])).

(** A hit the Pixabay loop can extract: a dictionary whose [tags], when
    present, is a string. *)
Definition pixabay_well_formed (item : pyval) : bool :=
  match item with
  | PDict d =>
      match dict_get d "tags" (PStr "") with PStr _ => true | _ => false end
  | _ => false
  end.

(** The renditions of a Pixabay hit, best first, under the names of the
    API. *)
Definition pixabay_api_ranked (item : gmap string pyval) : list pyval :=
  [dict_get item "imageURL" PNone;
   dict_get item "fullHDURL" PNone;
   dict_get item "largeImageURL" PNone].

(** *** Wallhaven (API): the dictionary built for one entry of [data] *)
Definition wallhaven_api_extract `{PyRuntime} (query : string) (item : pyval)
  : result (option (gmap string pyval)) :=
  id ← py_get item "id" PNone ;
  thumbs ← py_get item "thumbs" (PDict ∅) ;
  thumbnail ← py_get thumbs "small" PNone ;
  url ← py_get item "url" PNone ;
  path ← py_get item "path" PNone ;
  dimension_x ← py_get item "dimension_x" PNone ;
  dimension_y ← py_get item "dimension_y" PNone ;
  file_size ← py_get item "file_size" PNone ;
  colors ← py_get item "colors" (PList []) ;
  tags ← py_get item "tags" (PList []) ;
  tag_list ← py_iter tags ;
  names ← mapM (λ tag, py_get tag "name" PNone) tag_list ;
  mret (Some (list_to_map
    [("id", id); ("title", PStr ("wallhaven_" ++ py_str id));
     ("thumbnail", thumbnail); ("url", url); ("download_url", path);
     ("category", py_or (PStr query) (PStr "wallhaven"));
     ("width", dimension_x); ("height", dimension_y);
     ("resolution", PStr (py_str dimension_x ++ "x" ++ py_str dimension_y));
     ("file_size", file_size); ("colors", colors);
     ("tags", PList names)])).

(** An entry the loop over the API answer can extract: a dictionary whose
    [thumbs], when present, is a dictionary and whose [tags], when present,
    can be iterated and yields dictionaries only. *)
Definition wallhaven_api_well_formed (item : pyval) : bool :=
  match item with
  | PDict d =>
      is_dict (dict_get d "thumbs" (PDict ∅))
      && match py_iter (dict_get d "tags" (PList [])) with
         | Ok tag_list => forallb is_dict tag_list
         | Raise _ => false
         end
  | _ => false
  end.

(** A Pixabay hit without original rendition. *)
Definition pixabay_hit : gmap string pyval :=
  list_to_map
    [("id", PInt 42); ("tags", PStr "lake, mountain");
     ("fullHDURL", PStr "https://cdn.example/42_1920.jpg");
     ("largeImageURL", PStr "https://cdn.example/42_1280.jpg");
     ("imageWidth", PInt 6000); ("imageHeight", PInt 4000)].

(** ** [src/scrapers/unsplash_scraper.py]: [get_wallpaper_list] *)

(** What the listing reads from a response through [aiohttp] and [json]:
    the decoded body, the body as text, and the text of a decoded value. *)
Class HttpRuntime := {
  (** [await response.json()] *)
  response_json : response → result pyval;
  (** [await response.text()] *)
  response_text : response → result string;
  (** [json.dumps(v)] *)
  json_dumps : pyval → string;
}.

Definition unsplash_base_url : string := "https://api.unsplash.com".

(** [endpoint = "/photos/random" if not query else "/search/photos"] *)
Definition unsplash_endpoint (query : string) : string :=
  if bool_decide (query = EmptyString) then "/photos/random" else "/search/photos".

(** [f"{self.base_url}{endpoint}"] *)
Definition unsplash_listing_url (query : string) : string :=
  unsplash_base_url ++ unsplash_endpoint query.

(** The whole method. The call of [_respect_rate_limit] touches neither
    files nor network and is left out; [page] and [per_page] only go into the
    parameters of the request. *)
Definition unsplash_get_wallpaper_list `{PyRuntime} `{HttpRuntime} (E : env)
    (api_key : option string) (query orientation : string)
  : io (list (gmap string pyval)) :=
  if negb (api_key_set api_key) then
    logger ERROR "Cannot fetch wallpapers: No API key provided" ;; mret []
  else
    response ← session_get E (unsplash_listing_url query) ;
    if negb (status response =? 200)%Z then
      logger ERROR ("Failed to fetch wallpapers: HTTP " ++ pretty (status response)) ;;
      match response_json response with
      | Ok error_data =>
          logger ERROR ("Error details: " ++ json_dumps error_data)
      | Raise _ =>
          text ← lift (response_text response) ;
          logger ERROR ("Error details: " ++ text)
      end ;;
      mret []
    else
      data ← lift (response_json response) ;
      unsplash_parse_response query orientation data.

(** A decoder for concrete runs: every body decodes to the six entries of
    [six_entries] under [results]. *)
Definition fixed_http : HttpRuntime :=
  {| response_json := λ _, Ok (PDict {["results" := PList six_entries]});
     response_text := λ r, Ok (body_text (chunks r));
     json_dumps := λ _, "{...}" |}.

(** ** [src/scrapers/wallhaven_scraper.py]: [download_wallpaper] *)

(** What the scraper reads from a page through BeautifulSoup. *)
Class HtmlRuntime := {
  (** The [src] attribute of the element matched by [img#wallpaper] on a
      detail page, if there is such an element and it has the attribute. *)
  wallpaper_img_src : string → option string;
  (** [soup.select('figure')] on the search page, each element with what
      the listing loop reads from it. *)
  select_figures : string → list figure;
}.

(** [session.get(url, ...)] with a URL taken from the metadata: anything
    but a string is refused by the HTTP client. *)
Definition session_get_value (E : env) (url : pyval) : io response :=
  match url with
  | PStr u => session_get E u
  | _ => raise (OtherError "TypeError" "Constructor parameter should be str")
  end.

(** The first part of the step: the direct URL of the metadata, or else the
    one found on the detail page. [None] stands for the early
    [return None]. *)
Definition wallhaven_find_url `{HttpRuntime} `{HtmlRuntime} (E : env)
    (wallpaper_data : gmap string pyval) : io (option pyval) :=
  let download_url := dict_get wallpaper_data "download_url" PNone in
  if truthy download_url then mret (Some download_url)
  else
    let detail_url := dict_get wallpaper_data "url" PNone in
    if negb (truthy detail_url) then
      logger ERROR "No URL available for download" ;; mret None
    else
      response ← session_get_value E detail_url ;
      if negb (status response =? 200)%Z then
        logger ERROR ("Failed to fetch wallpaper detail page: HTTP "
                        ++ pretty (status response)) ;;
        mret None
      else
        html ← lift (response_text response) ;
        match wallpaper_img_src html with
        | Some src =>
            if bool_decide (src = EmptyString) then
              logger ERROR "Could not find download URL on detail page" ;;
              mret None
            else mret (Some (PStr src))
        | None =>
            logger ERROR "Could not find download URL on detail page" ;;
            mret None
        end.

(** The destination the step computes for a candidate once the URL of the
    picture is known: the directory and the path. *)
Definition wallhaven_output_path `{PyRuntime} (download_directory : string)
    (wallpaper_data : gmap string pyval) (download_url : pyval)
  : result (string * string) :=
  name ← as_str (dict_get wallpaper_data "title" (PStr "wallpaper")) "replace" ;
  ext ← file_ext download_url ;
  output_dir ← category_path download_directory
                 (dict_get wallpaper_data "category" (PStr "wallhaven")) ;
  let resolution := dict_get wallpaper_data "resolution" (PStr "") in
  let filename :=
    if truthy resolution then sanitize_filename name ++ "_" ++ py_str resolution
    else sanitize_filename name in
  mret (output_dir, path_join output_dir (filename ++ ext)).

(** The second part of the step, from the title on. *)
Definition wallhaven_save `{PyRuntime} (E : env) (download_directory : string)
    (wallpaper_data : gmap string pyval) (download_url : pyval)
  : io (option string) :=
  let title := dict_get wallpaper_data "title" (PStr "wallpaper") in
  name ← lift (as_str title "replace") ;
  let filename := sanitize_filename name in
  ext ← lift (file_ext download_url) ;
  let category_dir := dict_get wallpaper_data "category" (PStr "wallhaven") in
  output_dir ← lift (category_path download_directory category_dir) ;
  makedirs E output_dir ;;
  let resolution := dict_get wallpaper_data "resolution" (PStr "") in
  let filename :=
    if truthy resolution then filename ++ "_" ++ py_str resolution
    else filename in
  let output_path := path_join output_dir (filename ++ ext) in
  w ← get_world ;
  if path_exists output_path w then
    logger INFO ("Wallpaper already exists: " ++ output_path) ;;
    mret (Some output_path)
  else
    url ← lift (as_str download_url "split") ;
    fetch_to E url output_path.

Definition wallhaven_download_wallpaper `{PyRuntime} `{HttpRuntime}
    `{HtmlRuntime} (E : env) (download_directory : string)
    (wallpaper_data : gmap string pyval) : io (option string) :=
  found ← wallhaven_find_url E wallpaper_data ;
  match found with
  | None => mret None
  | Some download_url =>
      wallhaven_save E download_directory wallpaper_data download_url
  end.

(** ** [src/scrapers/wallhaven_scraper.py]: [get_wallpaper_list]

    The whole method, after the call of [_respect_rate_limit]. The filters
    only go into the parameters of the request. *)

(** The address the listing asks: the API with a key, the search page
    without. *)
Definition wallhaven_listing_url (api_key : option string) : string :=
  wallhaven_base_url ++ (if api_key_set api_key then "/api/v1/search" else "/search").

Definition wallhaven_get_wallpaper_list `{PyRuntime} `{HttpRuntime}
    `{HtmlRuntime} (E : env) (api_key : option string) (query : string)
  : io (list (gmap string pyval)) :=
  if api_key_set api_key then
    response ← session_get E (wallhaven_base_url ++ "/api/v1/search") ;
    if negb (status response =? 200)%Z then
      logger ERROR ("Failed to fetch wallpaper list: HTTP "
                      ++ pretty (status response)) ;;
      mret []
    else
      data ← lift (response_json response) ;
      entries ← lift (py_get data "data" (PList [])) ;
      items ← lift (py_iter entries) ;
      parse_entries (wallhaven_api_extract query) items []
  else
    response ← session_get E (wallhaven_base_url ++ "/search") ;
    if negb (status response =? 200)%Z then
      logger ERROR ("Failed to fetch wallpaper list: HTTP "
                      ++ pretty (status response)) ;;
      mret []
    else
      html ← lift (response_text response) ;
      wallhaven_parse_figures query (select_figures html).

(** A page reader for concrete runs: every detail page shows the same
    image, every search page the figures of [six_figures]. *)
Definition fixed_html : HtmlRuntime :=
  {| wallpaper_img_src := λ _, Some "https://w.wallhaven.cc/full/w8/wallhaven-w8x7y1.jpg";
     select_figures := λ _, six_figures |}.

(** The run of the Unsplash listing for the query [forest] against
    [serving_env], its candidates and the world it leaves. *)
Definition forest_listing : result (list (gmap string pyval)) * world :=
  @unsplash_get_wallpaper_list posix_runtime fixed_http serving_env (Some "key")
    "forest" "landscape" empty_world.

Definition forest_candidates : list (gmap string pyval) :=
  match forest_listing.1 with
  | Ok wallpapers => wallpapers
  | Raise _ => []
  end.

(** A candidate of the Wallhaven API listing: it carries the address of the
    picture itself. *)
Definition meadow : gmap string pyval :=
  list_to_map
    [("id", PStr "w8x7y1"); ("title", PStr "wallhaven_w8x7y1");
     ("url", PStr "https://wallhaven.cc/w/w8x7y1");
     ("download_url", PStr "https://w.wallhaven.cc/full/w8/wallhaven-w8x7y1.jpg");
     ("category", PStr "nature"); ("width", PInt 1920); ("height", PInt 1080);
     ("resolution", PStr "1920x1080")].

Definition meadow_path : string :=
  "/home/u/Pictures/nature/wallhaven_w8x7y1_1920x1080.jpg".

Definition meadow_on_disk : world :=
  World {[meadow_path := "JFIFdata"]} {[sunset_dir]} [] [].

(** The candidate the HTML loop makes of the first thumbnail of
    [six_figures] for the query [nature], and a world that has its picture
    on disk. *)
Definition meadow_from_page : gmap string pyval :=
  match wallhaven_extract "nature" (thumb "w8x7y1") with
  | Ok (Some candidate) => candidate
  | _ => ∅
  end.

Definition meadow_page_path : string :=
  "/home/u/Pictures/nature/wallhaven_w8x7y1_1920 x 1080.jpg".

Definition meadow_page_on_disk : world :=
  World {[meadow_page_path := "JFIFdata"]} {[sunset_dir]} [] [].

(** The runs of the Wallhaven download step for the two candidates on an
    empty disk. *)
Definition meadow_fetched : result (option string) * world :=
  @wallhaven_download_wallpaper posix_runtime fixed_http fixed_html serving_env
    pictures meadow empty_world.

Definition meadow_page_fetched : result (option string) * world :=
  @wallhaven_download_wallpaper posix_runtime fixed_http fixed_html serving_env
    pictures meadow_from_page empty_world.

(** A second Unsplash candidate: another picture by the same author, with
    the same title and size as [sunset]. *)
Definition sunset_again : gmap string pyval :=
  list_to_map
    [("id", PStr "Yk2"); ("title", PStr "sunset: over the bay");
     ("regular", PStr "https://images.example/Yk2.jpg?w=1080");
     ("download_url", PStr "https://api.example/photos/Yk2/download");
     ("user", PStr "Ann"); ("username", PStr "ann");
     ("width", PInt 1920); ("height", PInt 1080);
     ("category", PStr "nature"); ("orientation", PStr "landscape")].

(** The run of the Unsplash download step for [sunset] on an empty disk. *)
Definition sunset_fetched : result (option string) * world :=
  @unsplash_download_wallpaper posix_runtime serving_env pictures (Some "key")
    sunset empty_world.

(** The download loop of [download_from_wallhaven] in
    [examples/multi_source_downloader.py] over [meadow] and the candidates of
    the page, cut to one candidate. *)
Definition one_of_two : result (list string) * world :=
  download_each
    (@wallhaven_download_wallpaper posix_runtime fixed_http fixed_html
       serving_env pictures)
    (list_slice_to 1 [meadow; meadow_from_page]) [] empty_world.

(** * Properties *)

(** ** Strings *)

Module PyStrFacts.
Import PyStr.

Lemma app_cons a s t : String a s ++ t = String a (s ++ t).
Proof. reflexivity. Qed.

Lemma app_nil s : "" ++ s = s.
Proof. reflexivity. Qed.

Lemma len_app s t : len (s ++ t) = (len s + len t)%nat.
Proof.
  unfold len. induction s as [|a s IH]; [done |].
  rewrite app_cons. simpl. by rewrite IH.
Qed.

Lemma len_take n s : len (take n s) = (n `min` len s)%nat.
Proof.
  unfold len. revert s.
  induction n as [|n IH]; intros [|a s]; simpl; try done. by rewrite IH.
Qed.

Lemma take_drop n s : take n s ++ drop n s = s.
Proof.
  revert s. induction n as [|n IH]; intros [|a s]; simpl; try done.
  by rewrite app_cons, IH.
Qed.

Lemma len_times c n : len (times c n) = n.
Proof. unfold len. induction n as [|n IH]; simpl; [done | by rewrite IH]. Qed.

Lemma all_chars_app P s t :
  all_chars P (s ++ t) = all_chars P s && all_chars P t.
Proof.
  induction s as [|a s IH]; [done |].
  rewrite app_cons. simpl. by rewrite IH, andb_assoc.
Qed.

Lemma all_chars_take P n s : all_chars P s = true → all_chars P (take n s) = true.
Proof.
  revert s. induction n as [|n IH]; intros [|a s]; simpl; try done.
  intros [Ha Hs]%andb_prop. by rewrite Ha, IH.
Qed.

Lemma all_chars_drop P n s : all_chars P s = true → all_chars P (drop n s) = true.
Proof.
  revert s. induction n as [|n IH]; intros [|a s]; simpl; try done.
  intros [_ Hs]%andb_prop. by apply IH.
Qed.

Lemma all_chars_lstrip P Q s :
  all_chars P s = true → all_chars P (lstrip Q s) = true.
Proof.
  induction s as [|a s IH]; simpl; [done |].
  intros H. destruct (Q a); [|done].
  apply andb_prop in H as [_ Hs]. by apply IH.
Qed.

Lemma all_chars_rstrip P Q s :
  all_chars P s = true → all_chars P (rstrip Q s) = true.
Proof.
  induction s as [|a s IH]; simpl; [done |].
  intros [Ha Hs]%andb_prop. specialize (IH Hs).
  destruct (rstrip Q s) as [|b r].
  - destruct (Q a); simpl; [done | by rewrite Ha].
  - change (all_chars P (String a (String b r))) with
      (P a && all_chars P (String b r)). by rewrite Ha, IH.
Qed.

Lemma all_chars_strip P Q s :
  all_chars P s = true → all_chars P (strip Q s) = true.
Proof. intros H. unfold strip. by apply all_chars_rstrip, all_chars_lstrip. Qed.

Lemma all_chars_slice_to P k s :
  all_chars P s = true → all_chars P (slice_to k s) = true.
Proof. intros H. unfold slice_to. case_bool_decide; by apply all_chars_take. Qed.

Lemma app_empty_r s : s ++ "" = s.
Proof. induction s as [|a s IH]; [done | by rewrite app_cons, IH]. Qed.

Lemma splitext_app p : (splitext p).1 ++ (splitext p).2 = p.
Proof.
  unfold splitext. destruct (rfind "." p) as [dot|]; simpl.
  - match goal with |- context [if ?b then _ else _] => destruct b end; simpl.
    + apply take_drop.
    + apply app_empty_r.
  - apply app_empty_r.
Qed.

Lemma all_chars_splitext P p :
  all_chars P p = true →
  all_chars P (splitext p).1 = true ∧ all_chars P (splitext p).2 = true.
Proof.
  intros H. rewrite <- (splitext_app p), all_chars_app in H.
  by apply andb_prop in H.
Qed.

Lemma all_chars_replace P c d s :
  P d = true → all_chars P s = true → all_chars P (replace c d s) = true.
Proof.
  intros Hd. induction s as [|a s IH]; simpl; [done |].
  intros [Ha Hs]%andb_prop. rewrite (IH Hs).
  case_bool_decide; by rewrite ?Hd, ?Ha.
Qed.

Lemma replace_removes c d s :
  d ≠ c → all_chars (λ a, bool_decide (a ≠ c)) (replace c d s) = true.
Proof.
  intros Hd. induction s as [|a s IH]; simpl; [done |].
  rewrite IH, andb_true_r. apply bool_decide_eq_true.
  by case_bool_decide.
Qed.

Lemma all_chars_impl (P Q : ascii → bool) s :
  (∀ a, P a = true → Q a = true) →
  all_chars P s = true → all_chars Q s = true.
Proof.
  intros HPQ. induction s as [|a s IH]; simpl; [done |].
  intros [Ha Hs]%andb_prop. by rewrite (HPQ _ Ha), IH.
Qed.

Lemma all_chars_and (P Q : ascii → bool) s :
  all_chars P s = true → all_chars Q s = true →
  all_chars (λ a, P a && Q a) s = true.
Proof.
  induction s as [|a s IH]; simpl; [done |].
  intros [Ha Hs]%andb_prop [Ha' Hs']%andb_prop. by rewrite Ha, Ha', IH.
Qed.

End PyStrFacts.

(** ** [sanitize_filename] *)

Section sanitize_filename_facts.
Import PyStr PyStrFacts.

(** The replacement loop leaves no character of the list it runs over,
    as long as the replacement character is not itself in the list. *)
Lemma replace_loop_clean (cs : list ascii) (d : ascii) (s : string) :
  d ∉ cs →
  all_chars (λ a, negb (bool_decide (a ∈ cs)))
    (fold_left (λ f c, replace c d f) cs s) = true.
Proof.
  intros Hd.
  assert (Hpres : ∀ (P : ascii → bool) cs' s', P d = true →
    all_chars P s' = true →
    all_chars P (fold_left (λ f c, replace c d f) cs' s') = true).
  { intros P cs'. induction cs' as [|c cs' IH]; intros s' HPd Hs'; simpl; [done |].
    apply IH; [done |]. by apply all_chars_replace. }
  revert s. induction cs as [|c cs IH]; intros s; cbn [fold_left].
  - induction s as [|a s IHs]; [done |].
    cbn [all_chars]. rewrite IHs, andb_true_r.
    apply negb_true_iff, bool_decide_eq_false, not_elem_of_nil.
  - apply not_elem_of_cons in Hd as [Hdc Hd].
    eapply all_chars_impl;
      [| apply (all_chars_and _ (λ a, bool_decide (a ≠ c)) _
                  (IH Hd (replace c d s)))].
    + intros a [Ha1 Ha2]%andb_prop.
      apply negb_true_iff, bool_decide_eq_false.
      apply negb_true_iff, bool_decide_eq_false in Ha1.
      apply bool_decide_eq_true in Ha2.
      intros [->|?]%elem_of_cons; [exact (Ha2 eq_refl) | done].
    + apply Hpres; [by apply bool_decide_eq_true | by apply replace_removes].
Qed.

(** [sanitize_filename] never returns the empty string. *)
Lemma sanitize_filename_nonempty (filename : string) :
  sanitize_filename filename ≠ "".
Proof.
  unfold sanitize_filename. cbv zeta.
  case_bool_decide as H; [done | exact H].
Qed.

(** X1. Whatever the input, the result of [sanitize_filename] holds none of
    the nine invalid characters. *)
Lemma sanitize_filename_valid_chars (filename : string) :
  all_chars (λ a, negb (is_invalid a)) (sanitize_filename filename) = true.
Proof.
  unfold sanitize_filename. cbv zeta.
  case_bool_decide as Hempty; [by vm_compute |].
  pose proof (replace_loop_clean invalid_chars "_"%char filename) as Hclean.
  assert (Hd : "_"%char ∉ invalid_chars)
    by (apply (proj1 (bool_decide_eq_false _)); by vm_compute).
  specialize (Hclean Hd). fold is_invalid in Hclean.
  set (P := λ a, negb (is_invalid a)) in *.
  apply (all_chars_strip P isspace), (all_chars_strip P isdot) in Hclean.
  case_bool_decide; [|done].
  destruct (all_chars_splitext P _ Hclean) as [Hb He].
  destruct (splitext _) as [base ext]; simpl in *.
  rewrite all_chars_app, He, andb_true_r. by apply all_chars_slice_to.
Qed.

(** The length bound holds whenever the extension found by [splitext]
    is itself at most 255 characters long, in particular for every input
    of at most 255 characters. *)
Lemma sanitize_filename_bounded (filename : string) :
  let cleaned := strip isdot (strip isspace
      (fold_left (λ f c, replace c "_"%char f) invalid_chars filename)) in
  (len (splitext cleaned).2 ≤ 255)%nat →
  (len (sanitize_filename filename) ≤ 255)%nat.
Proof.
  intros cleaned Hext. unfold sanitize_filename. cbv zeta. fold cleaned.
  case_bool_decide as Hempty; [by vm_compute; lia |].
  case_bool_decide as Hlong; [|lia].
  destruct (splitext cleaned) as [base ext]; simpl in *.
  rewrite len_app. unfold slice_to.
  rewrite bool_decide_true by lia. rewrite len_take. lia.
Qed.

End sanitize_filename_facts.

(** C10 (defect of the code). The length cut of [sanitize_filename] uses the
    slice [base[:255-len(ext)]]; when the extension is longer than 255
    characters the bound is negative and the slice only shortens the base, so
    the whole extension survives. On the 302-character name made of [a.]
    followed by 300 letters [b] the result is the 301-character extension:
    non-empty and free of invalid characters, but longer than 255. *)
Theorem sanitize_filename_long_extension :
  let input := "a." ++ PyStr.times "b" 300 in
  sanitize_filename input = "." ++ PyStr.times "b" 300
  ∧ PyStr.len (sanitize_filename input) = 301%nat
  ∧ ¬ (PyStr.len (sanitize_filename input) ≤ 255)%nat.
Proof.
  cbv zeta.
  assert (H : sanitize_filename ("a." ++ PyStr.times "b" 300)
              = "." ++ PyStr.times "b" 300) by (by vm_compute).
  rewrite H. split; [done |].
  assert (Hl : PyStr.len ("." ++ PyStr.times "b" 300) = 301%nat) by (by vm_compute).
  rewrite Hl. split; [done | lia].
Qed.

(** ** The [io] monad *)

Lemma io_bind_ok {A B} (m : io A) (f : A → io B) (w : world) (a : A) (w1 : world) :
  m w = (Ok a, w1) → (m ≫= f) w = f a w1.
Proof. intros Hm. unfold mbind, io_bind. by rewrite Hm. Qed.

Lemma io_bind_raise {A B} (m : io A) (f : A → io B) (w : world) (e : exn) (w1 : world) :
  m w = (Raise e, w1) → (m ≫= f) w = (Raise e, w1).
Proof. intros Hm. unfold mbind, io_bind. by rewrite Hm. Qed.

Lemma io_bind_inv {A B} (m : io A) (f : A → io B) (w w' : world) (b : B) :
  (m ≫= f) w = (Ok b, w') →
  ∃ a w1, m w = (Ok a, w1) ∧ f a w1 = (Ok b, w').
Proof.
  unfold mbind, io_bind. destruct (m w) as [[a|e] w1]; [|done].
  intros Hf. by exists a, w1.
Qed.

Lemma lift_inv {A} (r : result A) (w w' : world) (a : A) :
  lift r w = (Ok a, w') → r = Ok a ∧ w' = w.
Proof. unfold lift. by intros [= -> ->]. Qed.

(** Take a successful run of a sequence of binds apart, one step at a time. *)
Ltac io_inv H :=
  let a := fresh "a" in
  let w := fresh "w" in
  let Hstep := fresh "Hstep" in
  apply io_bind_inv in H as (a & w & Hstep & H).

(** ** [download_file] *)

Section download_file_facts.
Context (E : env) (url destination : string) (timeout : Z).

(** A response whose status is not 200 ends the [try] block at once:
    nothing is opened, written or logged; only the directory of the
    destination and the request itself are recorded. *)
Lemma download_file_try_not_200 (w : world) (r : response) :
  makedirs_error E (dirname destination) = None →
  net E (length (requests w)) url = Ok r →
  status r ≠ 200%Z →
  download_file_try E url destination w =
    (Ok (false, Some ("HTTP error " ++ pretty (status r) ++ ": " ++ reason r)),
     World (files w) ({[dirname destination]} ∪ dirs w)
           (requests w ++ [url]) (log w)).
Proof.
  intros Hmk Hnet Hst.
  unfold download_file_try, mbind, io_bind, makedirs, session_get.
  rewrite Hmk. simpl. rewrite Hnet.
  destruct (Z.eqb_spec (status r) 200) as [?|_]; [done |]. reflexivity.
Qed.

(** Whatever happens, [download_file] never raises: every exception of
    the [try] block is turned into a failure pair. Files can only change
    once a response with status 200 has arrived. *)
Lemma download_file_files_unchanged (w : world) :
  (∀ r, net E (length (requests w)) url = Ok r → status r ≠ 200%Z) →
  files (download_file E url destination timeout w).2 = files w
  ∧ (download_file E url destination timeout w).1.1 = false.
Proof.
  intros Hnet.
  unfold download_file, download_file_try, mbind, io_bind, makedirs, session_get.
  destruct (makedirs_error E (dirname destination)) as [e|]; simpl; [done |].
  destruct (net E (length (requests w)) url) as [r|e] eqn:Hr; simpl; [|done].
  specialize (Hnet r eq_refl).
  destruct (Z.eqb_spec (status r) 200) as [?|_]; [done |]. done.
Qed.
End download_file_facts.

(** Writing chunks never raises and keeps every file that is there. *)
Lemma write_chunks_spec (p : string) (cs : list string) (w : world) :
  ∃ us w', mapM (write p) cs w = (Ok us, w')
    ∧ requests w' = requests w
    ∧ (∀ q, is_Some (files w !! q) → is_Some (files w' !! q)).
Proof.
  revert w. induction cs as [|c cs IH]; intros w.
  - by exists [], w.
  - cbn [mapM]. unfold mbind at 1. unfold io_bind at 1.
    unfold write at 1.
    set (w1 := World _ _ _ _).
    destruct (IH w1) as (us & w' & Hrun & Hreq & Hfiles).
    unfold mbind at 1. unfold io_bind at 1. rewrite Hrun.
    exists (tt :: us), w'. split; [done |]. split; [done |].
    intros q Hq. apply Hfiles. subst w1. simpl.
    destruct (decide (p = q)) as [->|Hne].
    + rewrite lookup_insert_eq. by eexists.
    + by rewrite lookup_insert_ne.
Qed.

(** A successful [download_file] leaves a file at the destination. *)
Lemma download_file_success (E : env) (url destination : string) (timeout : Z)
    (w w' : world) (error : option string) :
  download_file E url destination timeout w = ((true, error), w') →
  is_Some (files w' !! destination).
Proof.
  unfold download_file.
  destruct (download_file_try E url destination w) as [[out|e] w0] eqn:Htry;
    [|by intros [= ?]].
  intros [= -> ->]. unfold download_file_try in Htry.
  io_inv Htry. io_inv Htry.
  destruct (negb _); [by inversion Htry |].
  io_inv Htry. io_inv Htry. io_inv Htry. io_inv Htry. io_inv Htry.
  injection Htry as _ <-.
  unfold logger in Hstep5. injection Hstep5 as _ <-. simpl.
  assert (w5 = w4) as ->.
  { destruct (stream_error a0); simpl in Hstep4; by inversion Hstep4. }
  destruct (write_chunks_spec destination (chunks a0) w3)
    as (us & w2' & Hrun & _ & Hfiles).
  rewrite Hrun in Hstep3. injection Hstep3 as _ <-.
  apply Hfiles. unfold open_wb in Hstep2.
  destruct (open_error E destination); [done |].
  injection Hstep2 as _ <-. simpl. rewrite lookup_insert_eq. by eexists.
Qed.

(** The scenario of the specification, a 404 answer, is [not_found_env]. *)

(** C4. Every HTTP response whose status lies outside 200..299 makes
    [download_file] return the failure pair whose message is
    [HTTP error <status>: <reason>]; the message contains the decimal status
    code, and the files of the world are exactly those from before the call
    (so no file appears at the destination). *)
Theorem download_file_non_2xx
    (E : env) (url destination : string) (timeout : Z) (w : world) (r : response) :
  makedirs_error E (dirname destination) = None →
  net E (length (requests w)) url = Ok r →
  (status r < 200 ∨ 300 ≤ status r)%Z →
  ∃ msg w',
    download_file E url destination timeout w = ((false, Some msg), w')
    ∧ msg = "HTTP error " ++ pretty (status r) ++ ": " ++ reason r
    ∧ PyStr.contains msg (pretty (status r))
    ∧ files w' = files w
    ∧ files w' !! destination = files w !! destination.
Proof.
  intros Hmk Hnet Hst.
  assert (Hne : status r ≠ 200%Z) by lia.
  eexists _, _. unfold download_file.
  rewrite (download_file_try_not_200 E url destination w r Hmk Hnet Hne).
  repeat split. by exists "HTTP error ", (": " ++ reason r).
Qed.

Lemma download_file_non_2xx_witness :
  ∃ msg w',
    download_file not_found_env "https://example.com/missing.jpg"
      "/tmp/walls/missing.jpg" 60 (World ∅ ∅ [] []) = ((false, Some msg), w')
    ∧ msg = "HTTP error 404: Not Found"
    ∧ PyStr.contains msg "404"
    ∧ files w' = ∅
    ∧ files w' !! "/tmp/walls/missing.jpg" = (∅ : gmap string string) !! "/tmp/walls/missing.jpg".
Proof.
  apply (download_file_non_2xx not_found_env "https://example.com/missing.jpg"
           "/tmp/walls/missing.jpg" 60 (World ∅ ∅ [] [])
           (Response 404 "Not Found" (Ok 0%Z) [] None)).
  - reflexivity.
  - reflexivity.
  - right. simpl. lia.
Defined.

(** ** The existing-file check of the Unsplash download step *)

Section unsplash_download_facts.
Context `{PyRuntime} (E : env) (download_directory : string)
        (api_key : option string) (wallpaper_data : gmap string pyval).

Local Abbreviation run :=
  (unsplash_download_wallpaper E download_directory api_key wallpaper_data).

Lemma unsplash_output_path_inv (d p : string) :
  unsplash_output_path download_directory wallpaper_data = Ok (d, p) →
  ∃ filename ext,
    unsplash_filename wallpaper_data = Ok filename
    ∧ file_ext (unsplash_resolve wallpaper_data) = Ok ext
    ∧ category_path download_directory
        (dict_get wallpaper_data "category" (PStr "unsplash")) = Ok d
    ∧ p = path_join d (add_resolution wallpaper_data filename ++ ext).
Proof.
  unfold unsplash_output_path, mbind, result_bind, mret, result_ret.
  destruct (unsplash_filename wallpaper_data) as [f|]; [|done].
  destruct (file_ext _) as [e|]; [|done].
  destruct (category_path _ _) as [d'|]; [|done].
  intros [= <- <-]. by exists f, e.
Qed.

(** The file is there: the step answers with its path after one log
    record, with no request and no change to the files. *)
Lemma unsplash_existing_file (w : world) (d p : string) :
  truthy (unsplash_resolve wallpaper_data) = true →
  unsplash_output_path download_directory wallpaper_data = Ok (d, p) →
  makedirs_error E d = None →
  path_exists p w = true →
  run w = (Ok (Some p),
           World (files w) ({[d]} ∪ dirs w) (requests w)
                 (log w ++ [(INFO, "Wallpaper already exists: " ++ p)])).
Proof.
  intros Hurl (f & e & Hf & He & Hd & ->)%unsplash_output_path_inv Hmk Hex.
  unfold unsplash_download_wallpaper. rewrite Hurl. cbn [negb].
  unfold mbind, io_bind, lift. rewrite Hf, He, Hd.
  unfold makedirs. rewrite Hmk. unfold get_world.
  assert (Hex' : path_exists (path_join d (add_resolution wallpaper_data f ++ e))
            (World (files w) ({[d]} ∪ dirs w) (requests w) (log w)) = true).
  { unfold path_exists in *. simpl.
    apply orb_true_iff in Hex as [Hex|Hex]; apply orb_true_iff; [by left | right].
    apply bool_decide_eq_true in Hex. apply bool_decide_eq_true. set_solver. }
  rewrite Hex'. reflexivity.
Qed.

(** When the step returns a path, that path is the computed destination
    and something exists there afterwards. *)
Lemma fetch_to_returns (url output_path p : string) (w w' : world) :
  fetch_to E url output_path w = (Ok (Some p), w') →
  p = output_path ∧ is_Some (files w' !! output_path).
Proof.
  unfold fetch_to.
  destruct (download_file E url output_path 60 w) as [[[] err] w1] eqn:Hdl.
  - intros [= <- <-]. split; [done |]. by eapply download_file_success.
  - by destruct (logger _ _ _).
Qed.

Lemma unsplash_returned_path_exists (w w' : world) (p : string) :
  run w = (Ok (Some p), w') →
  truthy (unsplash_resolve wallpaper_data) = true
  ∧ ∃ d, unsplash_output_path download_directory wallpaper_data = Ok (d, p)
         ∧ makedirs_error E d = None
         ∧ path_exists p w' = true.
Proof.
  unfold unsplash_download_wallpaper, unsplash_output_path.
  destruct (truthy (unsplash_resolve wallpaper_data)) eqn:Hurl; cbn [negb];
    intros Hrun; [| io_inv Hrun; by inversion Hrun].
  split; [done |].
  io_inv Hrun. apply lift_inv in Hstep as [Hf ->].
  io_inv Hrun. apply lift_inv in Hstep as [He ->].
  io_inv Hrun. apply lift_inv in Hstep as [Hd ->].
  io_inv Hrun. io_inv Hrun.
  rewrite Hf, He, Hd. exists a1.
  unfold makedirs in Hstep. destruct (makedirs_error E a1) eqn:Hmk; [done |].
  injection Hstep as _ <-. injection Hstep0 as <- <-.
  match type of Hrun with context [path_exists ?q ?w0] =>
    set (p' := q) in *; set (w1 := w0) in *;
    destruct (path_exists p' w1) eqn:Hex end.
  - io_inv Hrun. injection Hrun as <- <-.
    injection Hstep as _ <-. repeat split; done.
  - io_inv Hrun. io_inv Hrun.
    apply fetch_to_returns in Hrun as [-> Hfile].
    repeat split; try done;
      unfold path_exists; apply orb_true_iff; left; by apply bool_decide_eq_true.
Qed.
End unsplash_download_facts.

(** C3. If the destination path that the Unsplash download step computes
    already exists when the step runs, the step returns that path without
    any request and without touching the files; hence, once a first call has
    returned the path, a second call on the resulting world returns it again
    with no further request. *)
Theorem unsplash_existing_file_no_fetch `{PyRuntime}
    (E : env) (download_directory : string) (api_key : option string)
    (wallpaper_data : gmap string pyval) (w : world) (d p : string) :
  truthy (unsplash_resolve wallpaper_data) = true →
  unsplash_output_path download_directory wallpaper_data = Ok (d, p) →
  makedirs_error E d = None →
  (path_exists p w = true →
   ∃ w', unsplash_download_wallpaper E download_directory api_key
           wallpaper_data w = (Ok (Some p), w')
         ∧ requests w' = requests w ∧ files w' = files w)
  ∧ (∀ w1, unsplash_download_wallpaper E download_directory api_key
             wallpaper_data w = (Ok (Some p), w1) →
     ∃ w2, unsplash_download_wallpaper E download_directory api_key
             wallpaper_data w1 = (Ok (Some p), w2)
           ∧ requests w2 = requests w1 ∧ files w2 = files w1).
Proof.
  intros Hurl Hpath Hmk. split.
  - intros Hex. eexists.
    split; [exact (unsplash_existing_file _ _ _ _ w d p Hurl Hpath Hmk Hex) |].
    done.
  - intros w1 (_ & d' & Hpath' & _ & Hex)%unsplash_returned_path_exists.
    eexists.
    split; [exact (unsplash_existing_file _ _ _ _ w1 d p Hurl Hpath Hmk Hex) |].
    done.
Qed.


Lemma unsplash_existing_file_no_fetch_witness :
  (∃ w', @unsplash_download_wallpaper posix_runtime serving_env pictures
           (Some "key") sunset sunset_on_disk = (Ok (Some sunset_path), w')
         ∧ requests w' = [] ∧ files w' = files sunset_on_disk)
  ∧ (∀ w1, @unsplash_download_wallpaper posix_runtime serving_env pictures
             (Some "key") sunset empty_world = (Ok (Some sunset_path), w1) →
     ∃ w2, @unsplash_download_wallpaper posix_runtime serving_env pictures
             (Some "key") sunset w1 = (Ok (Some sunset_path), w2)
           ∧ requests w2 = requests w1 ∧ files w2 = files w1).
Proof.
  split.
  - refine (proj1 (@unsplash_existing_file_no_fetch posix_runtime serving_env
             pictures (Some "key") sunset sunset_on_disk sunset_dir sunset_path
             _ _ _) _); vm_compute; reflexivity.
  - refine (proj2 (@unsplash_existing_file_no_fetch posix_runtime serving_env
             pictures (Some "key") sunset empty_world sunset_dir sunset_path
             _ _ _)); vm_compute; reflexivity.
Defined.

(** On an empty disk the first call fetches twice (the registration request
    and the image) and saves the file; the second call of the theorem then
    finds it. *)
Example unsplash_first_call_fetches :
  let run := @unsplash_download_wallpaper posix_runtime serving_env pictures
               (Some "key") sunset empty_world in
  run.1 = Ok (Some sunset_path)
  ∧ requests run.2 = ["https://api.example/photos/Xq1/download";
                      "https://images.example/Xq1.jpg?w=1080"]
  ∧ files run.2 !! sunset_path = Some "JFIFdata".
Proof. vm_compute. by repeat split. Qed.

(** ** URL resolution *)

Section resolution_facts.
Context (wallpaper_data : gmap string pyval).

(** Pixabay: the chain of [or] picks the first present entry of
    [original], [full], [small]. *)
Lemma pixabay_resolve_first_present (v : pyval) :
  first_present (pixabay_ranked wallpaper_data) = Some v →
  pixabay_resolve wallpaper_data = v.
Proof.
  unfold first_present, pixabay_ranked, pixabay_resolve, py_or. cbn [find].
  destruct (truthy (dict_get wallpaper_data "original" PNone)) eqn:Ho;
    rewrite ?Ho; [congruence |].
  destruct (truthy (dict_get wallpaper_data "full" PNone)) eqn:Hf;
    rewrite ?Hf; [congruence |].
  destruct (truthy (dict_get wallpaper_data "small" PNone)); [congruence | done].
Qed.

(** With no present entry the chain yields a value that is not a URL, and
    the step reports that no URL is available. *)
Lemma pixabay_resolve_none :
  first_present (pixabay_ranked wallpaper_data) = None →
  truthy (pixabay_resolve wallpaper_data) = false.
Proof.
  unfold first_present, pixabay_ranked, pixabay_resolve, py_or. cbn [find].
  destruct (truthy (dict_get wallpaper_data "original" PNone)) eqn:Ho;
    rewrite ?Ho; [done |].
  destruct (truthy (dict_get wallpaper_data "full" PNone)) eqn:Hf;
    rewrite ?Hf; [done |].
  by destruct (truthy (dict_get wallpaper_data "small" PNone)) eqn:Hs.
Qed.

(** Unsplash: without the [regular] rendition the step gives up at once,
    with one error record and no request, whatever else the candidate
    carries. *)
Lemma unsplash_no_regular `{PyRuntime} (E : env) (download_directory : string)
    (api_key : option string) (w : world) :
  truthy (dict_get wallpaper_data "regular" PNone) = false →
  unsplash_download_wallpaper E download_directory api_key wallpaper_data w
  = (Ok None, World (files w) (dirs w) (requests w)
                (log w ++ [(ERROR, "No URL available for download")])).
Proof.
  intros Hr. unfold unsplash_download_wallpaper, unsplash_resolve.
  by rewrite Hr.
Qed.
End resolution_facts.

(** C5 (as worded, refuted). The Unsplash download step does not resolve to
    the best present rendition: on a candidate whose three best renditions
    are [None] and whose [small] rendition is present, it resolves to
    [None]. *)
Lemma unsplash_no_fallback :
  ¬ resolves_to_best_present unsplash_ranked unsplash_resolve.
Proof.
  intros Hclaim. specialize (Hclaim no_regular).
  assert (Hbest : first_present (unsplash_ranked no_regular)
                  = Some (PStr "https://images.example/Zr7?w=400"))
    by (by vm_compute).
  assert (Hres : unsplash_resolve no_regular = PNone) by (by vm_compute).
  rewrite Hbest, Hres in Hclaim.
  assert (Some (PStr "https://images.example/Zr7?w=400") = Some PNone) as [=].
  apply Hclaim.
  - by vm_compute.
  - exists (PStr "https://images.example/Zr7?w=400"). split; [|done].
    unfold unsplash_ranked. simpl. rewrite !elem_of_cons.
    right; right; left. by vm_compute.
Qed.

(** C5 (amended). The Pixabay download step resolves to the highest-ranked
    of [original], [full], [small] that is present, and falls back to a lower
    entry only when every higher one is absent ([None] or empty); so ranked
    URLs [None, good_url] resolve to [good_url]. The Unsplash download step
    reads the [regular] rendition only and returns [None], without any
    request, when that one is absent. *)
Theorem url_resolution_by_adapter (wallpaper_data : gmap string pyval) :
  resolves_to_best_present pixabay_ranked pixabay_resolve
  ∧ (∀ v, first_present (pixabay_ranked wallpaper_data) = Some v →
          pixabay_resolve wallpaper_data = v)
  ∧ (truthy (dict_get wallpaper_data "original" PNone) = true →
     pixabay_resolve wallpaper_data = dict_get wallpaper_data "original" PNone)
  ∧ (dict_get wallpaper_data "original" PNone = PNone →
     truthy (dict_get wallpaper_data "full" PNone) = true →
     pixabay_resolve wallpaper_data = dict_get wallpaper_data "full" PNone)
  ∧ unsplash_resolve wallpaper_data = dict_get wallpaper_data "regular" PNone
  ∧ (truthy (dict_get wallpaper_data "regular" PNone) = false →
     ∀ `{PyRuntime} E download_directory api_key w,
       (unsplash_download_wallpaper E download_directory api_key
          wallpaper_data w).1 = Ok None
       ∧ requests (unsplash_download_wallpaper E download_directory api_key
                     wallpaper_data w).2 = requests w).
Proof.
  split; [|split; [|split; [|split; [|split]]]].
  - intros wd _ [v [Hv Htrue]].
    destruct (first_present (pixabay_ranked wd)) as [u|] eqn:Hfp.
    + by rewrite (pixabay_resolve_first_present wd u Hfp).
    + exfalso. unfold first_present, pixabay_ranked in *. simpl in *.
      destruct (truthy (dict_get wd "original" PNone)); [done |].
      destruct (truthy (dict_get wd "full" PNone)) eqn:Hf; [done |].
      destruct (truthy (dict_get wd "small" PNone)) eqn:Hs; [done |].
      rewrite !elem_of_cons, elem_of_nil in Hv.
      destruct Hv as [->| [->|[]]]; congruence.
  - apply pixabay_resolve_first_present.
  - intros Ho. unfold pixabay_resolve, py_or. rewrite Ho. by rewrite Ho.
  - intros Ho Hf. unfold pixabay_resolve, py_or. rewrite Ho. simpl. by rewrite Hf.
  - done.
  - intros Hr ? E dir key w.
    by rewrite (unsplash_no_regular wallpaper_data E dir key w Hr).
Qed.

Lemma url_resolution_by_adapter_witness :
  pixabay_resolve none_then_good = PStr "https://cdn.example/42_1920.jpg"
  ∧ (@unsplash_download_wallpaper posix_runtime serving_env pictures
       (Some "key") no_regular empty_world).1 = Ok None.
Proof.
  pose proof (url_resolution_by_adapter none_then_good) as (_ & _ & _ & Hfull & _).
  pose proof (url_resolution_by_adapter no_regular) as (_ & _ & _ & _ & _ & Hreg).
  split.
  - rewrite Hfull; by vm_compute.
  - apply (Hreg eq_refl posix_runtime serving_env pictures (Some "key") empty_world).
Defined.

(** ** Listing loops *)

Section parse_entries_facts.
Context {A : Type} (extract : A → result (option (gmap string pyval))).

(** The loop never raises. It appends the extracted candidates in order
    and logs exactly one warning per entry whose extraction raised. *)
Lemma parse_entries_spec (results : list A) (acc : list (gmap string pyval))
    (w : world) :
  parse_entries extract results acc w =
    (Ok (acc ++ omap (extracted extract) results)%list,
     World (files w) (dirs w) (requests w)
           (log w ++ omap (warned extract) results)).
Proof.
  revert acc w. induction results as [|item rest IH]; intros acc w.
  - simpl. rewrite !app_nil_r. by destruct w.
  - cbn [parse_entries omap list_omap]. unfold extracted at 1, warned at 1.
    destruct (extract item) as [[wallpaper|]|e].
    + rewrite IH. by rewrite <- app_assoc.
    + by rewrite IH.
    + unfold mbind, io_bind, logger. rewrite IH. simpl.
      by rewrite <- app_assoc.
Qed.

Lemma warnings_warned (results : list A) :
  length (warnings (omap (warned extract) results))
  = length (List.filter (λ item, match extract item with Raise _ => true | _ => false end)
                        results).
Proof.
  induction results as [|item rest IH]; [done |].
  cbn [omap list_omap List.filter]. unfold warned at 1.
  destruct (extract item) as [[?|]|e]; simpl; by rewrite ?IH.
Qed.

Lemma length_extracted (results : list A) :
  length (omap (extracted extract) results)
  = length (List.filter (λ item, match extract item with Ok (Some _) => true | _ => false end)
                        results).
Proof.
  induction results as [|item rest IH]; [done |].
  cbn [omap list_omap List.filter]. unfold extracted at 1.
  destruct (extract item) as [[?|]|e]; simpl; by rewrite ?IH.
Qed.
End parse_entries_facts.

Section unsplash_listing_facts.
Context `{PyRuntime} (query orientation : string).

Lemma unsplash_extract_well_formed (item : pyval) :
  unsplash_well_formed item = true →
  ∃ wallpaper, unsplash_extract query orientation item = Ok (Some wallpaper).
Proof.
  destruct item as [| | | | |d]; try done. unfold unsplash_well_formed.
  intros [[Hurls Hlinks]%andb_prop Huser]%andb_prop.
  unfold unsplash_extract, mbind, result_bind. cbn [py_get].
  destruct (dict_get d "urls" (PDict ∅)); try done.
  destruct (dict_get d "links" (PDict ∅)); try done.
  destruct (dict_get d "user" (PDict ∅)); try done.
  cbn [py_get]. by eexists.
Qed.

Lemma unsplash_extract_malformed (item : pyval) :
  unsplash_well_formed item = false →
  ∃ e, unsplash_extract query orientation item = Raise e.
Proof.
  destruct item as [| | | | |d]; try (by eexists). unfold unsplash_well_formed.
  intros Hbad.
  unfold unsplash_extract, mbind, result_bind. cbn [py_get].
  destruct (dict_get d "urls" (PDict ∅)); try (by eexists).
  destruct (dict_get d "links" (PDict ∅)); try (by eexists).
  destruct (dict_get d "user" (PDict ∅)); try done; by eexists.
Qed.

(** The Unsplash loop meets the tolerance rule for its own notion of a
    well-formed entry. *)
Lemma unsplash_skips_with_warning :
  skips_with_warning unsplash_well_formed
    (λ entries, parse_entries (unsplash_extract query orientation) entries []).
Proof.
  intros entries w. rewrite parse_entries_spec.
  eexists _, _. split; [done |]. split.
  - rewrite app_nil_l, length_extracted. f_equal.
    apply List.filter_ext. intros item.
    destruct (unsplash_well_formed item) eqn:Hwf.
    + by destruct (unsplash_extract_well_formed item Hwf) as [wp ->].
    + by destruct (unsplash_extract_malformed item Hwf) as [e ->].
  - eexists. split; [done |]. rewrite warnings_warned. f_equal.
    apply List.filter_ext. intros item.
    destruct (unsplash_well_formed item) eqn:Hwf.
    + by destruct (unsplash_extract_well_formed item Hwf) as [wp ->].
    + by destruct (unsplash_extract_malformed item Hwf) as [e ->].
Qed.
End unsplash_listing_facts.

Section wallhaven_listing_facts.
Context (query : string).

(** [int] accepts a digit string exactly when it is not longer than the
    limit. *)
Lemma int_of_digits_cases (s : string) :
  if bool_decide (Z.of_nat (PyStr.len s) ≤ max_str_digits)%Z
  then ∃ n, int_of_digits s = Ok n
  else ∃ e, int_of_digits s = Raise e.
Proof.
  unfold int_of_digits. do 2 case_bool_decide; try lia; by eexists.
Qed.

Lemma match_resolution_cases (text : string) :
  match match_groups text with
  | Some (w, h) =>
      if bool_decide (Z.of_nat (PyStr.len w) ≤ max_str_digits)%Z
         && bool_decide (Z.of_nat (PyStr.len h) ≤ max_str_digits)%Z
      then ∃ size, match_resolution text = Ok (Some size)
      else ∃ e, match_resolution text = Raise e
  | None => match_resolution text = Ok None
  end.
Proof.
  unfold match_resolution. destruct (match_groups text) as [[w h]|]; [|done].
  pose proof (int_of_digits_cases w) as Hw.
  pose proof (int_of_digits_cases h) as Hh.
  unfold mbind, result_bind.
  destruct (bool_decide (Z.of_nat (PyStr.len w) ≤ max_str_digits)%Z).
  - destruct Hw as [n ->].
    destruct (bool_decide (Z.of_nat (PyStr.len h) ≤ max_str_digits)%Z).
    + destruct Hh as [m ->]. by eexists.
    + destruct Hh as [e ->]. by eexists.
  - destruct Hw as [e ->]. by eexists.
Qed.

(** What the extraction makes of a figure: without identifier it asks for
    the next one; with an identifier it gives a candidate, unless a number of
    the resolution is too long for [int], which raises. *)
Lemma wallhaven_extract_cases (f : figure) :
  if figure_well_formed f
  then if resolution_readable f
       then ∃ wallpaper, wallhaven_extract query f = Ok (Some wallpaper)
       else ∃ e, wallhaven_extract query f = Raise e
  else wallhaven_extract query f = Ok None.
Proof.
  unfold figure_well_formed, wallhaven_extract, resolution_readable,
    figure_resolution.
  destruct (data_wallpaper_id f) as [[|a s]|]; try done.
  set (text := match wall_res f with
               | Some text => PyStr.strip PyStr.isspace text
               | None => EmptyString
               end).
  case_bool_decide as Htext.
  - rewrite Htext. cbn. by eexists.
  - pose proof (match_resolution_cases text) as Hm.
    unfold mbind, result_bind.
    destruct (match_groups text) as [[w h]|].
    + destruct (_ && _).
      * destruct Hm as [[width height] ->]. by eexists.
      * destruct Hm as [e ->]. by eexists.
    + rewrite Hm. by eexists.
Qed.

(** The HTML loop never raises. It returns the candidates of the figures
    that carry an identifier and a readable resolution, logs one warning for
    each figure with an identifier whose resolution [int] refuses, and
    nothing for a figure without identifier. *)
Lemma wallhaven_parse_figures_spec (figures : list figure) (w : world) :
  ∃ wallpapers new,
    wallhaven_parse_figures query figures w
    = (Ok wallpapers,
       World (files w) (dirs w) (requests w) (log w ++ new))
    ∧ length wallpapers
      = length (List.filter (λ f, figure_well_formed f && resolution_readable f)
                            figures)
    ∧ Forall (λ r, r.1 = WARNING) new
    ∧ length new
      = length (List.filter
                  (λ f, figure_well_formed f && negb (resolution_readable f))
                  figures).
Proof.
  unfold wallhaven_parse_figures. rewrite parse_entries_spec.
  eexists _, _. split; [done |]. rewrite app_nil_l. split; [| split].
  - rewrite length_extracted. f_equal. apply List.filter_ext. intros f.
    pose proof (wallhaven_extract_cases f) as Hf.
    destruct (figure_well_formed f); [destruct (resolution_readable f) |].
    + by destruct Hf as [wp ->].
    + by destruct Hf as [e ->].
    + by rewrite Hf.
  - induction figures as [|f rest IH]; [done |].
    cbn [omap list_omap]. unfold warned at 1.
    destruct (wallhaven_extract query f) as [[?|]|e]; try done.
    by constructor.
  - induction figures as [|f rest IH]; [done |].
    cbn [omap list_omap List.filter]. unfold warned at 1.
    pose proof (wallhaven_extract_cases f) as Hf.
    destruct (figure_well_formed f); [destruct (resolution_readable f) |];
      cbn [andb negb].
    + by destruct Hf as [wp ->].
    + destruct Hf as [e ->]. simpl. by rewrite IH.
    + by rewrite Hf.
Qed.
End wallhaven_listing_facts.

(** C6 (as worded, refuted). The HTML loop of the Wallhaven listing does
    not warn about a malformed entry: of six figures, one without identifier,
    it returns five candidates and logs no warning. *)
Lemma wallhaven_skips_silently :
  ¬ skips_with_warning figure_well_formed (wallhaven_parse_figures "").
Proof.
  intros Hclaim.
  destruct (Hclaim six_figures empty_world)
    as (wallpapers & w' & Hrun & _ & new & Hlog & Hwarn).
  unfold wallhaven_parse_figures in Hrun. rewrite parse_entries_spec in Hrun.
  injection Hrun as _ <-.
  simpl in Hlog. subst new. by vm_compute in Hwarn.
Qed.

(** C6 (amended). The Unsplash listing loop never raises; it returns one
    candidate for every entry that is a dictionary with dictionary-valued
    (or missing) [urls], [links] and [user], and logs exactly one warning
    for every other entry; six entries of which one is malformed give five
    candidates and one warning. The HTML loop of the Wallhaven listing never
    raises either. It skips a figure without identifier with no log record.
    Of the figures with an identifier it returns one candidate for each whose
    resolution [int] can read, and logs one warning for each whose
    resolution holds a number of more than 4300 digits. *)
Theorem listing_tolerates_malformed_entries `{PyRuntime}
    (query orientation : string) :
  skips_with_warning unsplash_well_formed
    (λ entries, parse_entries (unsplash_extract query orientation) entries [])
  ∧ (∀ (data : pyval) (w : world),
       (query = EmptyString ∧ data = PList six_entries)
       ∨ (query ≠ EmptyString ∧ data = PDict {["results" := PList six_entries]}) →
       ∃ wallpapers w' warning,
         unsplash_parse_response query orientation data w = (Ok wallpapers, w')
         ∧ length wallpapers = 5%nat
         ∧ log w' = (log w ++ [(WARNING, warning)])%list)
  ∧ (∀ (figures : list figure) (w : world), ∃ wallpapers new,
       wallhaven_parse_figures query figures w
       = (Ok wallpapers,
          World (files w) (dirs w) (requests w) (log w ++ new))
       ∧ length wallpapers
         = length (List.filter
                     (λ f, figure_well_formed f && resolution_readable f) figures)
       ∧ Forall (λ r, r.1 = WARNING) new
       ∧ length new
         = length (List.filter
                     (λ f, figure_well_formed f && negb (resolution_readable f))
                     figures)).
Proof.
  split; [apply unsplash_skips_with_warning |]. split.
  - intros data w Hdata. unfold unsplash_parse_response.
    assert (Hres : (if bool_decide (query = EmptyString)
                    then mret (match data with PList _ => data | _ => PList [] end)
                    else py_get data "results" (PList []))
                   = Ok (PList six_entries)).
    { destruct Hdata as [[Hq ->]|[Hq ->]].
      - by rewrite bool_decide_true.
      - rewrite bool_decide_false by done. by vm_compute. }
    rewrite Hres. unfold mbind at 1. unfold io_bind at 1. unfold lift at 1.
    unfold mbind at 1. unfold io_bind at 1. unfold lift at 1. cbn [py_iter].
    rewrite parse_entries_spec. eexists _, _, _. split; [done |].
    split; by vm_compute.
  - intros figures w. apply wallhaven_parse_figures_spec.
Qed.

Lemma listing_tolerates_malformed_entries_witness :
  (∃ wallpapers w' warning,
     @unsplash_parse_response posix_runtime "forest" "landscape"
       (PDict {["results" := PList six_entries]}) empty_world = (Ok wallpapers, w')
     ∧ length wallpapers = 5%nat
     ∧ log w' = [(WARNING, warning)])
  ∧ (∃ wallpapers new,
       wallhaven_parse_figures "forest" seven_figures empty_world
         = (Ok wallpapers, World ∅ ∅ [] new)
       ∧ length wallpapers = 5%nat
       ∧ Forall (λ r, r.1 = WARNING) new
       ∧ length new = 1%nat).
Proof.
  destruct (@listing_tolerates_malformed_entries posix_runtime "forest" "landscape")
    as (_ & Hunsplash & Hwallhaven).
  split.
  - apply (Hunsplash (PDict {["results" := PList six_entries]}) empty_world).
    right. split; [discriminate | reflexivity].
  - apply (Hwallhaven seven_figures empty_world).
Defined.

(** ** [download_all] *)

Section download_all_facts.
Context (sc : scraper) (batch : nat) (kwargs : option list_args).

(** A path is among the gathered results exactly when some task returned
    it. *)
Lemma gathered_paths (wallpapers : list (gmap string pyval)) (p : string) :
  p ∈ omap is_path (imap (download_wallpaper sc batch) wallpapers)
  ↔ ∃ i wallpaper, wallpapers !! i = Some wallpaper
       ∧ download_wallpaper sc batch i wallpaper = Returned (Some p).
Proof.
  rewrite list_elem_of_omap. split.
  - intros (r & Hr & Hp). apply elem_of_lookup_imap in Hr as (i & wp & -> & Hwp).
    exists i, wp. split; [done |].
    destruct (download_wallpaper sc batch i wp) as [[q|]|e]; simpl in Hp;
      congruence.
  - intros (i & wp & Hwp & Hdl). exists (Returned (Some p)). split; [|done].
    apply elem_of_lookup_imap. exists i, wp. by rewrite Hdl.
Qed.

Lemma gathered_paths_length (wallpapers : list (gmap string pyval)) :
  (length (omap is_path (imap (download_wallpaper sc batch) wallpapers))
   ≤ length wallpapers)%nat.
Proof.
  rewrite <- (length_imap (download_wallpaper sc batch) wallpapers).
  induction (imap (download_wallpaper sc batch) wallpapers) as [|r rs IH];
    [done |].
  cbn [omap list_omap]. destruct (is_path r); simpl; lia.
Qed.
End download_all_facts.

(** C7. Once the listing has returned its candidates, [download_all] ends
    normally whatever the single downloads do: a task that returns [None] or
    raises only leaves its place in the gathered results, and the returned
    list holds exactly the paths returned by the tasks that succeeded, in
    submission order. *)
Theorem download_all_collects_failures
    (sc : scraper) (batch : nat) (kwargs : option list_args)
    (wallpapers : list (gmap string pyval)) :
  get_wallpaper_list sc batch kwargs = Ok wallpapers →
  ∃ results paths,
    gather_downloads sc batch kwargs = Ok results
    ∧ length results = length wallpapers
    ∧ download_all sc batch kwargs = Ok paths
    ∧ paths = omap is_path results
    ∧ (∀ p, p ∈ paths ↔
         ∃ i wallpaper, wallpapers !! i = Some wallpaper
           ∧ download_wallpaper sc batch i wallpaper = Returned (Some p))
    ∧ (length paths ≤ length wallpapers)%nat.
Proof.
  intros Hlist. eexists _, _.
  unfold download_all, gather_downloads. rewrite Hlist.
  unfold mbind, result_bind, mret, result_ret.
  split; [done |]. split; [by rewrite length_imap |].
  split; [done |]. split; [done |]. split.
  - intros p. apply gathered_paths.
  - apply gathered_paths_length.
Qed.

Lemma download_all_collects_failures_witness :
  ∃ results paths,
    gather_downloads flaky_source 0 None = Ok results
    ∧ length results = 5%nat
    ∧ download_all flaky_source 0 None = Ok paths
    ∧ paths = omap is_path results
    ∧ (∀ p, p ∈ paths ↔
         ∃ i wallpaper,
           (candidate <$> ["a"; "b"; "c"; "d"; "e"]) !! i = Some wallpaper
           ∧ download_wallpaper flaky_source 0 i wallpaper = Returned (Some p))
    ∧ (length paths ≤ 5)%nat.
Proof.
  exact (download_all_collects_failures flaky_source 0 None
           (candidate <$> ["a"; "b"; "c"; "d"; "e"]) eq_refl).
Defined.

(** The run of [flaky_source]: five tasks, one returns [None], one raises,
    three paths come back. *)
Example download_all_flaky :
  download_all flaky_source 0 None
  = Ok ["/walls/0.jpg"; "/walls/2.jpg"; "/walls/4.jpg"].
Proof. by vm_compute. Qed.

(** ** The page loop of [main] *)

(** C9 (defect of the code). The limit of the command line is applied to
    [all_wallpapers], which no download reads; the downloads come from
    [download_all()], which lists again without arguments. With a limit of
    5, one page and a source that has three candidates for the query and six
    for a listing without arguments, the run starts six downloads and saves
    six files. *)
Theorem limit_not_applied_to_downloads :
  ∃ st, main_loop rare_query_source rare_query_args = Ok st
    ∧ cli_limit rare_query_args = Some 5%Z
    ∧ length (all_wallpapers st) = 3%nat
    ∧ downloads_started st = 6%nat
    ∧ total_downloaded st
      = ["/walls/n1"; "/walls/n2"; "/walls/n3"; "/walls/n4"; "/walls/n5"; "/walls/n6"]
    ∧ ¬ (Z.of_nat (downloads_started st) ≤ 5)%Z.
Proof.
  eexists. split; [by vm_compute |]. simpl. repeat split; try done. lia.
Qed.

(** ** The rate limiter *)

Module RateLimiterFacts.
Import RateLimiter.

Lemma Qltb_lt (a b : Q) : Qltb a b = true ↔ (a < b)%Q.
Proof.
  unfold Qltb. rewrite negb_true_iff. split.
  - intros Hle. apply Qnot_le_lt. intros Hba.
    apply Qle_bool_iff in Hba. congruence.
  - intros Hlt. destruct (Qle_bool b a) eqn:Hba; [|done].
    apply Qle_bool_iff in Hba. by apply Qlt_not_le in Hlt.
Qed.

Lemma Qltb_ge (a b : Q) : Qltb a b = false ↔ (b <= a)%Q.
Proof.
  unfold Qltb. rewrite negb_false_iff. apply Qle_bool_iff.
Qed.

(** A call sleeps exactly when less than the interval has passed since the
    recorded dispatch, and then for the remainder of the interval. *)
Lemma sleep_needed_spec (l : limiter) (now : Q) :
  match sleep_needed l now with
  | Some delay =>
      (now - last_request_time l < rate_limit l)%Q
      ∧ delay = (rate_limit l - (now - last_request_time l))%Q
  | None => (rate_limit l <= now - last_request_time l)%Q
  end.
Proof.
  unfold sleep_needed.
  destruct (Qltb _ _) eqn:Hlt.
  - by apply Qltb_lt in Hlt.
  - by apply Qltb_ge in Hlt.
Qed.

(** The event loop with a single caller does what the function says: the
    caller is run, the requested sleep and then [late] more seconds pass,
    and the caller is run again. *)
Lemma loop_runs_alone (l : limiter) (now late : Q) :
  (0 <= late)%Q →
  let after := _respect_rate_limit l now late in
  match sleep_needed l now with
  | Some delay =>
      exec [Run 0; Tick delay; Tick late; Run 0] (Loop now l [Fresh])
      = Loop after.2 after.1 [Done after.2]
  | None =>
      exec [Run 0; Tick late] (Loop now l [Fresh])
      = Loop after.2 (record l now) [Done now]
  end.
Proof.
  intros Hlate. unfold _respect_rate_limit.
  pose proof (sleep_needed_spec l now) as Hs.
  assert (Hl : Qle_bool 0 late = true) by (by apply Qle_bool_iff).
  destruct (sleep_needed l now) as [delay|] eqn:Hsleep.
  - destruct Hs as [Hlt Hdelay].
    assert (Hd : Qle_bool 0 delay = true)
      by (apply Qle_bool_iff; rewrite Hdelay; lra).
    assert (Hw : Qle_bool (now + delay) (now + delay + late) = true)
      by (apply Qle_bool_iff; lra).
    assert (H1 : perform (Loop now l [Fresh]) (Run 0)
                 = Loop now l [Sleeping (now + delay)]).
    { unfold perform, run_caller. simpl. by rewrite Hsleep. }
    assert (H2 : perform (Loop now l [Sleeping (now + delay)]) (Tick delay)
                 = Loop (now + delay) l [Sleeping (now + delay)]).
    { unfold perform. by rewrite Hd. }
    assert (H3 : perform (Loop (now + delay) l [Sleeping (now + delay)]) (Tick late)
                 = Loop (now + delay + late) l [Sleeping (now + delay)]).
    { unfold perform. by rewrite Hl. }
    assert (H4 : perform (Loop (now + delay + late) l [Sleeping (now + delay)]) (Run 0)
                 = Loop (now + delay + late) (record l (now + delay + late))
                        [Done (now + delay + late)]).
    { unfold perform, run_caller. simpl. by rewrite Hw. }
    unfold exec. cbn [fold_left]. by rewrite H1, H2, H3, H4.
  - assert (H1 : perform (Loop now l [Fresh]) (Run 0)
                 = Loop now (record l now) [Done now]).
    { unfold perform, run_caller. simpl. by rewrite Hsleep. }
    unfold exec. cbn [fold_left]. rewrite H1. unfold perform. by rewrite Hl.
Qed.

End RateLimiterFacts.

(** ** Binary64 rounding *)

Module Binary64Facts.
Import Binary64.

Local Open Scope Q_scope.

Lemma pow2_pos (e : Z) : 0 < 2 ^ e.
Proof. by apply Qpower_0_lt. Qed.

(** The exponent is a lower bound in powers of two. *)
Lemma exponent_le (x : Q) : 0 < x → 2 ^ exponent x <= x.
Proof.
  intros Hx. unfold exponent. cbv zeta.
  destruct (RateLimiter.Qltb x _) eqn:Hlt;
    [| by apply RateLimiterFacts.Qltb_ge in Hlt].
  clear Hlt. destruct x as [n d]. cbn [Qnum Qden].
  assert (Hn : (0 < n)%Z).
  { unfold Qlt in Hx. simpl in Hx. lia. }
  set (ln := Z.log2 n). set (ld := Z.log2 (Z.pos d)).
  destruct (Z.log2_spec n Hn) as [Hlow _]. fold ln in Hlow.
  destruct (Z.log2_spec (Z.pos d) (Pos2Z.is_pos d)) as [_ Hhigh].
  fold ld in Hhigh.
  assert (Hln : (0 <= ln)%Z) by apply Z.log2_nonneg.
  assert (Hld : (0 <= ld)%Z) by apply Z.log2_nonneg.
  replace (ln - ld - 1)%Z with (ln - Z.succ ld)%Z by lia.
  rewrite Qpower_minus by done.
  change 2 with (inject_Z 2).
  rewrite <- !Zpower_Qpower by lia.
  rewrite (Qmake_Qdiv n d).
  set (a := inject_Z (2 ^ ln)). set (b := inject_Z (2 ^ Z.succ ld)).
  set (nn := inject_Z n). set (dd := inject_Z (Z.pos d)).
  assert (Ha : a <= nn) by (unfold a, nn; by rewrite <- Zle_Qle).
  assert (Hb : dd <= b) by (unfold b, dd; rewrite <- Zle_Qle; lia).
  assert (Hdd : 0 < dd) by (unfold dd; by rewrite <- (Zlt_Qlt 0)).
  assert (Ha0 : 0 < a).
  { unfold a. rewrite <- (Zlt_Qlt 0). by apply Z.pow_pos_nonneg. }
  assert (Hb0 : 0 < b) by lra.
  apply Qle_shift_div_r; [done |].
  assert (Hq : (nn / dd) * dd == nn) by (field; lra).
  assert (Hq0 : 0 <= nn / dd).
  { apply Qle_shift_div_l; [done | lra]. }
  set (q := nn / dd) in *.
  assert (Hmono : q * dd <= q * b)
    by (rewrite !(Qmult_comm q); by apply Qmult_le_compat_r).
  lra.
Qed.

(** The nearest integer is at most a half away. *)
Lemma round_half_even_near (y : Q) :
  y - (1 # 2) <= inject_Z (round_half_even y)
  ∧ inject_Z (round_half_even y) <= y + (1 # 2).
Proof.
  unfold round_half_even. cbv zeta.
  pose proof (Qfloor_le y) as Hlow. pose proof (Qlt_floor y) as Hhigh.
  rewrite inject_Z_plus in Hhigh. change (inject_Z 1) with 1 in Hhigh.
  set (below := Qfloor y) in *.
  destruct (RateLimiter.Qltb (y - inject_Z below) (1 # 2)) eqn:H1.
  { apply RateLimiterFacts.Qltb_lt in H1. lra. }
  apply RateLimiterFacts.Qltb_ge in H1.
  destruct (RateLimiter.Qltb (1 # 2) (y - inject_Z below)) eqn:H2.
  { rewrite inject_Z_plus. change (inject_Z 1) with 1. lra. }
  apply RateLimiterFacts.Qltb_ge in H2.
  destruct (Z.even below); rewrite ?inject_Z_plus;
    change (inject_Z 1) with 1; lra.
Qed.

Lemma round_pos_near (x : Q) :
  0 < x →
  x * (1 - unit_roundoff) <= round_pos x
  ∧ round_pos x <= x * (1 + unit_roundoff).
Proof.
  intros Hx. unfold round_pos. cbv zeta. rewrite Qred_correct.
  pose proof (exponent_le x Hx) as Hexp.
  set (e := (exponent x - 52)%Z) in *.
  replace (exponent x) with (e + 52)%Z in Hexp by (unfold e; lia).
  rewrite Qpower_plus in Hexp by done.
  pose proof (pow2_pos e) as Hp.
  set (P := 2 ^ e) in *.
  assert (H52 : 2 ^ 52 == 4503599627370496) by reflexivity.
  rewrite H52 in Hexp.
  assert (Hy : (x / P) * P == x) by (field; lra).
  destruct (round_half_even_near (x / P)) as [Hlow Hhigh].
  set (m := inject_Z (round_half_even (x / P))) in *.
  set (y := x / P) in *.
  assert (Hlow' : (y - (1 # 2)) * P <= m * P)
    by (by apply Qmult_le_compat_r; [| lra]).
  assert (Hhigh' : m * P <= (y + (1 # 2)) * P)
    by (by apply Qmult_le_compat_r; [| lra]).
  unfold unit_roundoff. split; lra.
Qed.

(** Rounding changes a number that is not negative by at most its
    [unit_roundoff]-th part. *)
Lemma round_near (x : Q) :
  0 <= x →
  x * (1 - unit_roundoff) <= round x ∧ round x <= x * (1 + unit_roundoff).
Proof.
  intros Hx. unfold round. destruct x as [[|n|n] d]; cbn [Qnum].
  - unfold unit_roundoff. split; unfold Qle; simpl; lia.
  - by apply round_pos_near.
  - exfalso. unfold Qle in Hx. simpl in Hx. lia.
Qed.

Lemma round_nonneg (x : Q) : 0 <= x → 0 <= round x.
Proof.
  intros Hx. destruct (round_near x Hx) as [Hlow _].
  unfold unit_roundoff in Hlow. lra.
Qed.

(** The exponent is sharp: [x] is below the next power of two. *)
Lemma exponent_lt (x : Q) : 0 < x → x < 2 ^ (exponent x + 1).
Proof.
  intros Hx. unfold exponent. cbv zeta.
  destruct (RateLimiter.Qltb x _) eqn:Hlt.
  { apply RateLimiterFacts.Qltb_lt in Hlt.
    by replace (Z.log2 (Qnum x) - Z.log2 (Z.pos (Qden x)) - 1 + 1)%Z
      with (Z.log2 (Qnum x) - Z.log2 (Z.pos (Qden x)))%Z by lia. }
  clear Hlt. destruct x as [n d]. cbn [Qnum Qden].
  assert (Hn : (0 < n)%Z).
  { unfold Qlt in Hx. simpl in Hx. lia. }
  set (ln := Z.log2 n). set (ld := Z.log2 (Z.pos d)).
  destruct (Z.log2_spec n Hn) as [_ Hhigh]. fold ln in Hhigh.
  destruct (Z.log2_spec (Z.pos d) (Pos2Z.is_pos d)) as [Hlow _].
  fold ld in Hlow.
  assert (Hln : (0 <= ln)%Z) by apply Z.log2_nonneg.
  assert (Hld : (0 <= ld)%Z) by apply Z.log2_nonneg.
  replace (ln - ld + 1)%Z with (Z.succ ln - ld)%Z by lia.
  rewrite Qpower_minus by done.
  change 2 with (inject_Z 2).
  rewrite <- !Zpower_Qpower by lia.
  rewrite (Qmake_Qdiv n d).
  set (a := inject_Z (2 ^ Z.succ ln)). set (b := inject_Z (2 ^ ld)).
  set (nn := inject_Z n). set (dd := inject_Z (Z.pos d)).
  assert (Ha : nn < a) by (unfold a, nn; by rewrite <- Zlt_Qlt).
  assert (Hb : b <= dd) by (unfold b, dd; by rewrite <- Zle_Qle).
  assert (Hb0 : 0 < b).
  { unfold b. rewrite <- (Zlt_Qlt 0). by apply Z.pow_pos_nonneg. }
  assert (Hnn : 0 < nn) by (unfold nn; by rewrite <- (Zlt_Qlt 0)).
  apply Qlt_shift_div_r; [lra |].
  assert (Hq : (a / b) * b == a) by (field; lra).
  assert (Hq0 : 0 <= a / b).
  { apply Qle_shift_div_l; [done | lra]. }
  set (q := a / b) in *.
  assert (Hmono : q * b <= q * dd)
    by (rewrite !(Qmult_comm q); by apply Qmult_le_compat_r).
  lra.
Qed.

(** The result of rounding is a significand of 53 bits times a power of
    two. *)
Lemma round_pos_significand (x : Q) :
  0 < x →
  let e := (exponent x - 52)%Z in
  let m := round_half_even (x / 2 ^ e) in
  round_pos x == inject_Z m * 2 ^ e
  ∧ (2 ^ 52 <= m <= 2 ^ 53)%Z.
Proof.
  intros Hx e m. split; [apply Qred_correct |].
  pose proof (exponent_le x Hx) as Hlow.
  pose proof (exponent_lt x Hx) as Hhigh.
  replace (exponent x) with (e + 52)%Z in Hlow by (unfold e; lia).
  replace (exponent x + 1)%Z with (e + 53)%Z in Hhigh by (unfold e; lia).
  rewrite Qpower_plus in Hlow, Hhigh by done.
  pose proof (pow2_pos e) as Hp. fold e. set (P := 2 ^ e) in *.
  assert (H52 : 2 ^ 52 == 4503599627370496) by reflexivity.
  assert (H53 : 2 ^ 53 == 9007199254740992) by reflexivity.
  rewrite H52 in Hlow. rewrite H53 in Hhigh.
  assert (Hy : (x / P) * P == x) by (field; lra).
  destruct (round_half_even_near (x / P)) as [Hmlow Hmhigh]. fold m in Hmlow, Hmhigh.
  set (y := x / P) in *.
  assert (Hy1 : 4503599627370496 <= y).
  { apply Qle_shift_div_l; [done | lra]. }
  assert (Hy2 : y < 9007199254740992).
  { apply Qlt_shift_div_r; [done | lra]. }
  assert (H1 : inject_Z 4503599627370495 < inject_Z m)
    by (change (inject_Z 4503599627370495) with 4503599627370495; lra).
  assert (H2 : inject_Z m < inject_Z 9007199254740993)
    by (change (inject_Z 9007199254740993) with 9007199254740993; lra).
  rewrite <- Zlt_Qlt in H1, H2.
  change (2 ^ 52)%Z with 4503599627370496%Z.
  change (2 ^ 53)%Z with 9007199254740992%Z. lia.
Qed.
End Binary64Facts.

(** ** The rate limiter in binary64 *)

Module RateLimiter64Facts.
Import RateLimiter RateLimiter64 Binary64 Binary64Facts.

Local Open Scope Q_scope.

(** A call on its own, started when the clock is not behind the recorded
    dispatch: it records its return time, and that time is no more than
    [early] before the start and no more than [early] and one rounding
    error short of one interval after the recorded dispatch, when the loop
    resumes the call no more than [early] ahead of time. *)
Lemma respect_rate_limit_alone (l : limiter) (now late early : Q) :
  last_request_time l <= now →
  - early <= late →
  let after := _respect_rate_limit l now late in
  last_request_time after.1 = after.2
  ∧ rate_limit after.1 = rate_limit l
  ∧ now - early <= after.2
  ∧ rate_limit l * (1 - unit_roundoff) - early <= after.2 - last_request_time l.
Proof.
  intros Hclock Hlate. unfold _respect_rate_limit, sleep_needed, sub.
  cbn [fst snd record rate_limit last_request_time].
  destruct (round_near (now - last_request_time l)) as [Hlow Hhigh]; [lra |].
  set (elapsed := round (now - last_request_time l)) in *.
  unfold unit_roundoff in *.
  destruct (Qltb elapsed (rate_limit l)) eqn:Hlt.
  - apply RateLimiterFacts.Qltb_lt in Hlt.
    destruct (round_near (rate_limit l - elapsed)) as [Hdlow _]; [lra |].
    set (delay := round (rate_limit l - elapsed)) in *.
    unfold unit_roundoff in *. repeat split; try done; lra.
  - apply RateLimiterFacts.Qltb_ge in Hlt.
    repeat split; try done; lra.
Qed.

End RateLimiter64Facts.

(** The model rounds as the machine does: on the numbers of the scenario
    below, sums, differences and the quotient [1 / 10] of the kernel's
    binary64 floats denote the rationals the model computes. *)
Lemma binary64_agrees_with_machine :
  let hundred := Binary64.float_of 100 0 in
  let tenth := PrimFloat.div (Binary64.float_of 1 0) (Binary64.float_of 10 0) in
  Binary64.float_value hundred = Some 100%Q
  ∧ Binary64.float_value tenth = Some RateLimiter64.tenth
  ∧ Binary64.float_value (PrimFloat.sub hundred hundred)
    = Some (Binary64.sub 100 100)
  ∧ Binary64.float_value (PrimFloat.sub tenth (PrimFloat.sub hundred hundred))
    = Some (Binary64.sub RateLimiter64.tenth (Binary64.sub 100 100))
  ∧ Binary64.float_value (PrimFloat.add hundred tenth)
    = Some (Binary64.add 100 RateLimiter64.tenth)
  ∧ PrimFloat.ltb (PrimFloat.sub (PrimFloat.add hundred tenth) hundred) tenth
    = true.
Proof. cbv zeta. repeat split; vm_compute; reflexivity. Qed.

(** C1 (defect of the code). The interval is kept only up to rounding. With
    [rate_limit = 0.1] and a first call that records the clock reading
    [100.0], a second call that starts at [100.0] finds no time elapsed and
    asks for [sleep(0.1)]. The event loop sets the timer to the float
    [100.0 + 0.1], and a call resumed at that reading records it: the two
    dispatch times are [0.09999999999999432] seconds apart, less than
    [rate_limit]. A second call that starts a tenth of a microsecond later
    meets the same timer and the same gap. *)
Theorem sequential_wait_falls_short :
  let r := RateLimiter64.tenth in
  let first := RateLimiter64._respect_rate_limit (RateLimiter.init r) 100 0 in
  let falls_short := λ now : Q,
    ∃ delay,
      RateLimiter64.sleep_needed first.1 now = Some delay
      ∧ let due := RateLimiter64.timer_due now delay in
        let second :=
          RateLimiter64._respect_rate_limit first.1 now (due - (now + delay))%Q in
        (second.2 == due)%Q
        ∧ RateLimiter.last_request_time second.1 = second.2
        ∧ (second.2 - RateLimiter.last_request_time first.1
           == 3518437208883 # 35184372088832)%Q
        ∧ (second.2 - RateLimiter.last_request_time first.1 < r)%Q in
  RateLimiter.last_request_time first.1 = 100%Q
  ∧ falls_short 100%Q
  ∧ falls_short (Binary64.round (1000000001 # 10000000)).
Proof.
  cbv zeta. split; [vm_compute; reflexivity |].
  split; eexists; (split; [vm_compute; reflexivity |]);
    repeat split; vm_compute; reflexivity.
Qed.

(** C8 (defect of the code). Nothing serialises callers of
    [_respect_rate_limit]. With an interval of two seconds and the last
    dispatch recorded at 100, two tasks that call it at 101 both read that
    time, both sleep one second, and both dispatch at 102: the two
    dispatches are zero seconds apart. *)
Theorem concurrent_waits_race :
  let s := RateLimiter.exec
             [RateLimiter.Run 0; RateLimiter.Run 1; RateLimiter.Tick 1;
              RateLimiter.Run 0; RateLimiter.Run 1]
             (RateLimiter.Loop 101 (RateLimiter.Limiter 2 100)
                [RateLimiter.Fresh; RateLimiter.Fresh]) in
  RateLimiter.callers s = [RateLimiter.Done 102; RateLimiter.Done 102]
  ∧ RateLimiter.dispatches s = [102; 102]%Q
  ∧ RateLimiter.rate_limit (RateLimiter.lim s) = 2%Q
  ∧ ¬ (2 <= 102 - 102)%Q.
Proof.
  cbv zeta. split; [by vm_compute |]. split; [by vm_compute |].
  split; [by vm_compute |]. unfold Qle. simpl. lia.
Qed.

(** ** The permit pool *)

Module PoolFacts.
Import Pool.

Lemma active_count_app (l1 l2 : list task) :
  length (List.filter is_active (l1 ++ l2))
  = (length (List.filter is_active l1) + length (List.filter is_active l2))%nat.
Proof. by rewrite List.filter_app, length_app. Qed.

(** Replacing the task at a position changes the count by the difference
    of the two weights. *)
Lemma active_count_insert (l : list task) (i : nat) (old new : task) :
  l !! i = Some old →
  (length (List.filter is_active (<[i := new]> l)) + weight old
   = length (List.filter is_active l) + weight new)%nat.
Proof.
  revert i. induction l as [|t l IH]; intros [|i] Hi; try done.
  - injection Hi as ->. unfold weight. simpl.
    destruct (is_active old), (is_active new); simpl; lia.
  - simpl in Hi. specialize (IH i Hi). simpl.
    destruct (is_active t); simpl; lia.
Qed.

(** Free permits and active tasks always add up to the size of the pool. *)
Lemma permits_conserved (n : nat) (p : pool) :
  rtc step (init n) p → (value p + active p = n)%nat.
Proof.
  revert p. apply (rtc_ind_r (λ p, value p + active p = n)%nat (init n)).
  - unfold active. simpl. lia.
  - intros p p' Hreach Hstep IH. unfold active in *.
    inversion Hstep as [q | q i v Hi Hacq | q i r Hi]; subst; simpl.
    + rewrite active_count_app. simpl. lia.
    + pose proof (active_count_insert _ _ _ Active Hi) as Hc.
      unfold weight in Hc. simpl in Hc.
      unfold acquire in Hacq. destruct (value p) as [|v']; [done |].
      injection Hacq as <-. lia.
    + pose proof (active_count_insert _ _ _ (Finished r) Hi) as Hc.
      unfold weight in Hc. simpl in Hc. unfold release. lia.
Qed.

(** Leaving the body gives the permit back, whatever the body produced. *)
Lemma exit_releases (p : pool) (i : nat) (r : task_result) :
  tasks p !! i = Some Active →
  ∃ p', step p p'
        ∧ value p' = S (value p)
        ∧ tasks p' !! i = Some (Finished r)
        ∧ S (active p') = active p.
Proof.
  intros Hi. eexists. split; [by apply (step_exit p i r) |]. simpl.
  split; [done |]. split.
  - apply list_lookup_insert_eq. by eapply lookup_lt_Some.
  - pose proof (active_count_insert _ _ _ (Finished r) Hi) as Hc.
    unfold weight in Hc. simpl in Hc. unfold active. simpl. lia.
Qed.

End PoolFacts.

(** C2. On one scraper, whose semaphore starts with [n] permits, every
    reachable state has at most [n] tasks between permit acquisition and
    permit release (free permits and active tasks add up to [n]); and a task
    inside the body can always leave it with any result, be it a path,
    [None] or an exception, and that step gives one permit back. *)
Theorem active_downloads_bounded (n : nat) (p : Pool.pool) :
  rtc Pool.step (Pool.init n) p →
  (Pool.active p ≤ n)%nat
  ∧ (Pool.value p + Pool.active p = n)%nat
  ∧ ∀ i r, Pool.tasks p !! i = Some Pool.Active →
      ∃ p', Pool.step p p'
            ∧ Pool.value p' = S (Pool.value p)
            ∧ Pool.tasks p' !! i = Some (Pool.Finished r)
            ∧ S (Pool.active p') = Pool.active p.
Proof.
  intros Hreach. pose proof (PoolFacts.permits_conserved n p Hreach) as Hsum.
  split; [lia |]. split; [done |].
  intros i r Hi. by apply PoolFacts.exit_releases.
Qed.

Lemma busy_pool_reachable : rtc Pool.step (Pool.init 2) busy_pool.
Proof.
  eapply rtc_l; [apply Pool.step_call |]. simpl.
  eapply rtc_l; [apply Pool.step_call |]. simpl.
  eapply rtc_l; [apply Pool.step_call |]. simpl.
  eapply rtc_l; [by apply (Pool.step_enter _ 0 1) |]. simpl.
  eapply rtc_l; [by apply (Pool.step_enter _ 1 0) |]. simpl.
  eapply rtc_l;
    [by apply (Pool.step_exit _ 1 (Raised (ClientError "Connection reset by peer"))) |].
  simpl.
  eapply rtc_l; [by apply (Pool.step_enter _ 2 0) |]. simpl.
  apply rtc_refl.
Defined.

Lemma active_downloads_bounded_witness :
  (Pool.active busy_pool ≤ 2)%nat
  ∧ (Pool.value busy_pool + Pool.active busy_pool = 2)%nat
  ∧ ∀ i r, Pool.tasks busy_pool !! i = Some Pool.Active →
      ∃ p', Pool.step busy_pool p'
            ∧ Pool.value p' = S (Pool.value busy_pool)
            ∧ Pool.tasks p' !! i = Some (Pool.Finished r)
            ∧ S (Pool.active p') = Pool.active busy_pool.
Proof.
  exact (active_downloads_bounded 2 busy_pool busy_pool_reachable).
Defined.

(** * Further properties *)

(** ** File names and extensions *)

Section more_string_facts.
Import PyStr PyStrFacts.

Lemma replace_absent (c d : ascii) (s : string) :
  all_chars (λ a, negb (bool_decide (a = c))) s = true → replace c d s = s.
Proof.
  induction s as [|a s IH]; simpl; [done |].
  intros [Ha Hs]%andb_prop. rewrite (IH Hs).
  apply negb_true_iff in Ha. by rewrite Ha.
Qed.

Lemma replace_loop_absent (cs : list ascii) (d : ascii) (s : string) :
  all_chars (λ a, negb (bool_decide (a ∈ cs))) s = true →
  fold_left (λ f c, replace c d f) cs s = s.
Proof.
  induction cs as [|c cs IH]; intros Hs; cbn [fold_left]; [done |].
  rewrite replace_absent.
  - apply IH. eapply all_chars_impl; [|exact Hs].
    intros a Ha. apply negb_true_iff, bool_decide_eq_false.
    apply negb_true_iff, bool_decide_eq_false in Ha. set_solver.
  - eapply all_chars_impl; [|exact Hs].
    intros a Ha. apply negb_true_iff, bool_decide_eq_false.
    apply negb_true_iff, bool_decide_eq_false in Ha. set_solver.
Qed.

Lemma lstrip_first (P : ascii → bool) (s : string) (a : ascii) :
  str_first s = Some a → P a = false → lstrip P s = s.
Proof. destruct s as [|b s]; simpl; [done |]. intros [= ->] Ha. by rewrite Ha. Qed.

Lemma rstrip_last (P : ascii → bool) (s : string) (b : ascii) :
  str_last s = Some b → P b = false → rstrip P s = s.
Proof.
  induction s as [|a s IH]; [done |].
  destruct s as [|a' s].
  - simpl. intros [= ->] Hb. by rewrite Hb.
  - intros Hlast Hb. change (str_last (String a (String a' s)))
      with (str_last (String a' s)) in Hlast.
    specialize (IH Hlast Hb).
    change (rstrip P (String a (String a' s))) with
      (match rstrip P (String a' s) with
       | EmptyString => if P a then EmptyString else String a EmptyString
       | r => String a r
       end).
    by rewrite IH.
Qed.

Lemma strip_tidy (P : ascii → bool) (s : string) (a b : ascii) :
  str_first s = Some a → str_last s = Some b →
  P a = false → P b = false → strip P s = s.
Proof.
  intros Hf Hl Ha Hb. unfold strip.
  rewrite (lstrip_first P s a Hf Ha). by apply (rstrip_last P s b).
Qed.
End more_string_facts.

(** X3. A name of 1 to 255 characters that holds no invalid character and
    has neither whitespace nor a dot at either end comes back from
    [sanitize_filename] unchanged. *)
Theorem sanitize_filename_keeps_tidy_names (filename : string) :
  tidy_name filename = true → sanitize_filename filename = filename.
Proof.
  unfold tidy_name. intros [[Hvalid Hlen]%andb_prop Hends]%andb_prop.
  destruct (str_first filename) as [a|] eqn:Hf; [|done].
  destruct (str_last filename) as [b|] eqn:Hl; [|done].
  apply andb_prop in Hends as [[[Ha1 Ha2]%andb_prop Hb1]%andb_prop Hb2].
  apply negb_true_iff in Ha1, Ha2, Hb1, Hb2.
  apply bool_decide_eq_true in Hlen.
  unfold sanitize_filename. cbv zeta.
  rewrite replace_loop_absent by exact Hvalid.
  rewrite (strip_tidy PyStr.isspace filename a b) by done.
  rewrite (strip_tidy PyStr.isdot filename a b) by done.
  assert (Hshort : bool_decide (255 < PyStr.len filename)%nat = false)
    by (apply bool_decide_eq_false; lia).
  rewrite Hshort.
  clear Hshort.
  case_bool_decide as Hempty; [subst filename; discriminate | reflexivity].
Qed.

Lemma sanitize_filename_keeps_tidy_names_witness :
  sanitize_filename "mountain lake_1920x1080.final" = "mountain lake_1920x1080.final".
Proof.
  apply (sanitize_filename_keeps_tidy_names "mountain lake_1920x1080.final").
  vm_compute. reflexivity.
Defined.

Section length_facts.
Import PyStr PyStrFacts.

Lemma len_replace (c d : ascii) (s : string) : len (replace c d s) = len s.
Proof. unfold len. induction s as [|a s IH]; simpl; [done | by rewrite IH]. Qed.

Lemma len_replace_loop (cs : list ascii) (d : ascii) (s : string) :
  len (fold_left (λ f c, replace c d f) cs s) = len s.
Proof.
  revert s. induction cs as [|c cs IH]; intros s; cbn [fold_left]; [done |].
  by rewrite IH, len_replace.
Qed.

Lemma len_lstrip (P : ascii → bool) (s : string) : (len (lstrip P s) ≤ len s)%nat.
Proof.
  unfold len. induction s as [|a s IH]; simpl; [done |].
  destruct (P a); simpl; lia.
Qed.

Lemma len_rstrip (P : ascii → bool) (s : string) : (len (rstrip P s) ≤ len s)%nat.
Proof.
  unfold len. induction s as [|a s IH]; [done |].
  cbn [rstrip]. destruct (rstrip P s) as [|b r].
  - destruct (P a); simpl; lia.
  - simpl in *. lia.
Qed.

Lemma len_strip (P : ascii → bool) (s : string) : (len (strip P s) ≤ len s)%nat.
Proof.
  unfold strip. etrans; [apply len_rstrip | apply len_lstrip].
Qed.

Lemma len_cleaned_name (filename : string) :
  (len (cleaned_name filename) ≤ len filename)%nat.
Proof.
  unfold cleaned_name.
  etrans; [apply len_strip |]. etrans; [apply len_strip |].
  by rewrite len_replace_loop.
Qed.

Lemma len_splitext_ext (p : string) : (len (splitext p).2 ≤ len p)%nat.
Proof.
  rewrite <- (splitext_app p) at 2. rewrite len_app. lia.
Qed.
End length_facts.

(** X2. The result of [sanitize_filename] has at most 255 characters
    whenever the input has at most 255 characters, and more generally
    whenever the extension that [splitext] finds in the cleaned name has at
    most 255 characters. *)
Theorem sanitize_filename_length (filename : string) :
  (PyStr.len filename ≤ 255
   ∨ PyStr.len (PyStr.splitext (cleaned_name filename)).2 ≤ 255)%nat →
  (PyStr.len (sanitize_filename filename) ≤ 255)%nat.
Proof.
  intros Hshort. apply sanitize_filename_bounded. fold (cleaned_name filename).
  destruct Hshort as [Hin|Hext]; [|done].
  pose proof (len_splitext_ext (cleaned_name filename)).
  pose proof (len_cleaned_name filename). lia.
Qed.

Lemma sanitize_filename_length_witness :
  (PyStr.len (sanitize_filename (PyStr.times "a" 300 ++ ".jpg")) ≤ 255)%nat.
Proof.
  apply (sanitize_filename_length (PyStr.times "a" 300 ++ ".jpg")).
  right. vm_compute. lia.
Defined.

Section extension_facts.
Import PyStr PyStrFacts.

Lemma all_chars_true (s : string) : all_chars (λ _, true) s = true.
Proof. by induction s. Qed.

(** Where [rfind] finds the character, the rest of the string has none. *)
Lemma rfind_Some (c : ascii) (s : string) (i : nat) :
  rfind c s = Some i →
  ∃ rest, drop i s = String c rest
          ∧ all_chars (λ a, negb (bool_decide (a = c))) rest = true.
Proof.
  revert i. induction s as [|a s IH]; intros i; [done |]. cbn [rfind].
  destruct (rfind c s) as [j|] eqn:Hj.
  - intros [= <-]. destruct (IH j eq_refl) as (rest & Hdrop & Hrest).
    by exists rest.
  - case_bool_decide as Hac; [|done]. intros [= <-]. subst a.
    exists s. split; [done |].
    clear IH. revert Hj. induction s as [|b s IHs]; [done |]. cbn [rfind].
    destruct (rfind c s); [done |]. case_bool_decide as Hb; [done |].
    intros _. cbn [all_chars]. rewrite IHs by done.
    by rewrite bool_decide_false.
Qed.

Lemma rfind_None (c : ascii) (s : string) :
  rfind c s = None → all_chars (λ a, negb (bool_decide (a = c))) s = true.
Proof.
  induction s as [|b s IHs]; [done |]. cbn [rfind].
  destruct (rfind c s); [done |]. case_bool_decide as Hb; [done |].
  intros _. cbn [all_chars]. rewrite IHs by done.
  by rewrite bool_decide_false.
Qed.

Lemma drop_add (n m : nat) (s : string) : drop (n + m) s = drop m (drop n s).
Proof.
  revert s. induction n as [|n IH]; intros s; [done |].
  destruct s as [|a s]; simpl; [by destruct m | apply IH].
Qed.

Lemma before_clean (c : ascii) (s : string) :
  all_chars (λ a, negb (bool_decide (a = c))) (before c s) = true.
Proof.
  induction s as [|a s IH]; [done |]. cbn [before].
  case_bool_decide as Hac; [done |]. cbn [all_chars].
  by rewrite IH, bool_decide_false.
Qed.

Lemma before_absent (c : ascii) (s t : string) :
  all_chars (λ a, negb (bool_decide (a = c))) s = true →
  before c (s ++ String c t) = s.
Proof.
  induction s as [|a s IH]; intros Hs.
  - rewrite app_nil. cbn [before]. by rewrite bool_decide_true.
  - cbn [all_chars] in Hs. apply andb_prop in Hs as [Ha Hs].
    rewrite app_cons. cbn [before].
    apply negb_true_iff in Ha. rewrite Ha. by rewrite IH.
Qed.

Lemma before_id (c : ascii) (s : string) :
  all_chars (λ a, negb (bool_decide (a = c))) s = true → before c s = s.
Proof.
  induction s as [|a s IH]; [done |]. cbn [all_chars before].
  intros [Ha Hs]%andb_prop. apply negb_true_iff in Ha. by rewrite Ha, IH.
Qed.

(** The extension that [splitext] returns is empty or starts at the last
    dot of the path, after the last slash. *)
Lemma splitext_ext_shape (p : string) :
  (splitext p).2 = EmptyString
  ∨ ∃ rest, (splitext p).2 = String "." rest
      ∧ all_chars (λ a, negb (bool_decide (a = "."%char))) rest = true
      ∧ all_chars (λ a, negb (bool_decide (a = "/"%char))) rest = true
      ∧ (∀ P, all_chars P p = true → all_chars P rest = true).
Proof.
  unfold splitext.
  destruct (rfind "." p) as [dot|] eqn:Hdot; [|by left].
  destruct (bool_decide _ && negb _) eqn:Hcond; [|by left].
  right. cbn [snd].
  destruct (rfind_Some _ _ _ Hdot) as (rest & Hdrop & Hrest).
  exists rest. split; [done |]. split; [done |].
  assert (Hsub : ∀ P, all_chars P p = true → all_chars P rest = true).
  { intros P HP. apply (all_chars_drop P dot) in HP. rewrite Hdrop in HP.
    cbn [all_chars] in HP. by apply andb_prop in HP as [_ ?]. }
  split; [|done].
  apply andb_prop in Hcond as [Hstart _]. apply bool_decide_eq_true in Hstart.
  destruct (rfind "/" p) as [j|] eqn:Hslash.
  - destruct (rfind_Some _ _ _ Hslash) as (tail & Hdropj & Htail).
    assert (Hd : drop dot p = drop (dot - S j) tail).
    { replace dot with (S j + (dot - S j))%nat at 1 by lia.
      rewrite drop_add. replace (S j) with (j + 1)%nat by lia.
      by rewrite drop_add, Hdropj. }
    apply (all_chars_drop _ (dot - S j)) in Htail.
    rewrite <- Hd, Hdrop in Htail. cbn [all_chars] in Htail.
    by apply andb_prop in Htail as [_ ?].
  - apply Hsub. by apply rfind_None.
Qed.
End extension_facts.

(** X4. The extension taken from a URL is empty, or it is a dot followed by
    characters none of which is a dot, a slash or a question mark. *)
Theorem file_extension_shape (url : string) :
  get_file_extension_from_url url = EmptyString
  ∨ ∃ rest, get_file_extension_from_url url = String "." rest
      ∧ PyStr.all_chars (λ a, negb (ext_stop a)) rest = true.
Proof.
  unfold get_file_extension_from_url.
  destruct (splitext_ext_shape (PyStr.before "?" url))
    as [Hempty | (rest & Hext & Hdot & Hslash & Hsub)]; [by left | right].
  exists rest. split; [done |].
  pose proof (Hsub _ (before_clean "?" url)) as Hq.
  pose proof (PyStrFacts.all_chars_and _ _ _
                (PyStrFacts.all_chars_and _ _ _ Hdot Hslash) Hq) as Hall.
  eapply PyStrFacts.all_chars_impl; [|exact Hall].
  intros a [[Ha1 Ha2]%andb_prop Ha3]%andb_prop. unfold ext_stop.
  apply negb_true_iff in Ha1, Ha2, Ha3. by rewrite Ha1, Ha2, Ha3.
Qed.

(** X5. A query string does not change the extension: for a URL without
    question mark, appending one and anything after it gives the same
    extension. *)
Theorem file_extension_ignores_query (url query : string) :
  PyStr.all_chars (λ a, negb (bool_decide (a = "?"%char))) url = true →
  get_file_extension_from_url (url ++ String "?" query)
  = get_file_extension_from_url url.
Proof.
  intros Hurl. unfold get_file_extension_from_url.
  by rewrite before_absent, before_id.
Qed.

Lemma file_extension_ignores_query_witness :
  get_file_extension_from_url ("https://example.com/wallpaper.jpg" ++ "?size=large")
  = get_file_extension_from_url "https://example.com/wallpaper.jpg".
Proof.
  apply (file_extension_ignores_query "https://example.com/wallpaper.jpg" "size=large").
  vm_compute. reflexivity.
Defined.

(** ** More on [download_file] *)

Section download_file_more.
Context (E : env) (url destination : string) (timeout : Z).

(** Writing chunks to a file that is there appends them to its text and
    changes nothing else. *)
Lemma write_chunks_exact (cs : list string) (w : world) (c : string) :
  files w !! destination = Some c →
  ∃ us, mapM (write destination) cs w
        = (Ok us, World (<[destination := fold_left (λ acc chunk, acc ++ chunk) cs c]>
                           (files w))
                        (dirs w) (requests w) (log w)).
Proof.
  revert w c. induction cs as [|chunk cs IH]; intros w c Hc.
  - exists []. cbn [mapM fold_left]. rewrite insert_id by done. by destruct w.
  - cbn [mapM fold_left].
    set (w1 := World (<[destination := c ++ chunk]> (files w))
                     (dirs w) (requests w) (log w)).
    rewrite (io_bind_ok _ _ w tt w1) by (unfold write; by rewrite Hc).
    destruct (IH w1 (c ++ chunk)) as (us & Hrun).
    { subst w1. simpl. apply lookup_insert_eq. }
    rewrite (io_bind_ok _ _ w1 _ _ Hrun).
    exists (tt :: us). subst w1. simpl. by rewrite insert_insert_eq.
Qed.

(** The run of the [try] block on an answer with status 200. *)
Lemma download_file_try_200 (w : world) (r : response) (n : Z) :
  makedirs_error E (dirname destination) = None →
  net E (length (requests w)) url = Ok r →
  status r = 200%Z →
  content_length r = Ok n →
  open_error E destination = None →
  download_file_try E url destination w =
    let w' := World (<[destination := body_text (chunks r)]> (files w))
                    ({[dirname destination]} ∪ dirs w)
                    (requests w ++ [url]) (log w) in
    match stream_error r with
    | Some e => (Raise e, w')
    | None =>
        (Ok (true, None),
         World (files w') (dirs w') (requests w')
               (log w ++ [(INFO, "Successfully downloaded " ++ url ++ " to "
                                   ++ destination)]))
    end.
Proof.
  intros Hmk Hnet Hst Hlen Hopen. unfold download_file_try.
  rewrite (io_bind_ok _ _ w tt
             (World (files w) ({[dirname destination]} ∪ dirs w) (requests w) (log w)))
    by (unfold makedirs; by rewrite Hmk).
  rewrite (io_bind_ok _ _ _ r
             (World (files w) ({[dirname destination]} ∪ dirs w)
                    (requests w ++ [url]) (log w)))
    by (unfold session_get; simpl; by rewrite Hnet).
  rewrite Hst. cbn [Z.eqb Pos.eqb negb].
  rewrite (io_bind_ok _ _ _ n
             (World (files w) ({[dirname destination]} ∪ dirs w)
                    (requests w ++ [url]) (log w)))
    by (unfold lift; by rewrite Hlen).
  rewrite (io_bind_ok _ _ _ tt
             (World (<[destination := EmptyString]> (files w))
                    ({[dirname destination]} ∪ dirs w)
                    (requests w ++ [url]) (log w)))
    by (unfold open_wb; by rewrite Hopen).
  set (w1 := World (<[destination := EmptyString]> (files w))
                   ({[dirname destination]} ∪ dirs w)
                   (requests w ++ [url]) (log w)).
  destruct (write_chunks_exact (chunks r) w1 EmptyString) as (us & Hrun).
  { subst w1. simpl. apply lookup_insert_eq. }
  rewrite (io_bind_ok _ _ w1 _ _ Hrun). subst w1. cbn [files dirs requests log].
  rewrite insert_insert_eq. fold (body_text (chunks r)).
  destruct (stream_error r) as [e|]; [done |]. reflexivity.
Qed.
End download_file_more.

Section download_file_cases.
Context (E : env) (url destination : string) (timeout : Z).

Lemma touches_only_log (w w' : world) (l : level) (msg : string) :
  touches_only url destination w w' →
  touches_only url destination w (logger l msg w').2.
Proof.
  intros (Hreq & Hfiles & Hdirs & new & Hlog). unfold logger. simpl.
  repeat split; try done. exists (new ++ [(l, msg)])%list.
  by rewrite Hlog, <- app_assoc.
Qed.

(** Every run of the [try] block stays within [touches_only], and a normal
    end carries either success without message or failure with one. *)
Lemma download_file_try_cases (w : world) :
  touches_only url destination w (download_file_try E url destination w).2
  ∧ match (download_file_try E url destination w).1 with
    | Ok out => out = (true, None) ∨ ∃ msg, out = (false, Some msg)
    | Raise _ => True
    end.
Proof.
  unfold download_file_try.
  destruct (makedirs_error E (dirname destination)) as [e|] eqn:Hmk.
  { rewrite (io_bind_raise _ _ w e w) by (unfold makedirs; by rewrite Hmk).
    simpl. split; [|done]. repeat split; try done; [by left | by exists []; rewrite app_nil_r]. }
  set (w0 := World (files w) ({[dirname destination]} ∪ dirs w) (requests w) (log w)).
  rewrite (io_bind_ok _ _ w tt w0) by (unfold makedirs; by rewrite Hmk).
  set (w1 := World (files w) ({[dirname destination]} ∪ dirs w)
                   (requests w ++ [url]) (log w)).
  assert (Hbase : touches_only url destination w w1).
  { repeat split; try done; [by right | set_solver | by exists []; rewrite app_nil_r]. }
  destruct (net E (length (requests w)) url) as [r|e] eqn:Hnet.
  2:{ rewrite (io_bind_raise _ _ w0 e w1) by (unfold session_get; simpl; by rewrite Hnet).
      by split. }
  rewrite (io_bind_ok _ _ w0 r w1) by (unfold session_get; simpl; by rewrite Hnet).
  destruct (negb (status r =? 200)%Z).
  { split; [done |]. right. by eexists. }
  destruct (content_length r) as [n|e] eqn:Hlen.
  2:{ rewrite (io_bind_raise _ _ w1 e w1) by done. by split. }
  rewrite (io_bind_ok _ _ w1 n w1) by done.
  destruct (open_error E destination) as [e|] eqn:Hopen.
  { rewrite (io_bind_raise _ _ w1 e w1) by (unfold open_wb; by rewrite Hopen).
    by split. }
  set (w2 := World (<[destination := EmptyString]> (files w))
                   ({[dirname destination]} ∪ dirs w)
                   (requests w ++ [url]) (log w)).
  rewrite (io_bind_ok _ _ w1 tt w2) by (unfold open_wb; by rewrite Hopen).
  destruct (write_chunks_exact destination (chunks r) w2 EmptyString) as (us & Hrun).
  { subst w2. simpl. apply lookup_insert_eq. }
  rewrite (io_bind_ok _ _ w2 _ _ Hrun).
  match type of Hrun with _ = (_, ?w') => set (w3 := w') in * end.
  assert (H3 : touches_only url destination w w3).
  { subst w3 w2. repeat split; simpl; try done.
    - by right.
    - intros q Hq. by rewrite !lookup_insert_ne.
    - set_solver.
    - by exists []; rewrite app_nil_r. }
  destruct (stream_error r) as [e|]; simpl.
  - by split.
  - split; [|by left]. apply (touches_only_log w w3 INFO _ H3).
Qed.
End download_file_cases.

(** X6. What [download_file] returns is [(True, None)] or
    [(False, message)] and nothing else: success never carries a message,
    failure always does. This holds whatever the network, the disk and the
    stream raise within class [Exception]; cancellation is no [Exception] and
    is outside the model. *)
Theorem download_file_outcome_shape
    (E : env) (url destination : string) (timeout : Z) (w : world) :
  (download_file E url destination timeout w).1 = (true, None)
  ∨ ∃ msg, (download_file E url destination timeout w).1 = (false, Some msg).
Proof.
  pose proof (download_file_try_cases E url destination w) as [_ Hout].
  unfold download_file.
  destruct (download_file_try E url destination w) as [[out|e] w']; simpl in *.
  - destruct Hout as [->|[msg ->]]; [by left | right; by eexists].
  - right. by eexists.
Qed.

(** X8. One call of [download_file] makes at most one request, to the URL
    it was given, changes no file other than its destination, removes no
    directory, and only appends to the log. *)
Theorem download_file_touches_only
    (E : env) (url destination : string) (timeout : Z) (w : world) :
  touches_only url destination w (download_file E url destination timeout w).2.
Proof.
  pose proof (download_file_try_cases E url destination w) as [Htouch _].
  unfold download_file.
  destruct (download_file_try E url destination w) as [[out|e] w']; simpl in *;
    [done |].
  by apply (touches_only_log url destination w w' ERROR).
Qed.

(** X7. When the server answers 200, the length header can be read, the
    destination can be opened and the stream ends normally, [download_file]
    returns [(True, None)] after exactly one request; the file at the
    destination then holds the chunks of the body in order, whatever it held
    before. *)
Theorem download_file_saves_body
    (E : env) (url destination : string) (timeout : Z) (w : world) (r : response) :
  makedirs_error E (dirname destination) = None →
  net E (length (requests w)) url = Ok r →
  status r = 200%Z →
  sound_response r →
  open_error E destination = None →
  ∃ w', download_file E url destination timeout w = ((true, None), w')
        ∧ files w' !! destination = Some (body_text (chunks r))
        ∧ requests w' = (requests w ++ [url])%list
        ∧ dirname destination ∈ dirs w'.
Proof.
  intros Hmk Hnet Hst [[n Hlen] Hstream] Hopen. unfold download_file.
  rewrite (download_file_try_200 E url destination w r n) by done.
  cbv zeta. rewrite Hstream. eexists. split; [done |]. simpl.
  split; [apply lookup_insert_eq |]. split; [done | set_solver].
Qed.

Lemma download_file_saves_body_witness :
  ∃ w', download_file serving_env "https://images.example/Xq1.jpg"
          "/walls/Xq1.jpg" 60 empty_world = ((true, None), w')
        ∧ files w' !! "/walls/Xq1.jpg" = Some "JFIFdata"
        ∧ requests w' = ["https://images.example/Xq1.jpg"]
        ∧ "/walls" ∈ dirs w'.
Proof.
  apply (download_file_saves_body serving_env "https://images.example/Xq1.jpg"
           "/walls/Xq1.jpg" 60 empty_world
           (Response 200 "OK" (Ok 8%Z) ["JFIF"; "data"] None));
    try reflexivity.
  split; [by exists 8%Z | reflexivity].
Defined.

(** X9. When the stream of a 200 answer breaks off with a network error,
    [download_file] reports failure, but the file it opened stays at the
    destination with the chunks received so far. *)
Theorem download_file_leaves_partial_file
    (E : env) (url destination : string) (timeout : Z) (w : world) (r : response)
    (n : Z) (reason : string) :
  makedirs_error E (dirname destination) = None →
  net E (length (requests w)) url = Ok r →
  status r = 200%Z →
  content_length r = Ok n →
  open_error E destination = None →
  stream_error r = Some (ClientError reason) →
  ∃ w', download_file E url destination timeout w
        = ((false, Some ("Network error downloading " ++ url ++ ": " ++ reason)), w')
        ∧ files w' !! destination = Some (body_text (chunks r))
        ∧ path_exists destination w' = true.
Proof.
  intros Hmk Hnet Hst Hlen Hopen Hstream. unfold download_file.
  rewrite (download_file_try_200 E url destination w r n) by done.
  cbv zeta. rewrite Hstream. eexists. split; [done |]. simpl.
  assert (Hfile : <[destination := body_text (chunks r)]> (files w) !! destination
                  = Some (body_text (chunks r))) by apply lookup_insert_eq.
  split; [done |]. unfold path_exists. simpl. rewrite Hfile.
  apply orb_true_iff. left. apply bool_decide_eq_true. by eexists.
Qed.

Lemma download_file_leaves_partial_file_witness :
  ∃ w', download_file cut_off_env "https://images.example/Xq1.jpg"
          "/walls/Xq1.jpg" 60 empty_world
        = ((false, Some "Network error downloading https://images.example/Xq1.jpg: Response payload is not completed"), w')
        ∧ files w' !! "/walls/Xq1.jpg" = Some "JFIF"
        ∧ path_exists "/walls/Xq1.jpg" w' = true.
Proof.
  apply (download_file_leaves_partial_file cut_off_env
           "https://images.example/Xq1.jpg" "/walls/Xq1.jpg" 60 empty_world
           (Response 200 "OK" (Ok 4096%Z) ["JFIF"]
              (Some (ClientError "Response payload is not completed")))
           4096 "Response payload is not completed"); reflexivity.
Defined.

(** X10. Status 200 is the only one [download_file] accepts: an answer with
    any other status of the 2xx range is reported as an HTTP error as well,
    and no file is written. *)
Theorem download_file_rejects_other_2xx
    (E : env) (url destination : string) (timeout : Z) (w : world) (r : response) :
  makedirs_error E (dirname destination) = None →
  net E (length (requests w)) url = Ok r →
  (200 < status r < 300)%Z →
  ∃ w', download_file E url destination timeout w
        = ((false, Some ("HTTP error " ++ pretty (status r) ++ ": " ++ reason r)), w')
        ∧ files w' = files w
        ∧ log w' = log w.
Proof.
  intros Hmk Hnet Hst.
  assert (Hne : status r ≠ 200%Z) by lia.
  eexists. unfold download_file.
  rewrite (download_file_try_not_200 E url destination w r Hmk Hnet Hne).
  by repeat split.
Qed.

Lemma download_file_rejects_other_2xx_witness :
  ∃ w', download_file partial_content_env "https://images.example/Xq1.jpg"
          "/walls/Xq1.jpg" 60 empty_world
        = ((false, Some "HTTP error 206: Partial Content"), w')
        ∧ files w' = ∅
        ∧ log w' = [].
Proof.
  apply (download_file_rejects_other_2xx partial_content_env
           "https://images.example/Xq1.jpg" "/walls/Xq1.jpg" 60 empty_world
           (Response 206 "Partial Content" (Ok 4%Z) ["JFIF"] None));
    [reflexivity | reflexivity | simpl; lia].
Defined.

(** ** What a download step may change *)

Lemma extends_world_refl (w : world) : extends_world w w.
Proof. by repeat split. Qed.

Lemma extends_world_trans (w1 w2 w3 : world) :
  extends_world w1 w2 → extends_world w2 w3 → extends_world w1 w3.
Proof.
  intros (Hf1 & Hd1 & Hr1 & Hl1) (Hf2 & Hd2 & Hr2 & Hl2).
  split; [intros q c Hq; by apply Hf2, Hf1 |].
  split; [set_solver |]. split; by etrans.
Qed.

Lemma extends_world_exists (w w' : world) (p : string) :
  extends_world w w' → path_exists p w = true → path_exists p w' = true.
Proof.
  intros (Hf & Hd & _) Hex. unfold path_exists in *.
  apply orb_true_iff in Hex as [Hex|Hex]; apply orb_true_iff.
  - left. apply bool_decide_eq_true in Hex as [c Hc].
    apply bool_decide_eq_true. exists c. by apply Hf.
  - right. apply bool_decide_eq_true in Hex. apply bool_decide_eq_true.
    set_solver.
Qed.

Lemma logger_extends (l : level) (msg : string) (w : world) :
  extends_world w (logger l msg w).2 ∧ requests (logger l msg w).2 = requests w.
Proof.
  unfold logger. simpl. repeat split; try done. by apply prefix_app_r.
Qed.

(** [download_file] into a destination that does not exist yet extends the
    world by at most one request. *)
Lemma download_file_extends (E : env) (url destination : string) (timeout : Z)
    (w : world) :
  files w !! destination = None →
  extends_world w (download_file E url destination timeout w).2
  ∧ (length (requests (download_file E url destination timeout w).2)
     ≤ S (length (requests w)))%nat.
Proof.
  intros Hnew.
  assert (Htouch : touches_only url destination w
                     (download_file E url destination timeout w).2).
  { pose proof (download_file_try_cases E url destination w) as [Htouch _].
    unfold download_file.
    destruct (download_file_try E url destination w) as [[out|e] w']; simpl in *;
      [done |].
    by apply (touches_only_log url destination w w' ERROR). }
  destruct Htouch as (Hreq & Hfiles & Hdirs & new & Hlog).
  split.
  - split.
    { intros q c Hq. rewrite Hfiles; [done |]. intros ->. congruence. }
    split; [done |]. split.
    + destruct Hreq as [->| ->]; [done | by apply prefix_app_r].
    + rewrite Hlog. by apply prefix_app_r.
  - destruct Hreq as [->| ->]; [lia |]. rewrite length_app. simpl. lia.
Qed.

Lemma fetch_to_extends (E : env) (url output_path : string) (w : world) :
  files w !! output_path = None →
  extends_world w (fetch_to E url output_path w).2
  ∧ (length (requests (fetch_to E url output_path w).2)
     ≤ S (length (requests w)))%nat.
Proof.
  intros Hnew. destruct (download_file_extends E url output_path 60 w Hnew)
    as [Hext Hlen].
  unfold fetch_to.
  destruct (download_file E url output_path 60 w) as [[[] err] w1]; [done |].
  simpl in Hext, Hlen.
  pose proof (logger_extends ERROR
                ("Failed to download wallpaper: " ++ default "None" err) w1)
    as [Hl Hr].
  unfold logger in *. simpl in *.
  split; [by eapply extends_world_trans | done].
Qed.

Lemma register_download_extends (E : env) (v : pyval) (w : world) :
  extends_world w (unsplash_register_download E v w).2
  ∧ files (unsplash_register_download E v w).2 = files w
  ∧ (length (requests (unsplash_register_download E v w).2)
     ≤ S (length (requests w)))%nat
  ∧ ∃ u, (unsplash_register_download E v w).1 = Ok u.
Proof.
  assert (Hshape : ∀ w' : world,
            files w' = files w → dirs w' = dirs w →
            (requests w' = requests w ∨ ∃ u, requests w' = (requests w ++ [u])%list) →
            (log w' = log w ∨ ∃ r, log w' = (log w ++ [r])%list) →
            extends_world w w' ∧ files w' = files w
            ∧ (length (requests w') ≤ S (length (requests w)))%nat).
  { intros w' Hf Hd Hr Hl. split; [|split; [done |]].
    - split; [by rewrite Hf |]. split; [by rewrite Hd |]. split.
      + destruct Hr as [->|[u ->]]; [done | by apply prefix_app_r].
      + destruct Hl as [->|[r ->]]; [done | by apply prefix_app_r].
    - destruct Hr as [->|[u ->]]; [lia |]. rewrite length_app. simpl. lia. }
  unfold unsplash_register_download.
  destruct v as [| | |u| |];
    try (unfold logger; simpl;
         destruct (Hshape (World (files w) (dirs w) (requests w)
                     (log w ++ [(WARNING,
                       "Failed to register download with Unsplash API: "
                         ++ "Constructor parameter should be str")])))
           as (? & ? & ?); simpl; eauto 10).
  unfold session_get. destruct (net E (length (requests w)) u) as [r|e]; simpl.
  - destruct (Hshape (World (files w) (dirs w) (requests w ++ [u]) (log w)))
      as (? & ? & ?); simpl; eauto 10.
  - destruct (Hshape (World (files w) (dirs w) (requests w ++ [u])
                (log w ++ [(WARNING,
                  "Failed to register download with Unsplash API: " ++ exn_str e)])))
      as (? & ? & ?); simpl; eauto 10.
Qed.

Section unsplash_step_extends.
Context `{PyRuntime} (E : env) (download_directory : string)
        (api_key : option string) (wallpaper_data : gmap string pyval).

Local Abbreviation step :=
  (unsplash_download_wallpaper E download_directory api_key wallpaper_data).

Lemma path_missing_no_file (p : string) (w : world) :
  path_exists p w = false → files w !! p = None.
Proof.
  unfold path_exists. intros [Hf _]%orb_false_iff.
  apply bool_decide_eq_false in Hf.
  destruct (files w !! p) eqn:Hp; [|done]. exfalso. apply Hf. by eexists.
Qed.

Lemma unsplash_step_extends (w : world) :
  extends_world w (step w).2
  ∧ (length (requests (step w).2) ≤ length (requests w) + 2)%nat
  ∧ (api_key_set api_key = false →
     length (requests (step w).2) ≤ length (requests w) + 1)%nat.
Proof.
  assert (Hsame : ∀ w' : world,
            extends_world w w' → requests w' = requests w →
            extends_world w w'
            ∧ (length (requests w') ≤ length (requests w) + 2)%nat
            ∧ (api_key_set api_key = false →
               length (requests w') ≤ length (requests w) + 1)%nat).
  { intros w' Hext ->. split; [done |]. split; [lia |]. intros _. lia. }
  unfold unsplash_download_wallpaper.
  destruct (truthy (unsplash_resolve wallpaper_data)); cbn [negb].
  2:{ apply Hsame; [apply logger_extends | done]. }
  destruct (unsplash_filename wallpaper_data) as [f|e].
  2:{ rewrite (io_bind_raise _ _ w e w) by done. apply Hsame; [apply extends_world_refl | done]. }
  rewrite (io_bind_ok _ _ w f w) by done.
  destruct (file_ext (unsplash_resolve wallpaper_data)) as [x|e].
  2:{ rewrite (io_bind_raise _ _ w e w) by done. apply Hsame; [apply extends_world_refl | done]. }
  rewrite (io_bind_ok _ _ w x w) by done.
  destruct (category_path download_directory _) as [d|e].
  2:{ rewrite (io_bind_raise _ _ w e w) by done. apply Hsame; [apply extends_world_refl | done]. }
  rewrite (io_bind_ok _ _ w d w) by done.
  destruct (makedirs_error E d) as [e|] eqn:Hmk.
  { rewrite (io_bind_raise _ _ w e w) by (unfold makedirs; by rewrite Hmk).
    apply Hsame; [apply extends_world_refl | done]. }
  set (w0 := World (files w) ({[d]} ∪ dirs w) (requests w) (log w)).
  assert (H0 : extends_world w w0).
  { split; [done |]. split; [apply union_subseteq_r |]. by split. }
  rewrite (io_bind_ok _ _ w tt w0) by (unfold makedirs; by rewrite Hmk).
  rewrite (io_bind_ok _ _ w0 w0 w0) by done.
  set (p := path_join d (add_resolution wallpaper_data f ++ x)).
  destruct (path_exists p w0) eqn:Hex.
  { apply Hsame; [|done].
    eapply extends_world_trans; [exact H0 |]. apply logger_extends. }
  apply path_missing_no_file in Hex.
  destruct (truthy (dict_get wallpaper_data "download_url" PNone)
            && api_key_set api_key) eqn:Hreg.
  - destruct (register_download_extends E
                (dict_get wallpaper_data "download_url" PNone) w0)
      as (Hext1 & Hfiles1 & Hlen1 & u & Hok).
    destruct (unsplash_register_download E _ w0) as [ru w1] eqn:Hrun.
    simpl in Hext1, Hfiles1, Hlen1, Hok. subst ru.
    rewrite (io_bind_ok _ _ w0 u w1) by done.
    destruct (as_str (unsplash_resolve wallpaper_data) "split") as [url|e].
    2:{ rewrite (io_bind_raise _ _ w1 e w1) by done. simpl.
        split; [by eapply extends_world_trans |]. split; [simpl in *; lia |].
        intros Hkey. rewrite Hkey, andb_false_r in Hreg. done. }
    rewrite (io_bind_ok _ _ w1 url w1) by done.
    destruct (fetch_to_extends E url p w1) as [Hext2 Hlen2];
      [by rewrite Hfiles1 |].
    split; [eapply extends_world_trans; [exact H0 |];
            by eapply extends_world_trans |].
    split; [simpl in *; lia |].
    intros Hkey. rewrite Hkey, andb_false_r in Hreg. done.
  - rewrite (io_bind_ok _ _ w0 tt w0) by done.
    destruct (as_str (unsplash_resolve wallpaper_data) "split") as [url|e].
    2:{ rewrite (io_bind_raise _ _ w0 e w0) by done. by apply Hsame. }
    rewrite (io_bind_ok _ _ w0 url w0) by done.
    destruct (fetch_to_extends E url p w0) as [Hext2 Hlen2]; [done |].
    split; [by eapply extends_world_trans |]. simpl in *. split; [lia |].
    intros _. lia.
Qed.
End unsplash_step_extends.

(** X11. A download step of the Unsplash scraper never removes or rewrites
    a file that is already on disk and never removes a directory; it adds at
    most two requests (registration and image) to those made before, and at
    most one when no API key is set. *)
Theorem unsplash_step_only_adds `{PyRuntime} (E : env)
    (download_directory : string) (api_key : option string)
    (wallpaper_data : gmap string pyval) (w : world) :
  let w' := (unsplash_download_wallpaper E download_directory api_key
               wallpaper_data w).2 in
  (∀ q c, files w !! q = Some c → files w' !! q = Some c)
  ∧ dirs w ⊆ dirs w'
  ∧ requests w `prefix_of` requests w'
  ∧ (length (requests w') ≤ length (requests w) + 2)%nat
  ∧ (api_key_set api_key = false →
     length (requests w') ≤ length (requests w) + 1)%nat.
Proof.
  destruct (unsplash_step_extends E download_directory api_key wallpaper_data w)
    as ((Hf & Hd & Hr & _) & Hlen & Hkey).
  cbv zeta. by repeat split.
Qed.

(** ** The download loop of the example scripts *)

Section download_each_facts.
Context (step : gmap string pyval → io (option string)).

(** The loop returns what it was given plus at most one path per candidate. *)
Lemma download_each_length (wallpapers : list (gmap string pyval))
    (acc out : list string) (w w1 : world) :
  download_each step wallpapers acc w = (Ok out, w1) →
  (length out ≤ length acc + length wallpapers)%nat.
Proof.
  revert acc w. induction wallpapers as [|wd rest IH]; intros acc w Hrun.
  - injection Hrun as <- _. simpl. lia.
  - cbn [download_each] in Hrun. io_inv Hrun.
    apply IH in Hrun. destruct a; rewrite ?length_app in Hrun; simpl in *; lia.
Qed.
End download_each_facts.

Section unsplash_second_pass.
Context `{PyRuntime} (E : env) (download_directory : string)
        (api_key : option string).

Local Abbreviation step :=
  (unsplash_download_wallpaper E download_directory api_key).

Local Abbreviation on_disk := (on_disk E download_directory).

Lemma on_disk_extends (w w' : world) (wd : gmap string pyval) (p : string) :
  extends_world w w' → on_disk w wd p → on_disk w' wd p.
Proof.
  intros Hext (Hurl & d & Hpath & Hmk & Hex).
  split; [done |]. exists d. repeat split; try done.
  by eapply extends_world_exists.
Qed.

(** A pass in which every candidate gave a path leaves every one of them on
    disk. *)
Lemma first_pass_on_disk (wallpapers : list (gmap string pyval))
    (acc out : list string) (w w1 : world) :
  download_each step wallpapers acc w = (Ok out, w1) →
  length out = (length acc + length wallpapers)%nat →
  extends_world w w1
  ∧ ∃ paths, out = (acc ++ paths)%list ∧ Forall2 (on_disk w1) wallpapers paths.
Proof.
  revert acc w. induction wallpapers as [|wd rest IH]; intros acc w Hrun Hlen.
  - injection Hrun as <- <-. split; [apply extends_world_refl |].
    exists []. by rewrite app_nil_r.
  - cbn [download_each] in Hrun. io_inv Hrun.
    pose proof (unsplash_step_extends E download_directory api_key wd w)
      as [Hext _]. rewrite Hstep in Hext. simpl in Hext.
    destruct a as [p|].
    + destruct (IH _ _ Hrun) as (Hext' & paths & -> & Hall).
      { rewrite Hlen, length_app. simpl. lia. }
      split; [by eapply extends_world_trans |].
      exists (p :: paths). split; [by rewrite <- app_assoc |].
      constructor; [|done].
      apply (on_disk_extends w0 w1); [done |].
      apply unsplash_returned_path_exists in Hstep as (Hurl & d & Hp & Hmk & Hex).
      split; [done |]. by exists d.
    + apply download_each_length in Hrun. simpl in *. lia.
Qed.

(** With every file on disk, a pass returns the same paths and neither
    fetches nor writes anything. *)
Lemma pass_over_files_on_disk (wallpapers : list (gmap string pyval))
    (paths acc : list string) (v : world) :
  Forall2 (on_disk v) wallpapers paths →
  ∃ v', download_each step wallpapers acc v = (Ok (acc ++ paths)%list, v')
        ∧ requests v' = requests v ∧ files v' = files v.
Proof.
  revert paths acc v.
  induction wallpapers as [|wd rest IH]; intros paths acc v Hall.
  - apply Forall2_nil_inv_l in Hall as ->.
    exists v. by rewrite app_nil_r.
  - apply Forall2_cons_inv_l in Hall as (p & paths' & Hwd & Hall & ->).
    destruct Hwd as (Hurl & d & Hpath & Hmk & Hex).
    pose proof (unsplash_existing_file E download_directory api_key wd v d p
                  Hurl Hpath Hmk Hex) as Hstep.
    cbn [download_each]. rewrite (io_bind_ok _ _ v _ _ Hstep).
    match type of Hstep with _ = (_, ?w0) => set (v1 := w0) in * end.
    assert (Hext : extends_world v v1).
    { split; [done |]. split; [apply union_subseteq_r |].
      split; [done | by apply prefix_app_r]. }
    destruct (IH paths' (acc ++ [p])%list v1) as (v' & Hrun & Hreq & Hfiles).
    { eapply Forall2_impl; [exact Hall |].
      intros wd' p' Hd. by eapply on_disk_extends. }
    exists v'. split; [by rewrite Hrun, <- app_assoc |]. by split.
Qed.
End unsplash_second_pass.

(** X12. Running the download loop of the example scripts a second time
    costs nothing: if a pass over the candidates with the Unsplash download
    step returned a path for every candidate, a second pass from the
    resulting world returns the same paths, makes no request and changes no
    file. *)
Theorem unsplash_second_pass_is_free `{PyRuntime} (E : env)
    (download_directory : string) (api_key : option string)
    (wallpapers : list (gmap string pyval)) (paths : list string) (w w1 : world) :
  download_each (unsplash_download_wallpaper E download_directory api_key)
    wallpapers [] w = (Ok paths, w1) →
  length paths = length wallpapers →
  ∃ w2,
    download_each (unsplash_download_wallpaper E download_directory api_key)
      wallpapers [] w1 = (Ok paths, w2)
    ∧ requests w2 = requests w1
    ∧ files w2 = files w1.
Proof.
  intros Hrun Hlen.
  destruct (first_pass_on_disk E download_directory api_key wallpapers [] paths
              w w1 Hrun Hlen) as (_ & ps & Hps & Hall).
  rewrite app_nil_l in Hps. subst ps.
  destruct (pass_over_files_on_disk E download_directory api_key wallpapers
              paths [] w1 Hall) as (w2 & Hrun2 & Hreq & Hfiles).
  exists w2. by rewrite app_nil_l in Hrun2.
Qed.

Lemma unsplash_second_pass_is_free_witness :
  ∃ w2,
    download_each
      (@unsplash_download_wallpaper posix_runtime serving_env pictures (Some "key"))
      [sunset] [] after_first_pass = (Ok [sunset_path], w2)
    ∧ requests w2 = requests after_first_pass
    ∧ files w2 = files after_first_pass.
Proof.
  apply (@unsplash_second_pass_is_free posix_runtime serving_env pictures
           (Some "key") [sunset] [sunset_path] empty_world after_first_pass).
  - vm_compute. reflexivity.
  - reflexivity.
Defined.

(** X13. A download that breaks off is taken for a finished one later: when
    the stream of the image ends with a network error, the Unsplash download
    step returns [None] but leaves the partial file at the destination, and
    the next step for the same candidate returns that path as a success
    without any request. (Stated for a step that makes no registration
    request.) *)
Theorem unsplash_partial_file_counts_as_done `{PyRuntime} (E : env)
    (download_directory : string) (api_key : option string)
    (wallpaper_data : gmap string pyval) (w : world)
    (url d p reason : string) (r : response) (n : Z) :
  unsplash_resolve wallpaper_data = PStr url →
  url ≠ EmptyString →
  unsplash_output_path download_directory wallpaper_data = Ok (d, p) →
  p ≠ d →
  truthy (dict_get wallpaper_data "download_url" PNone) && api_key_set api_key
    = false →
  makedirs_error E d = None →
  makedirs_error E (dirname p) = None →
  path_exists p w = false →
  net E (length (requests w)) url = Ok r →
  status r = 200%Z →
  content_length r = Ok n →
  open_error E p = None →
  stream_error r = Some (ClientError reason) →
  ∃ w1 w2,
    unsplash_download_wallpaper E download_directory api_key wallpaper_data w
      = (Ok None, w1)
    ∧ files w1 !! p = Some (body_text (chunks r))
    ∧ unsplash_download_wallpaper E download_directory api_key wallpaper_data w1
      = (Ok (Some p), w2)
    ∧ requests w2 = requests w1.
Proof.
  intros Hres Hurl Hpath Hpd Hreg Hmkd Hmkp Hex Hnet Hst Hlen Hopen Hstream.
  assert (Htruthy : truthy (unsplash_resolve wallpaper_data) = true).
  { rewrite Hres. simpl. by rewrite bool_decide_false. }
  destruct (unsplash_output_path_inv download_directory wallpaper_data d p Hpath)
    as (f & x & Hf & Hx & Hd & Hp).
  set (w0 := World (files w) ({[d]} ∪ dirs w) (requests w) (log w)).
  assert (Hex0 : path_exists p w0 = false).
  { unfold path_exists in *. simpl.
    apply orb_false_iff in Hex as [Hfile Hdir]. rewrite Hfile. simpl.
    apply bool_decide_eq_false in Hdir. apply bool_decide_eq_false.
    intros [Hin|?]%elem_of_union; [|done].
    by apply elem_of_singleton in Hin. }
  (* the first step *)
  assert (Hfirst : ∃ w1,
    unsplash_download_wallpaper E download_directory api_key wallpaper_data w
      = (Ok None, w1)
    ∧ files w1 !! p = Some (body_text (chunks r))).
  { unfold unsplash_download_wallpaper. rewrite Htruthy. cbn [negb].
    rewrite (io_bind_ok _ _ w f w) by (unfold lift; by rewrite Hf).
    rewrite (io_bind_ok _ _ w x w) by (unfold lift; by rewrite Hx).
    rewrite (io_bind_ok _ _ w d w) by (unfold lift; by rewrite Hd).
    rewrite (io_bind_ok _ _ w tt w0) by (unfold makedirs; by rewrite Hmkd).
    rewrite (io_bind_ok _ _ w0 w0 w0) by done.
    rewrite <- Hp, Hex0, Hreg.
    rewrite (io_bind_ok _ _ w0 tt w0) by done.
    rewrite (io_bind_ok _ _ w0 url w0) by (unfold lift; by rewrite Hres).
    unfold fetch_to, download_file.
    rewrite (download_file_try_200 E url p w0 r n) by done.
    cbv zeta. rewrite Hstream. simpl. eexists. split; [done |]. simpl.
    apply lookup_insert_eq. }
  destruct Hfirst as (w1 & Hstep1 & Hfile).
  exists w1.
  assert (Hex1 : path_exists p w1 = true).
  { unfold path_exists. rewrite Hfile. apply orb_true_iff. left.
    apply bool_decide_eq_true. by eexists. }
  eexists. split; [done |]. split; [done |].
  split; [exact (unsplash_existing_file E download_directory api_key
                   wallpaper_data w1 d p Htruthy Hpath Hmkd Hex1) | done].
Qed.

Lemma unsplash_partial_file_counts_as_done_witness :
  ∃ w1 w2,
    @unsplash_download_wallpaper posix_runtime cut_off_env pictures None
      sunset empty_world = (Ok None, w1)
    ∧ files w1 !! sunset_path = Some "JFIF"
    ∧ @unsplash_download_wallpaper posix_runtime cut_off_env pictures None
        sunset w1 = (Ok (Some sunset_path), w2)
    ∧ requests w2 = requests w1.
Proof.
  apply (@unsplash_partial_file_counts_as_done posix_runtime cut_off_env
           pictures None sunset empty_world
           "https://images.example/Xq1.jpg?w=1080" sunset_dir sunset_path
           "Response payload is not completed"
           (Response 200 "OK" (Ok 4096%Z) ["JFIF"]
              (Some (ClientError "Response payload is not completed")))
           4096);
    try (vm_compute; reflexivity); discriminate.
Defined.

(** ** The Pixabay download step *)

(** X14. The Pixabay download step has the same short cut as the Unsplash
    one: when the destination it computes exists, it returns that path after
    one log record, makes no request and leaves the files as they are. *)
Theorem pixabay_existing_file_no_fetch `{PyRuntime} (E : env)
    (download_directory : string) (wallpaper_data : gmap string pyval)
    (w : world) (d p : string) :
  truthy (pixabay_resolve wallpaper_data) = true →
  pixabay_output_path download_directory wallpaper_data = Ok (d, p) →
  makedirs_error E d = None →
  path_exists p w = true →
  pixabay_download_wallpaper E download_directory wallpaper_data w
  = (Ok (Some p),
     World (files w) ({[d]} ∪ dirs w) (requests w)
           (log w ++ [(INFO, "Wallpaper already exists: " ++ p)])).
Proof.
  intros Hurl Hpath Hmk Hex.
  unfold pixabay_output_path, mbind, result_bind, mret, result_ret in Hpath.
  destruct (file_ext (pixabay_resolve wallpaper_data)) as [x|] eqn:Hx; [|done].
  destruct (category_path download_directory _) as [d'|] eqn:Hd; [|done].
  injection Hpath as -> <-.
  unfold pixabay_download_wallpaper. rewrite Hurl. cbn [negb].
  rewrite (io_bind_ok _ _ w x w) by (unfold lift; by rewrite Hx).
  rewrite (io_bind_ok _ _ w d w) by (unfold lift; by rewrite Hd).
  set (w0 := World (files w) ({[d]} ∪ dirs w) (requests w) (log w)).
  rewrite (io_bind_ok _ _ w tt w0) by (unfold makedirs; by rewrite Hmk).
  rewrite (io_bind_ok _ _ w0 w0 w0) by done.
  assert (Hex0 : path_exists
            (path_join d (add_resolution wallpaper_data
               (sanitize_filename
                  (py_str (dict_get wallpaper_data "title" (PStr "pixabay"))
                     ++ "_" ++ py_str (dict_get wallpaper_data "id" (PStr ""))))
               ++ x)) w0 = true).
  { apply (extends_world_exists w w0); [|done].
    split; [done |]. split; [apply union_subseteq_r |]. by split. }
  rewrite Hex0. reflexivity.
Qed.

Lemma pixabay_existing_file_no_fetch_witness :
  @pixabay_download_wallpaper posix_runtime serving_env pictures lake lake_on_disk
  = (Ok (Some lake_path),
     World (files lake_on_disk) ({[sunset_dir]} ∪ dirs lake_on_disk) []
           [(INFO, "Wallpaper already exists: " ++ lake_path)]).
Proof.
  apply (@pixabay_existing_file_no_fetch posix_runtime serving_env pictures
           lake lake_on_disk sunset_dir lake_path); vm_compute; reflexivity.
Defined.

(** ** More on the page loop of [main] *)

Section page_loop_facts.
Context (sc : scraper) (args : cli_args) (l : Z).
Hypothesis Hlimit : cli_limit args = Some l.
Hypothesis Hpos : (0 < l)%Z.

Lemma over_limit_positive (n : nat) :
  over_limit (cli_limit args) n = bool_decide (l < Z.of_nat n)%Z.
Proof.
  rewrite Hlimit. unfold over_limit.
  destruct (Z.eqb_spec l 0) as [->|_]; [lia | done].
Qed.

(** One iteration keeps [all_wallpapers] within the limit. *)
Lemma page_step_within_limit (page : Z) (st st' : run_state) (go : bool) :
  (Z.of_nat (length (all_wallpapers st)) ≤ l)%Z →
  page_step sc args page st = Ok (go, st') →
  (Z.of_nat (length (all_wallpapers st')) ≤ l)%Z.
Proof.
  intros Hinv. unfold page_step, mbind, result_bind.
  destruct (get_wallpaper_list sc (listing_calls st) _) as [wallpapers|]; [|done].
  rewrite over_limit_positive. case_bool_decide as Hover.
  - intros [= _ <-]. simpl. rewrite Hlimit. simpl.
    unfold list_slice_to. rewrite bool_decide_true by lia.
    rewrite length_take. lia.
  - destruct wallpapers as [|wp wps].
    + intros [= _ <-]. simpl. by rewrite app_nil_r in *.
    + destruct (gather_downloads sc _ None); [|done].
      intros [= _ <-]. simpl. lia.
Qed.

Lemma page_loop_within_limit (pages : list Z) (st st' : run_state) :
  (Z.of_nat (length (all_wallpapers st)) ≤ l)%Z →
  page_loop sc args pages st = Ok st' →
  (Z.of_nat (length (all_wallpapers st')) ≤ l)%Z.
Proof.
  revert st. induction pages as [|page rest IH]; intros st Hinv.
  - by intros [= <-].
  - cbn [page_loop]. unfold mbind, result_bind.
    destruct (page_step sc args page st) as [[go st1]|] eqn:Hstep; [|done].
    pose proof (page_step_within_limit page st st1 go Hinv Hstep) as Hinv1.
    destruct go; [by apply IH | by intros [= <-]].
Qed.
End page_loop_facts.

(** X15. What the limit of the command line does bound: when the limit is
    positive and the run ends normally, [all_wallpapers] holds at most that
    many candidates. *)
Theorem limit_bounds_all_wallpapers (sc : scraper) (args : cli_args) (l : Z)
    (st : run_state) :
  cli_limit args = Some l → (0 < l)%Z →
  main_loop sc args = Ok st →
  (Z.of_nat (length (all_wallpapers st)) ≤ l)%Z.
Proof.
  intros Hlimit Hpos Hrun. unfold main_loop in Hrun.
  eapply (page_loop_within_limit sc args l Hlimit Hpos); [|exact Hrun].
  simpl. lia.
Qed.

Lemma limit_bounds_all_wallpapers_witness :
  ∃ st, main_loop rare_query_source rare_query_args = Ok st
        ∧ (Z.of_nat (length (all_wallpapers st)) ≤ 5)%Z.
Proof.
  eexists. split; [vm_compute; reflexivity |].
  eapply (limit_bounds_all_wallpapers rare_query_source rare_query_args 5);
    [reflexivity | lia | vm_compute; reflexivity].
Defined.

(** X16. When the first page already lists more candidates than a positive
    limit allows, the run ends at once: one listing call, no download
    started, nothing downloaded. *)
Theorem first_page_over_limit_downloads_nothing (sc : scraper) (args : cli_args)
    (l : Z) (wallpapers : list (gmap string pyval)) :
  cli_limit args = Some l → (0 < l)%Z →
  (1 ≤ cli_pages args)%Z →
  get_wallpaper_list sc 0 (Some (page_args args 1)) = Ok wallpapers →
  (l < Z.of_nat (length wallpapers))%Z →
  main_loop sc args = Ok (RunState (take (Z.to_nat l) wallpapers) [] 1 0).
Proof.
  intros Hlimit Hpos Hpages Hlist Hmany. unfold main_loop.
  assert (Hseq : seqZ 1 (cli_pages args) = 1%Z :: seqZ 2 (cli_pages args - 1)).
  { by rewrite (seqZ_cons 1 (cli_pages args)) by lia. }
  rewrite Hseq. cbn [page_loop]. unfold page_step at 1.
  cbn [listing_calls all_wallpapers total_downloaded downloads_started].
  unfold page_args in Hlist. rewrite Hlist.
  unfold mbind, result_bind. rewrite app_nil_l.
  rewrite (over_limit_positive args l Hlimit Hpos).
  rewrite bool_decide_true by done. simpl. rewrite Hlimit. simpl.
  unfold list_slice_to. by rewrite bool_decide_true by lia.
Qed.

Lemma first_page_over_limit_downloads_nothing_witness :
  main_loop plentiful_source rare_query_args
  = Ok (RunState (take 5 ((λ i : nat, candidate (pretty i)) <$> seq 0 30)) [] 1 0).
Proof.
  apply (first_page_over_limit_downloads_nothing plentiful_source rare_query_args
           5 ((λ i : nat, candidate (pretty i)) <$> seq 0 30));
    try reflexivity; simpl; lia.
Defined.

(** ** More on the rate limiter *)

(** X17. Any number of calls of [_respect_rate_limit] made one after the
    other on one limiter, computed in binary64, record dispatch times that
    are pairwise at least [rate_limit * (1 - 2^-53) - early] apart, the first
    of them that far after the dispatch time recorded before the series.
    Here [early] bounds how far ahead of the requested sleep the event loop
    resumes a call; the first call starts with the clock not behind the
    recorded dispatch time. *)
Theorem sequential_series_is_spaced (l : RateLimiter.limiter) (now early : Q)
    (calls : list (Q * Q)) :
  (RateLimiter.last_request_time l <= now)%Q →
  Forall (λ c, (0 <= c.1)%Q ∧ (- early <= c.2)%Q) calls →
  spaced_from
    (RateLimiter.rate_limit l * (1 - Binary64.unit_roundoff) - early)%Q
    (RateLimiter.last_request_time l) (run_calls l now calls).
Proof.
  intros Hclock Hcalls. revert l now Hclock.
  induction Hcalls as [|[gap late] rest [Hgap Hlate] Hrest IH];
    intros l now Hclock.
  - done.
  - cbn [run_calls spaced_from]. cbn [fst snd] in Hgap, Hlate.
    destruct (RateLimiter64Facts.respect_rate_limit_alone l (now + gap)%Q late
                early) as (Hrec & Hrate & Hmono & Hspace); [lra | done |].
    split; [exact Hspace |].
    specialize (IH (RateLimiter64._respect_rate_limit l (now + gap)%Q late).1
                   (RateLimiter64._respect_rate_limit l (now + gap)%Q late).2).
    rewrite Hrate, Hrec in IH. apply IH. lra.
Qed.

Lemma sequential_series_is_spaced_witness :
  spaced_from
    (RateLimiter64.tenth * (1 - Binary64.unit_roundoff) - (1 # 1000000000))%Q 0
    (run_calls (RateLimiter.init RateLimiter64.tenth) 100
       [(1 # 1000000000, 0); (1 # 1000000000, - (1 # 1000000000));
        (1 # 2, 0)]%Q).
Proof.
  apply (sequential_series_is_spaced (RateLimiter.init RateLimiter64.tenth) 100
           (1 # 1000000000)
           [(1 # 1000000000, 0); (1 # 1000000000, - (1 # 1000000000));
            (1 # 2, 0)]%Q).
  - unfold Qle; simpl; lia.
  - repeat constructor; simpl; unfold Qle; simpl; lia.
Defined.

(** X18. A call never holds its caller longer than one interval: when the
    clock is not behind the recorded dispatch time and the interval is not
    negative, the call returns at most [rate_limit] (plus its lateness) after
    it started; and when a full interval has already passed it does not
    sleep at all. *)
Theorem wait_is_bounded (l : RateLimiter.limiter) (now late : Q) :
  (0 <= RateLimiter.rate_limit l)%Q →
  (RateLimiter.last_request_time l <= now)%Q →
  ((RateLimiter._respect_rate_limit l now late).2
     <= now + RateLimiter.rate_limit l + late)%Q
  ∧ ((RateLimiter.rate_limit l <= now - RateLimiter.last_request_time l)%Q →
     RateLimiter.sleep_needed l now = None
     ∧ (RateLimiter._respect_rate_limit l now late).2 = (now + late)%Q).
Proof.
  intros Hrate Hclock. unfold RateLimiter._respect_rate_limit. cbn [snd].
  pose proof (RateLimiterFacts.sleep_needed_spec l now) as Hs.
  destruct (RateLimiter.sleep_needed l now) as [delay|].
  - destruct Hs as [Hlt ->]. split; [lra |]. intros Hfull. lra.
  - split; [lra | done].
Qed.

Lemma wait_is_bounded_witness :
  ((RateLimiter._respect_rate_limit (RateLimiter.Limiter 2 100) 101 0).2
     <= 101 + 2 + 0)%Q
  ∧ ((2 <= 103 - 100)%Q →
     RateLimiter.sleep_needed (RateLimiter.Limiter 2 100) 103 = None
     ∧ (RateLimiter._respect_rate_limit (RateLimiter.Limiter 2 100) 103 0).2
       = (103 + 0)%Q).
Proof.
  split.
  - apply (wait_is_bounded (RateLimiter.Limiter 2 100) 101 0);
      unfold Qle; simpl; lia.
  - apply (wait_is_bounded (RateLimiter.Limiter 2 100) 103 0);
      unfold Qle; simpl; lia.
Defined.

(** ** More listing loops *)

(** A loop whose extraction succeeds exactly on the well-formed entries
    skips the others with one warning each. *)
Lemma parse_entries_tolerant {A} (well_formed : A → bool)
    (extract : A → result (option (gmap string pyval))) :
  (∀ item, well_formed item = true → ∃ wp, extract item = Ok (Some wp)) →
  (∀ item, well_formed item = false → ∃ e, extract item = Raise e) →
  skips_with_warning well_formed (λ entries, parse_entries extract entries []).
Proof.
  intros Hok Hbad entries w. rewrite parse_entries_spec.
  assert (Hcase : ∀ item,
            (match extract item with Ok (Some _) => true | _ => false end)
              = well_formed item
            ∧ (match extract item with Raise _ => true | _ => false end)
              = negb (well_formed item)).
  { intros item. destruct (well_formed item) eqn:Hwf.
    - by destruct (Hok item Hwf) as [wp ->].
    - by destruct (Hbad item Hwf) as [e ->]. }
  eexists _, _. split; [done |]. split.
  - rewrite app_nil_l, length_extracted. f_equal.
    apply List.filter_ext. intros item. apply Hcase.
  - eexists. split; [done |]. rewrite warnings_warned. f_equal.
    apply List.filter_ext. intros item. apply Hcase.
Qed.

Section pixabay_listing_facts.
Context `{PyRuntime} (category orientation : string).

Lemma pixabay_extract_well_formed (item : pyval) :
  pixabay_well_formed item = true →
  ∃ wp, pixabay_extract category orientation item = Ok (Some wp).
Proof.
  destruct item as [| | | | |d]; try done. unfold pixabay_well_formed.
  unfold pixabay_extract, mbind, result_bind. cbn [py_get].
  destruct (dict_get d "tags" (PStr "")); try done. intros _.
  cbn [as_str]. by eexists.
Qed.

Lemma pixabay_extract_malformed (item : pyval) :
  pixabay_well_formed item = false →
  ∃ e, pixabay_extract category orientation item = Raise e.
Proof.
  destruct item as [| | | | |d]; try (by eexists). unfold pixabay_well_formed.
  unfold pixabay_extract, mbind, result_bind. cbn [py_get].
  destruct (dict_get d "tags" (PStr "")); try done; by eexists.
Qed.
End pixabay_listing_facts.

(** X19. The loop over the hits of a Pixabay answer never raises: it
    returns one candidate for every hit that is a dictionary whose [tags]
    are a string or missing, and logs exactly one warning for every other
    hit. *)
Theorem pixabay_listing_skips_with_warning `{PyRuntime}
    (category orientation : string) :
  skips_with_warning pixabay_well_formed
    (λ entries, parse_entries (pixabay_extract category orientation) entries []).
Proof.
  apply parse_entries_tolerant.
  - apply pixabay_extract_well_formed.
  - apply pixabay_extract_malformed.
Qed.

(** X20. From the answer of the API to the download: for a hit that the
    Pixabay loop accepts, the URL the download step resolves to is the first
    present one of [imageURL], [fullHDURL] and [largeImageURL]. *)
Theorem pixabay_hit_resolves_best_rendition `{PyRuntime}
    (category orientation : string) (d : gmap string pyval) (v : pyval) :
  pixabay_well_formed (PDict d) = true →
  first_present (pixabay_api_ranked d) = Some v →
  ∃ wallpaper_data,
    pixabay_extract category orientation (PDict d) = Ok (Some wallpaper_data)
    ∧ pixabay_resolve wallpaper_data = v.
Proof.
  unfold pixabay_well_formed. intros Hwf Hbest.
  unfold pixabay_extract, mbind, result_bind. cbn [py_get].
  destruct (dict_get d "tags" (PStr "")) as [| | |tags_text| |]; try done.
  cbn [as_str]. eexists. split; [done |].
  unfold pixabay_resolve.
  set (large := dict_get d "largeImageURL" PNone) in *.
  set (full_hd := dict_get d "fullHDURL" PNone) in *.
  set (image := dict_get d "imageURL" PNone) in *.
  match goal with |- context [dict_get ?m "original" PNone] =>
    assert (Ho : dict_get m "original" PNone = image) by reflexivity;
    assert (Hf : dict_get m "full" PNone = py_or full_hd large) by reflexivity;
    assert (Hs : dict_get m "small" PNone = large) by reflexivity
  end.
  rewrite Ho, Hf, Hs.
  unfold first_present, pixabay_api_ranked in Hbest. cbn [find] in Hbest.
  fold image full_hd large in Hbest. unfold py_or.
  destruct (truthy image) eqn:Hi; rewrite ?Hi; [congruence |].
  destruct (truthy full_hd) eqn:Hh; rewrite ?Hh; [congruence |].
  destruct (truthy large) eqn:Hl; rewrite ?Hl; [congruence | done].
Qed.

Lemma pixabay_hit_resolves_best_rendition_witness :
  ∃ wallpaper_data,
    @pixabay_extract posix_runtime "nature" "horizontal" (PDict pixabay_hit)
      = Ok (Some wallpaper_data)
    ∧ pixabay_resolve wallpaper_data = PStr "https://cdn.example/42_1920.jpg".
Proof.
  apply (@pixabay_hit_resolves_best_rendition posix_runtime "nature" "horizontal"
           pixabay_hit (PStr "https://cdn.example/42_1920.jpg"));
    vm_compute; reflexivity.
Defined.

Section wallhaven_api_facts.
Context `{PyRuntime} (query : string).

Lemma tag_names_ok (tag_list : list pyval) :
  forallb is_dict tag_list = true →
  ∃ names, mapM (λ tag, py_get tag "name" PNone) tag_list = Ok names.
Proof.
  induction tag_list as [|tag rest IH]; [by eexists |].
  cbn [forallb]. intros [Htag Hrest]%andb_prop.
  destruct (IH Hrest) as [names Hnames]. destruct tag; try done.
  cbn [mapM]. unfold mbind, result_bind. cbn [py_get].
  unfold mbind, result_bind in Hnames. rewrite Hnames. by eexists.
Qed.

Lemma tag_names_raise (tag_list : list pyval) :
  forallb is_dict tag_list = false →
  ∃ e, mapM (λ tag, py_get tag "name" PNone) tag_list = Raise e.
Proof.
  induction tag_list as [|tag rest IH]; [done |].
  cbn [forallb mapM]. unfold mbind, result_bind.
  destruct tag; try (by eexists). cbn [is_dict andb py_get]. intros Hrest.
  destruct (IH Hrest) as [e He]. unfold mbind, result_bind in He.
  rewrite He. by eexists.
Qed.

Lemma wallhaven_api_extract_well_formed (item : pyval) :
  wallhaven_api_well_formed item = true →
  ∃ wp, wallhaven_api_extract query item = Ok (Some wp).
Proof.
  destruct item as [| | | | |d]; try done. unfold wallhaven_api_well_formed.
  intros [Hthumbs Htags]%andb_prop.
  unfold wallhaven_api_extract. unfold mbind at 1 2 3, result_bind at 1 2 3.
  cbn [py_get].
  destruct (dict_get d "thumbs" (PDict ∅)); try done. cbn [py_get].
  unfold mbind at 1 2 3 4 5 6 7 8, result_bind at 1 2 3 4 5 6 7 8.
  destruct (py_iter (dict_get d "tags" (PList []))) as [tag_list|]; [|done].
  destruct (tag_names_ok tag_list Htags) as [names Hnames].
  unfold mbind at 1. unfold result_bind at 1. rewrite Hnames. by eexists.
Qed.

Lemma wallhaven_api_extract_malformed (item : pyval) :
  wallhaven_api_well_formed item = false →
  ∃ e, wallhaven_api_extract query item = Raise e.
Proof.
  destruct item as [| | | | |d]; try (by eexists).
  unfold wallhaven_api_well_formed. intros Hbad.
  unfold wallhaven_api_extract. unfold mbind at 1 2 3, result_bind at 1 2 3.
  cbn [py_get].
  destruct (dict_get d "thumbs" (PDict ∅)); try (by eexists). cbn [py_get].
  unfold mbind at 1 2 3 4 5 6 7 8, result_bind at 1 2 3 4 5 6 7 8.
  cbn [is_dict andb] in Hbad.
  destruct (py_iter (dict_get d "tags" (PList []))) as [tag_list|];
    [|by eexists].
  destruct (tag_names_raise tag_list Hbad) as [e He].
  unfold mbind at 1. unfold result_bind at 1. rewrite He. by eexists.
Qed.
End wallhaven_api_facts.

(** X21. The loop over the answer of the Wallhaven API never raises: it
    returns one candidate for every entry that is a dictionary whose [thumbs]
    is a dictionary or missing and whose [tags] is missing or a sequence of
    dictionaries, and logs exactly one warning for every other entry. *)
Theorem wallhaven_api_listing_skips_with_warning `{PyRuntime} (query : string) :
  skips_with_warning wallhaven_api_well_formed
    (λ entries, parse_entries (wallhaven_api_extract query) entries []).
Proof.
  apply parse_entries_tolerant.
  - apply wallhaven_api_extract_well_formed.
  - apply wallhaven_api_extract_malformed.
Qed.

(** ** The Unsplash listing as a whole *)

Section unsplash_listing_whole.
Context `{PyRuntime} `{HttpRuntime} (E : env) (api_key : option string)
        (query orientation : string).

Local Abbreviation listing :=
  (unsplash_get_wallpaper_list E api_key query orientation).

(** Parsing a decoded answer makes no request and touches no file. *)
Lemma unsplash_parse_response_quiet (data : pyval) (w : world) :
  requests (unsplash_parse_response query orientation data w).2 = requests w
  ∧ files (unsplash_parse_response query orientation data w).2 = files w.
Proof.
  unfold unsplash_parse_response.
  destruct (if bool_decide (query = EmptyString) then _ else _) as [results|e].
  2:{ by rewrite (io_bind_raise _ _ w e w). }
  rewrite (io_bind_ok _ _ w results w) by done.
  destruct (py_iter results) as [items|e].
  2:{ by rewrite (io_bind_raise _ _ w e w). }
  rewrite (io_bind_ok _ _ w items w) by done.
  by rewrite parse_entries_spec.
Qed.
End unsplash_listing_whole.

(** X22. Without an API key the Unsplash listing does not touch the
    network: it returns the empty list after one error record. *)
Theorem unsplash_listing_needs_key `{PyRuntime} `{HttpRuntime} (E : env)
    (api_key : option string) (query orientation : string) (w : world) :
  api_key_set api_key = false →
  unsplash_get_wallpaper_list E api_key query orientation w
  = (Ok [], World (files w) (dirs w) (requests w)
              (log w ++ [(ERROR, "Cannot fetch wallpapers: No API key provided")])).
Proof.
  intros Hkey. unfold unsplash_get_wallpaper_list. by rewrite Hkey.
Qed.

Lemma unsplash_listing_needs_key_witness :
  @unsplash_get_wallpaper_list posix_runtime fixed_http serving_env (Some "")
    "forest" "landscape" empty_world
  = (Ok [], World ∅ ∅ []
              [(ERROR, "Cannot fetch wallpapers: No API key provided")]).
Proof.
  apply (@unsplash_listing_needs_key posix_runtime fixed_http serving_env
           (Some "") "forest" "landscape" empty_world).
  reflexivity.
Defined.

(** X23. The Unsplash listing returns candidates only from an answer with
    status 200 to its one request: whenever it returns a non-empty list, a
    key was set, exactly one request was made, to the endpoint of the query,
    and the answer to it had status 200. *)
Theorem unsplash_listing_only_from_200 `{PyRuntime} `{HttpRuntime} (E : env)
    (api_key : option string) (query orientation : string) (w w' : world)
    (wallpapers : list (gmap string pyval)) :
  unsplash_get_wallpaper_list E api_key query orientation w = (Ok wallpapers, w') →
  wallpapers ≠ [] →
  api_key_set api_key = true
  ∧ requests w' = (requests w ++ [unsplash_listing_url query])%list
  ∧ ∃ r, net E (length (requests w)) (unsplash_listing_url query) = Ok r
         ∧ status r = 200%Z.
Proof.
  unfold unsplash_get_wallpaper_list. intros Hrun Hsome.
  destruct (api_key_set api_key); cbn [negb] in Hrun.
  2:{ io_inv Hrun. by injection Hrun as <- _. }
  split; [done |]. io_inv Hrun.
  unfold session_get in Hstep. injection Hstep as Hnet <-.
  destruct (Z.eqb_spec (status a) 200) as [Hst|Hst]; cbn [negb] in Hrun.
  - io_inv Hrun. apply lift_inv in Hstep as [_ ->].
    pose proof (unsplash_parse_response_quiet query orientation a0
                  (World (files w) (dirs w)
                     (requests w ++ [unsplash_listing_url query])
                     (log w))) as [Hreq _].
    rewrite Hrun in Hreq. simpl in Hreq.
    split; [done |]. by exists a.
  - io_inv Hrun. io_inv Hrun. by injection Hrun as <- _.
Qed.

Lemma unsplash_listing_only_from_200_witness :
  api_key_set (Some "key") = true
  ∧ requests forest_listing.2 = ["https://api.unsplash.com/search/photos"]
  ∧ ∃ r, net serving_env 0 "https://api.unsplash.com/search/photos" = Ok r
         ∧ status r = 200%Z.
Proof.
  assert (Hlen : length forest_candidates = 5%nat) by (vm_compute; reflexivity).
  apply (@unsplash_listing_only_from_200 posix_runtime fixed_http serving_env
           (Some "key") "forest" "landscape" empty_world forest_listing.2
           forest_candidates).
  - change (forest_listing = (Ok forest_candidates, forest_listing.2)).
    revert Hlen. unfold forest_candidates.
    destruct forest_listing as [[wallpapers|e] w']; [reflexivity | discriminate].
  - intros Hnone. rewrite Hnone in Hlen. discriminate.
Defined.

(** ** The Wallhaven download step *)

Lemma download_file_requests (E : env) (url destination : string) (timeout : Z)
    (w : world) :
  requests w `prefix_of` requests (download_file E url destination timeout w).2.
Proof.
  pose proof (download_file_try_cases E url destination w) as [Htouch _].
  unfold download_file.
  destruct (download_file_try E url destination w) as [[out|e] w']; simpl in *.
  - destruct Htouch as ([->| ->] & _); [done | by apply prefix_app_r].
  - destruct Htouch as ([->| ->] & _); [done | by apply prefix_app_r].
Qed.

Lemma fetch_to_requests (E : env) (url output_path : string) (w : world) :
  requests w `prefix_of` requests (fetch_to E url output_path w).2.
Proof.
  pose proof (download_file_requests E url output_path 60 w) as Hreq.
  unfold fetch_to.
  by destruct (download_file E url output_path 60 w) as [[[] err] w1].
Qed.

Section wallhaven_download_facts.
Context `{PyRuntime} `{HttpRuntime} `{HtmlRuntime} (E : env)
        (download_directory : string) (wallpaper_data : gmap string pyval).

Local Abbreviation save := (wallhaven_save E download_directory wallpaper_data).

Lemma wallhaven_output_path_inv (url : pyval) (d p : string) :
  wallhaven_output_path download_directory wallpaper_data url = Ok (d, p) →
  ∃ name ext,
    as_str (dict_get wallpaper_data "title" (PStr "wallpaper")) "replace" = Ok name
    ∧ file_ext url = Ok ext
    ∧ category_path download_directory
        (dict_get wallpaper_data "category" (PStr "wallhaven")) = Ok d
    ∧ p = path_join d
            ((if truthy (dict_get wallpaper_data "resolution" (PStr ""))
              then sanitize_filename name ++ "_"
                     ++ py_str (dict_get wallpaper_data "resolution" (PStr ""))
              else sanitize_filename name) ++ ext).
Proof.
  unfold wallhaven_output_path, mbind, result_bind, mret, result_ret.
  destruct (as_str _ _) as [name|]; [|done].
  destruct (file_ext _) as [ext|]; [|done].
  destruct (category_path _ _) as [d'|]; [|done].
  intros [= <- <-]. by exists name, ext.
Qed.

(** The picture is there: the second part answers with its path after one
    log record, with no request and no change to the files. *)
Lemma wallhaven_save_existing (url : pyval) (w : world) (d p : string) :
  wallhaven_output_path download_directory wallpaper_data url = Ok (d, p) →
  makedirs_error E d = None →
  path_exists p w = true →
  save url w
  = (Ok (Some p),
     World (files w) ({[d]} ∪ dirs w) (requests w)
           (log w ++ [(INFO, "Wallpaper already exists: " ++ p)])).
Proof.
  intros (name & ext & Hname & Hext & Hd & ->)%wallhaven_output_path_inv Hmk Hex.
  unfold wallhaven_save.
  rewrite (io_bind_ok _ _ w name w) by (unfold lift; by rewrite Hname).
  rewrite (io_bind_ok _ _ w ext w) by (unfold lift; by rewrite Hext).
  rewrite (io_bind_ok _ _ w d w) by (unfold lift; by rewrite Hd).
  set (w0 := World (files w) ({[d]} ∪ dirs w) (requests w) (log w)).
  rewrite (io_bind_ok _ _ w tt w0) by (unfold makedirs; by rewrite Hmk).
  rewrite (io_bind_ok _ _ w0 w0 w0) by done.
  match goal with |- context [path_exists ?q w0] =>
    assert (Hex0 : path_exists q w0 = true) end.
  { apply (extends_world_exists w w0); [|done].
    split; [done |]. split; [apply union_subseteq_r |]. by split. }
  rewrite Hex0. reflexivity.
Qed.

(** When the second part returns a path, it is the computed destination and
    something exists there afterwards. *)
Lemma wallhaven_save_returns (url : pyval) (w w' : world) (p : string) :
  save url w = (Ok (Some p), w') →
  ∃ d, wallhaven_output_path download_directory wallpaper_data url = Ok (d, p)
       ∧ makedirs_error E d = None
       ∧ path_exists p w' = true.
Proof.
  unfold wallhaven_save, wallhaven_output_path. intros Hrun.
  io_inv Hrun. apply lift_inv in Hstep as [Hname ->].
  io_inv Hrun. apply lift_inv in Hstep as [Hext ->].
  io_inv Hrun. apply lift_inv in Hstep as [Hd ->].
  io_inv Hrun. io_inv Hrun.
  rewrite Hname, Hext, Hd. exists a1.
  unfold makedirs in Hstep. destruct (makedirs_error E a1) eqn:Hmk; [done |].
  injection Hstep as _ <-. injection Hstep0 as <- <-.
  match type of Hrun with context [path_exists ?q ?w0] =>
    set (p' := q) in *; set (w1 := w0) in *;
    destruct (path_exists p' w1) eqn:Hex end.
  - io_inv Hrun. injection Hrun as <- <-.
    injection Hstep as _ <-. repeat split; done.
  - io_inv Hrun.
    apply fetch_to_returns in Hrun as [-> Hfile].
    repeat split; try done;
      unfold path_exists; apply orb_true_iff; left; by apply bool_decide_eq_true.
Qed.

(** The second part only adds to the list of requests. *)
Lemma wallhaven_save_requests (url : pyval) (w : world) :
  requests w `prefix_of` requests (save url w).2.
Proof.
  unfold wallhaven_save.
  destruct (as_str (dict_get wallpaper_data "title" (PStr "wallpaper")) "replace")
    as [name|e] eqn:Hname.
  2:{ rewrite (io_bind_raise _ _ w e w) by done. done. }
  rewrite (io_bind_ok _ _ w name w) by done.
  destruct (file_ext url) as [ext|e] eqn:Hext.
  2:{ rewrite (io_bind_raise _ _ w e w) by done. done. }
  rewrite (io_bind_ok _ _ w ext w) by done.
  destruct (category_path download_directory
              (dict_get wallpaper_data "category" (PStr "wallhaven")))
    as [d|e] eqn:Hd.
  2:{ rewrite (io_bind_raise _ _ w e w) by done. done. }
  rewrite (io_bind_ok _ _ w d w) by done.
  destruct (makedirs_error E d) as [e|] eqn:Hmk.
  { rewrite (io_bind_raise _ _ w e w) by (unfold makedirs; by rewrite ?Hmk). done. }
  set (w0 := World (files w) ({[d]} ∪ dirs w) (requests w) (log w)).
  rewrite (io_bind_ok _ _ w tt w0) by (unfold makedirs; by rewrite ?Hmk).
  rewrite (io_bind_ok _ _ w0 w0 w0) by done.
  destruct (path_exists _ w0).
  - done.
  - destruct (as_str url "split") as [u|e] eqn:Hu.
    2:{ rewrite (io_bind_raise _ _ w0 e w0) by done. done. }
    rewrite (io_bind_ok _ _ w0 u w0) by done.
    apply (fetch_to_requests E u _ w0).
Qed.
End wallhaven_download_facts.

(** X24. A path returned by the Wallhaven download step exists afterwards,
    and it lies in the directory named by the category of the candidate
    under the download directory. *)
Theorem wallhaven_returned_path_exists `{PyRuntime} `{HttpRuntime}
    `{HtmlRuntime} (E : env) (download_directory : string)
    (wallpaper_data : gmap string pyval) (w w' : world) (p : string) :
  wallhaven_download_wallpaper E download_directory wallpaper_data w
  = (Ok (Some p), w') →
  path_exists p w' = true
  ∧ ∃ d name,
      category_path download_directory
        (dict_get wallpaper_data "category" (PStr "wallhaven")) = Ok d
      ∧ p = path_join d name.
Proof.
  unfold wallhaven_download_wallpaper. intros Hrun. io_inv Hrun.
  destruct a as [url|]; [| by inversion Hrun].
  apply wallhaven_save_returns in Hrun as (d & Hpath & _ & Hex).
  split; [done |].
  apply wallhaven_output_path_inv in Hpath as (name & ext & _ & _ & Hd & ->).
  by eexists d, _.
Qed.

Lemma wallhaven_returned_path_exists_witness :
  path_exists meadow_path meadow_fetched.2 = true
  ∧ ∃ d name,
      @category_path posix_runtime pictures
        (dict_get meadow "category" (PStr "wallhaven")) = Ok d
      ∧ meadow_path = @path_join posix_runtime d name.
Proof.
  assert (Hfst : meadow_fetched.1 = Ok (Some meadow_path))
    by (vm_compute; reflexivity).
  apply (@wallhaven_returned_path_exists posix_runtime fixed_http fixed_html
           serving_env pictures meadow empty_world meadow_fetched.2 meadow_path).
  change (meadow_fetched = (Ok (Some meadow_path), meadow_fetched.2)).
  revert Hfst. destruct meadow_fetched as [r w']. simpl. intros ->. reflexivity.
Defined.

(** X25. A candidate that carries the address of the picture costs no
    request when the picture is on disk: the step returns the destination it
    computes after one log record and leaves the files as they are. *)
Theorem wallhaven_direct_url_existing_file_no_fetch `{PyRuntime} `{HttpRuntime}
    `{HtmlRuntime} (E : env) (download_directory : string)
    (wallpaper_data : gmap string pyval) (w : world) (d p : string) :
  truthy (dict_get wallpaper_data "download_url" PNone) = true →
  wallhaven_output_path download_directory wallpaper_data
    (dict_get wallpaper_data "download_url" PNone) = Ok (d, p) →
  makedirs_error E d = None →
  path_exists p w = true →
  wallhaven_download_wallpaper E download_directory wallpaper_data w
  = (Ok (Some p),
     World (files w) ({[d]} ∪ dirs w) (requests w)
           (log w ++ [(INFO, "Wallpaper already exists: " ++ p)])).
Proof.
  intros Hurl Hpath Hmk Hex.
  unfold wallhaven_download_wallpaper.
  rewrite (io_bind_ok _ _ w (Some (dict_get wallpaper_data "download_url" PNone)) w).
  - by apply wallhaven_save_existing.
  - unfold wallhaven_find_url. by rewrite Hurl.
Qed.

Lemma wallhaven_direct_url_existing_file_no_fetch_witness :
  @wallhaven_download_wallpaper posix_runtime fixed_http fixed_html serving_env
    pictures meadow meadow_on_disk
  = (Ok (Some meadow_path),
     World (files meadow_on_disk) ({[sunset_dir]} ∪ dirs meadow_on_disk) []
           [(INFO, "Wallpaper already exists: " ++ meadow_path)]).
Proof.
  apply (@wallhaven_direct_url_existing_file_no_fetch posix_runtime fixed_http
           fixed_html serving_env pictures meadow meadow_on_disk sunset_dir
           meadow_path); vm_compute; reflexivity.
Defined.

(** What the HTML loop puts into a candidate. *)
Lemma wallhaven_extract_fields (query : string) (f : figure)
    (candidate : gmap string pyval) :
  wallhaven_extract query f = Ok (Some candidate) →
  ∃ wallpaper_id,
    data_wallpaper_id f = Some wallpaper_id
    ∧ dict_get candidate "download_url" PNone = PNone
    ∧ dict_get candidate "url" PNone
      = PStr ("https://wallhaven.cc/w/" ++ wallpaper_id)
    ∧ dict_get candidate "category" (PStr "wallhaven")
      = py_or (PStr query) (PStr "wallhaven")
    ∧ dict_get candidate "title" (PStr "wallpaper")
      = PStr ("wallhaven_" ++ wallpaper_id)
    ∧ dict_get candidate "resolution" (PStr "") = PStr (figure_resolution f).
Proof.
  unfold wallhaven_extract, figure_resolution.
  destruct (data_wallpaper_id f) as [[|c id]|]; [done | | done].
  unfold mbind at 1. unfold result_bind at 1.
  destruct (if bool_decide _ then _ else _) as [[width height]|e]; [|done].
  intros [= <-]. exists (String c id). by repeat split.
Qed.

(** A sanitised name holds no slash. *)
Lemma sanitize_filename_no_slash (filename : string) :
  PyStr.all_chars (λ a, negb (bool_decide (a = "/"%char)))
    (sanitize_filename filename) = true.
Proof.
  assert (Hclean : PyStr.all_chars (λ a, negb (is_invalid a))
                     (sanitize_filename filename) = true).
  { unfold sanitize_filename. cbv zeta.
    case_bool_decide as Hempty; [by vm_compute |].
    pose proof (replace_loop_clean invalid_chars "_"%char filename) as Hloop.
    assert (Hd : "_"%char ∉ invalid_chars)
      by (apply (proj1 (bool_decide_eq_false _)); by vm_compute).
    specialize (Hloop Hd). fold is_invalid in Hloop.
    set (P := λ a, negb (is_invalid a)) in *.
    apply (PyStrFacts.all_chars_strip P PyStr.isspace),
          (PyStrFacts.all_chars_strip P PyStr.isdot) in Hloop.
    case_bool_decide; [|done].
    destruct (PyStrFacts.all_chars_splitext P _ Hloop) as [Hb He].
    destruct (PyStr.splitext _) as [base ext]; simpl in *.
    rewrite PyStrFacts.all_chars_app, He, andb_true_r.
    by apply PyStrFacts.all_chars_slice_to. }
  eapply PyStrFacts.all_chars_impl; [|exact Hclean].
  intros a Ha. apply negb_true_iff, bool_decide_eq_false. intros ->.
  by vm_compute in Ha.
Qed.

(** Neither does the extension the download steps append. *)
Lemma file_ext_no_slash (url : pyval) (ext : string) :
  file_ext url = Ok ext →
  ext ≠ EmptyString
  ∧ PyStr.all_chars (λ a, negb (bool_decide (a = "/"%char))) ext = true.
Proof.
  unfold file_ext, mbind, result_bind, mret, result_ret.
  destruct (as_str url "split") as [u|]; [|done]. intros [= <-].
  unfold get_file_extension_from_url.
  destruct (splitext_ext_shape (PyStr.before "?" u))
    as [-> | (rest & -> & _ & Hslash & _)].
  - by rewrite bool_decide_true.
  - rewrite bool_decide_false by done. split; [done |].
    cbn [PyStr.all_chars]. by rewrite Hslash.
Qed.

(** X26. A candidate of the HTML loop never carries the address of the
    picture, so the download step always begins with a request for its
    detail page, whatever is on disk. *)
Theorem wallhaven_page_candidate_requests_detail_page `{PyRuntime} `{HttpRuntime}
    `{HtmlRuntime} (E : env) (download_directory query : string) (f : figure)
    (candidate : gmap string pyval) (w : world) :
  wallhaven_extract query f = Ok (Some candidate) →
  ∃ wallpaper_id,
    data_wallpaper_id f = Some wallpaper_id
    ∧ (requests w ++ [("https://wallhaven.cc/w/" ++ wallpaper_id)%string])%list
        `prefix_of`
      requests (wallhaven_download_wallpaper E download_directory candidate w).2.
Proof.
  intros (id & Hid & Hdirect & Hurl & _)%wallhaven_extract_fields.
  exists id. split; [done |].
  unfold wallhaven_download_wallpaper, wallhaven_find_url.
  rewrite Hdirect, Hurl. cbn [truthy negb].
  replace (bool_decide (("https://wallhaven.cc/w/" ++ id)%string = EmptyString))
    with false by done.
  cbn [negb session_get_value].
  set (u := ("https://wallhaven.cc/w/" ++ id)%string).
  set (w1 := World (files w) (dirs w) (requests w ++ [u]) (log w)).
  unfold mbind at 1. unfold io_bind at 1. unfold mbind at 1. unfold io_bind at 1.
  unfold session_get. fold w1.
  destruct (net E (length (requests w)) u) as [response|e]; [|done].
  destruct (negb (status response =? 200)%Z).
  { done. }
  unfold mbind at 1. unfold io_bind at 1. unfold lift at 1.
  destruct (response_text response) as [html|e]; [|done].
  destruct (wallpaper_img_src html) as [src|]; [|done].
  case_bool_decide; [done |].
  apply (wallhaven_save_requests E download_directory candidate (PStr src) w1).
Qed.

Lemma wallhaven_page_candidate_requests_detail_page_witness :
  ∃ wallpaper_id,
    data_wallpaper_id (thumb "w8x7y1") = Some wallpaper_id
    ∧ (requests meadow_page_on_disk
         ++ [("https://wallhaven.cc/w/" ++ wallpaper_id)%string])%list
        `prefix_of`
      requests (@wallhaven_download_wallpaper posix_runtime fixed_http fixed_html
                  serving_env pictures meadow_from_page meadow_page_on_disk).2.
Proof.
  apply (@wallhaven_page_candidate_requests_detail_page posix_runtime fixed_http
           fixed_html serving_env pictures "nature" (thumb "w8x7y1")
           meadow_from_page meadow_page_on_disk).
  vm_compute. reflexivity.
Defined.

(** X27. Pictures found through the HTML listing of a query are stored in
    the directory of that query, as long as the resolution shown for the
    figure holds no slash: a path the download step returns for such a
    candidate is the download directory joined with the query and then with
    one name, which is not empty and holds no slash. The resolution is
    appended to the name as it was scraped, after the title has been
    sanitised, so the condition on it is needed. *)
Theorem wallhaven_page_candidate_lands_in_query_directory `{PyRuntime}
    `{HttpRuntime} `{HtmlRuntime} (E : env) (download_directory query : string)
    (f : figure) (candidate : gmap string pyval) (w w' : world) (p : string) :
  wallhaven_extract query f = Ok (Some candidate) →
  query ≠ EmptyString →
  PyStr.all_chars (λ a, negb (bool_decide (a = "/"%char))) (figure_resolution f)
  = true →
  wallhaven_download_wallpaper E download_directory candidate w
  = (Ok (Some p), w') →
  ∃ name,
    p = path_join (path_join download_directory query) name
    ∧ name ≠ EmptyString
    ∧ PyStr.all_chars (λ a, negb (bool_decide (a = "/"%char))) name = true.
Proof.
  intros (id & _ & _ & _ & Hcat & Htitle & Hres)%wallhaven_extract_fields
    Hquery Hslash Hrun.
  unfold wallhaven_download_wallpaper in Hrun. io_inv Hrun.
  destruct a as [url|]; [| by inversion Hrun].
  apply wallhaven_save_returns in Hrun as (d & Hpath & _ & _).
  apply wallhaven_output_path_inv in Hpath as (name & ext & Hname & Hext & Hd & ->).
  rewrite Hcat in Hd. unfold py_or in Hd. cbn [truthy] in Hd.
  rewrite bool_decide_false in Hd by done. cbn [negb category_path] in Hd.
  injection Hd as <-.
  rewrite Htitle in Hname. injection Hname as <-.
  rewrite Hres. cbn [truthy py_str].
  apply file_ext_no_slash in Hext as [Hext Hext_slash].
  pose proof (sanitize_filename_no_slash ("wallhaven_" ++ id)) as Hbase.
  eexists. split; [done |]. split.
  - intros Hempty. apply Hext.
    match type of Hempty with (?base ++ _)%string = _ =>
      by destruct base end.
  - rewrite PyStrFacts.all_chars_app, Hext_slash, andb_true_r.
    destruct (negb (bool_decide (figure_resolution f = EmptyString))); [|done].
    rewrite !PyStrFacts.all_chars_app, Hbase, Hslash. done.
Qed.

Lemma wallhaven_page_candidate_lands_in_query_directory_witness :
  ∃ name,
    meadow_page_path
    = @path_join posix_runtime (@path_join posix_runtime pictures "nature") name
    ∧ name ≠ EmptyString
    ∧ PyStr.all_chars (λ a, negb (bool_decide (a = "/"%char))) name = true.
Proof.
  assert (Hfst : meadow_page_fetched.1 = Ok (Some meadow_page_path))
    by (vm_compute; reflexivity).
  apply (@wallhaven_page_candidate_lands_in_query_directory posix_runtime
           fixed_http fixed_html serving_env pictures "nature" (thumb "w8x7y1")
           meadow_from_page empty_world meadow_page_fetched.2 meadow_page_path).
  - vm_compute. reflexivity.
  - discriminate.
  - vm_compute. reflexivity.
  - change (meadow_page_fetched
            = (Ok (Some meadow_page_path), meadow_page_fetched.2)).
    revert Hfst. destruct meadow_page_fetched as [r w']. simpl.
    intros ->. reflexivity.
Defined.

(** X28. The Unsplash destination is built from title, author, size and
    category, not from the identifier of the picture: once the step has
    returned a path for one candidate, a second candidate that maps to the
    same path is answered with that path and is not fetched, even if it is a
    different picture. *)
Theorem unsplash_name_clash_skips_second `{PyRuntime} (E : env)
    (download_directory : string) (api_key : option string)
    (first second : gmap string pyval) (w w1 : world) (d p : string) :
  unsplash_download_wallpaper E download_directory api_key first w
  = (Ok (Some p), w1) →
  truthy (unsplash_resolve second) = true →
  unsplash_output_path download_directory second = Ok (d, p) →
  makedirs_error E d = None →
  ∃ w2, unsplash_download_wallpaper E download_directory api_key second w1
        = (Ok (Some p), w2)
        ∧ requests w2 = requests w1
        ∧ files w2 = files w1.
Proof.
  intros (_ & _ & _ & _ & Hex)%unsplash_returned_path_exists Hurl Hpath Hmk.
  eexists.
  split; [exact (unsplash_existing_file _ _ _ _ w1 d p Hurl Hpath Hmk Hex) |].
  done.
Qed.

Lemma unsplash_name_clash_skips_second_witness :
  unsplash_resolve sunset ≠ unsplash_resolve sunset_again
  ∧ ∃ w2, @unsplash_download_wallpaper posix_runtime serving_env pictures
            (Some "key") sunset_again sunset_fetched.2
          = (Ok (Some sunset_path), w2)
          ∧ requests w2 = requests sunset_fetched.2
          ∧ files w2 = files sunset_fetched.2.
Proof.
  split; [vm_compute; discriminate |].
  assert (Hfst : sunset_fetched.1 = Ok (Some sunset_path))
    by (vm_compute; reflexivity).
  apply (@unsplash_name_clash_skips_second posix_runtime serving_env pictures
           (Some "key") sunset sunset_again empty_world sunset_fetched.2
           sunset_dir sunset_path).
  - change (sunset_fetched = (Ok (Some sunset_path), sunset_fetched.2)).
    revert Hfst. destruct sunset_fetched as [r w']. simpl. intros ->. reflexivity.
  - vm_compute. reflexivity.
  - vm_compute. reflexivity.
  - reflexivity.
Defined.

(** ** The download loop with the Wallhaven step *)

Lemma download_file_request_count (E : env) (url destination : string)
    (timeout : Z) (w : world) :
  (length (requests (download_file E url destination timeout w).2)
   ≤ S (length (requests w)))%nat.
Proof.
  pose proof (download_file_try_cases E url destination w) as [Htouch _].
  unfold download_file.
  destruct (download_file_try E url destination w) as [[out|e] w']; simpl in *;
    destruct Htouch as ([->| ->] & _); rewrite ?length_app; simpl; lia.
Qed.

Lemma fetch_to_request_count (E : env) (url output_path : string) (w : world) :
  (length (requests (fetch_to E url output_path w).2) ≤ S (length (requests w)))%nat.
Proof.
  pose proof (download_file_request_count E url output_path 60 w) as Hreq.
  unfold fetch_to.
  by destruct (download_file E url output_path 60 w) as [[[] err] w1].
Qed.

Section download_each_requests.
Context (step : gmap string pyval → io (option string)) (k : nat).
Hypothesis Hstep_bound :
  ∀ wallpaper w, (length (requests (step wallpaper w).2) ≤ length (requests w) + k)%nat.

Lemma download_each_request_count (wallpapers : list (gmap string pyval))
    (acc out : list string) (w w1 : world) :
  download_each step wallpapers acc w = (Ok out, w1) →
  (length (requests w1) ≤ length (requests w) + k * length wallpapers)%nat.
Proof.
  revert acc w. induction wallpapers as [|wd rest IH]; intros acc w Hrun.
  - injection Hrun as _ <-. lia.
  - cbn [download_each] in Hrun. io_inv Hrun.
    apply IH in Hrun. pose proof (Hstep_bound wd w) as Hone.
    rewrite Hstep in Hone. simpl in *. lia.
Qed.
End download_each_requests.

Section wallhaven_request_count.
Context `{PyRuntime} `{HttpRuntime} `{HtmlRuntime} (E : env)
        (download_directory : string).

Lemma wallhaven_save_request_count (wallpaper_data : gmap string pyval)
    (url : pyval) (w : world) :
  (length (requests (wallhaven_save E download_directory wallpaper_data url w).2)
   ≤ S (length (requests w)))%nat.
Proof.
  unfold wallhaven_save.
  destruct (as_str (dict_get wallpaper_data "title" (PStr "wallpaper")) "replace")
    as [name|e] eqn:Hname.
  2:{ rewrite (io_bind_raise _ _ w e w) by done. simpl. lia. }
  rewrite (io_bind_ok _ _ w name w) by done.
  destruct (file_ext url) as [ext|e] eqn:Hext.
  2:{ rewrite (io_bind_raise _ _ w e w) by done. simpl. lia. }
  rewrite (io_bind_ok _ _ w ext w) by done.
  destruct (category_path download_directory
              (dict_get wallpaper_data "category" (PStr "wallhaven")))
    as [d|e] eqn:Hd.
  2:{ rewrite (io_bind_raise _ _ w e w) by done. simpl. lia. }
  rewrite (io_bind_ok _ _ w d w) by done.
  destruct (makedirs_error E d) as [e|] eqn:Hmk.
  { rewrite (io_bind_raise _ _ w e w) by (unfold makedirs; by rewrite Hmk).
    simpl. lia. }
  set (w0 := World (files w) ({[d]} ∪ dirs w) (requests w) (log w)).
  rewrite (io_bind_ok _ _ w tt w0) by (unfold makedirs; by rewrite Hmk).
  rewrite (io_bind_ok _ _ w0 w0 w0) by done.
  destruct (path_exists _ w0).
  - simpl. lia.
  - destruct (as_str url "split") as [u|e] eqn:Hu.
    2:{ rewrite (io_bind_raise _ _ w0 e w0) by done. simpl. lia. }
    rewrite (io_bind_ok _ _ w0 u w0) by done.
    apply (fetch_to_request_count E u _ w0).
Qed.

(** One step makes at most two requests: one for the detail page and one
    for the picture. *)
Lemma wallhaven_step_request_count (wallpaper_data : gmap string pyval)
    (w : world) :
  (length (requests
             (wallhaven_download_wallpaper E download_directory wallpaper_data w).2)
   ≤ length (requests w) + 2)%nat.
Proof.
  unfold wallhaven_download_wallpaper, wallhaven_find_url.
  destruct (truthy (dict_get wallpaper_data "download_url" PNone)).
  { rewrite (io_bind_ok _ _ w (Some (dict_get wallpaper_data "download_url" PNone)) w)
      by done.
    pose proof (wallhaven_save_request_count wallpaper_data
                  (dict_get wallpaper_data "download_url" PNone) w). lia. }
  destruct (truthy (dict_get wallpaper_data "url" PNone)); cbn [negb].
  2:{ simpl. lia. }
  unfold session_get_value.
  destruct (dict_get wallpaper_data "url" PNone) as [| | |u| |];
    try (simpl; lia).
  set (w1 := World (files w) (dirs w) (requests w ++ [u]) (log w)).
  assert (Hw1 : length (requests w1) = S (length (requests w))).
  { simpl. rewrite length_app. simpl. lia. }
  unfold mbind at 1. unfold io_bind at 1. unfold mbind at 1. unfold io_bind at 1.
  unfold session_get. fold w1.
  destruct (net E (length (requests w)) u) as [response|e]; [| simpl in *; lia].
  destruct (negb (status response =? 200)%Z).
  { simpl in *. lia. }
  unfold mbind at 1. unfold io_bind at 1. unfold lift at 1.
  destruct (response_text response) as [html|e]; [| simpl in *; lia].
  destruct (wallpaper_img_src html) as [src|]; [| simpl in *; lia].
  case_bool_decide; [simpl in *; lia |].
  pose proof (wallhaven_save_request_count wallpaper_data (PStr src) w1).
  cbn [mret io_ret] in *. lia.
Qed.
End wallhaven_request_count.

(** X29. The Wallhaven downloader of the example script cuts the listing to
    [limit] candidates before it downloads: for a limit that is not
    negative, the loop over the cut listing returns at most [limit] paths
    and makes at most two requests for each candidate it keeps, so at most
    twice [limit] requests in all. *)
Theorem limited_loop_is_bounded `{PyRuntime} `{HttpRuntime} `{HtmlRuntime}
    (E : env) (download_directory : string) (limit : Z)
    (wallpapers : list (gmap string pyval)) (paths : list string) (w w' : world) :
  (0 ≤ limit)%Z →
  download_each (wallhaven_download_wallpaper E download_directory)
    (list_slice_to limit wallpapers) [] w = (Ok paths, w') →
  (Z.of_nat (length paths) ≤ limit)%Z
  ∧ (Z.of_nat (length (requests w'))
     ≤ Z.of_nat (length (requests w)) + 2 * limit)%Z.
Proof.
  intros Hlimit Hrun.
  assert (Hcut : (Z.of_nat (length (list_slice_to limit wallpapers)) ≤ limit)%Z).
  { unfold list_slice_to. rewrite bool_decide_true by done.
    rewrite length_take. lia. }
  split.
  - apply download_each_length in Hrun. simpl in Hrun. lia.
  - apply (download_each_request_count _ 2) in Hrun.
    + lia.
    + intros wallpaper v. apply wallhaven_step_request_count.
Qed.

Lemma limited_loop_is_bounded_witness :
  (Z.of_nat (length [meadow_path]) ≤ 1)%Z
  ∧ (Z.of_nat (length (requests one_of_two.2))
     ≤ Z.of_nat (length (requests empty_world)) + 2 * 1)%Z.
Proof.
  assert (Hfst : one_of_two.1 = Ok [meadow_path]) by (vm_compute; reflexivity).
  apply (@limited_loop_is_bounded posix_runtime fixed_http fixed_html serving_env
           pictures 1 [meadow; meadow_from_page] [meadow_path] empty_world
           one_of_two.2).
  - lia.
  - change (one_of_two = (Ok [meadow_path], one_of_two.2)).
    revert Hfst. destruct one_of_two as [r w']. simpl. intros ->. reflexivity.
Defined.

(** ** The Wallhaven listing as a whole *)

(** X30. The Wallhaven listing asks exactly one source in every run: the
    API search address when a key is set, the HTML search page otherwise.
    A failing call of the API is never followed by a request for the HTML
    page; files and directories stay as they are and the log only grows. *)
Theorem wallhaven_listing_asks_one_source `{PyRuntime} `{HttpRuntime}
    `{HtmlRuntime} (E : env) (api_key : option string) (query : string)
    (w : world) :
  ∃ (outcome : result (list (gmap string pyval))) (new : list (level * string)),
    wallhaven_get_wallpaper_list E api_key query w
    = (outcome,
       World (files w) (dirs w)
             (requests w ++ [wallhaven_listing_url api_key])
             (log w ++ new)).
Proof.
  unfold wallhaven_get_wallpaper_list, wallhaven_listing_url.
  destruct (api_key_set api_key).
  - set (u := (wallhaven_base_url ++ "/api/v1/search")%string).
    set (w1 := World (files w) (dirs w) (requests w ++ [u]) (log w)).
    assert (Hw1 : ∀ outcome : result (list (gmap string pyval)),
              (outcome, w1)
              = (outcome, World (files w) (dirs w) (requests w ++ [u]) (log w ++ []))).
    { intros outcome. unfold w1. by rewrite app_nil_r. }
    unfold mbind at 1. unfold io_bind at 1. unfold session_get. fold w1.
    destruct (net E (length (requests w)) u) as [response|e]; [| by eexists _, []].
    destruct (negb (status response =? 200)%Z); [by eexists _, [_] |].
    destruct (response_json response) as [data|e].
    2:{ rewrite (io_bind_raise _ _ w1 e w1) by done. by eexists _, []. }
    rewrite (io_bind_ok _ _ w1 data w1) by done.
    destruct (py_get data "data" (PList [])) as [entries|e].
    2:{ rewrite (io_bind_raise _ _ w1 e w1) by done. by eexists _, []. }
    rewrite (io_bind_ok _ _ w1 entries w1) by done.
    destruct (py_iter entries) as [items|e].
    2:{ rewrite (io_bind_raise _ _ w1 e w1) by done. by eexists _, []. }
    rewrite (io_bind_ok _ _ w1 items w1) by done.
    rewrite parse_entries_spec. by eexists _, _.
  - set (u := (wallhaven_base_url ++ "/search")%string).
    set (w1 := World (files w) (dirs w) (requests w ++ [u]) (log w)).
    assert (Hw1 : ∀ outcome : result (list (gmap string pyval)),
              (outcome, w1)
              = (outcome, World (files w) (dirs w) (requests w ++ [u]) (log w ++ []))).
    { intros outcome. unfold w1. by rewrite app_nil_r. }
    unfold mbind at 1. unfold io_bind at 1. unfold session_get. fold w1.
    destruct (net E (length (requests w)) u) as [response|e]; [| by eexists _, []].
    destruct (negb (status response =? 200)%Z); [by eexists _, [_] |].
    destruct (response_text response) as [html|e].
    2:{ rewrite (io_bind_raise _ _ w1 e w1) by done. by eexists _, []. }
    rewrite (io_bind_ok _ _ w1 html w1) by done.
    unfold wallhaven_parse_figures. rewrite parse_entries_spec. by eexists _, _.
Qed.
